(** * A shallow embedding of the virtual-core engine

    The development follows [packages/virtual-core]: the [memo] helper of
    [utils.ts] and, from [index.ts], the render-window extractor, the
    binary search, the range calculator and the [Virtualizer] class (its
    measurement cache and its scroll-position controller).

    Conventions of the embedding.
    - A JavaScript [number] that holds a pixel quantity or an index is an
      integer of [Z]; positions inside the measurement cache, which the code
      only ever produces from array positions, are [nat]. The offsets that
      come out of the alignment rule, which halves a difference, are of
      [Js.number]: an integer or an integer and a half.
    - A JavaScript array is a list of optional elements: [None] is a hole,
      which reads as [undefined], exactly like a position past the end.
    - A property read on [undefined] raises [TypeError]; the [while] loops
      run on fuel, the counted [for] loops on their trip count. *)

From stdpp Require Import base numbers option list sorting gmap strings.
From Stdlib Require Import ZArith Lia.

Local Open Scope Z_scope.

(** ** The JavaScript fragment the engine relies on *)

Module Js.

(** What evaluating a piece of code can end in. *)
Inductive outcome (A : Type) : Type :=
  | Ok (a : A)
  | TypeError
  | OutOfFuel.
Arguments Ok {A} a.
Arguments TypeError {A}.
Arguments OutOfFuel {A}.

Definition bind {A B : Type} (m : outcome A) (k : A → outcome B) : outcome B :=
  match m with
  | Ok a => k a
  | TypeError => TypeError
  | OutOfFuel => OutOfFuel
  end.

(** [x!.field]: the read of a field of a value that may be [undefined]. *)
Definition deref {A : Type} (x : option A) : outcome A :=
  match x with
  | Some a => Ok a
  | None => TypeError
  end.

(** [x | 0]: ToInt32, the wrap-around into the signed 32-bit range. *)
Definition toInt32 (z : Z) : Z := (z + 2 ^ 31) `mod` 2 ^ 32 - 2 ^ 31.

(** [a % b] on integers truncates towards zero, as [Z.rem] does. For
    [b = 0] JavaScript yields [NaN] where [Z.rem] yields [a]; the engine
    divides by zero only when [lanes = 0], to fill a [lane] field. *)
Definition rem (a b : Z) : Z := Z.rem a b.

(** [a[i]] on an array with holes. A negative [i] names a property the
    engine never sets. *)
Definition aget {A : Type} (a : list (option A)) (i : Z) : option A :=
  if decide (0 ≤ i) then mjoin (a !! Z.to_nat i) else None.

(** [a[i] = v]: inside the array the slot is overwritten; past the end
    the array grows, and the positions skipped become holes. *)
Definition aset {A : Type} (a : list (option A)) (i : nat) (v : A)
  : list (option A) :=
  if decide (i < length a)%nat then <[i := Some v]> a
  else a ++ replicate (i - length a) None ++ [Some v].

(** [a[i] = v] for an arbitrary integer [i]: a negative [i] sets a plain
    property, which no array method sees. *)
Definition asetZ {A : Type} (a : list (option A)) (i : Z) (v : A)
  : list (option A) :=
  if decide (0 ≤ i) then aset a (Z.to_nat i) v else a.

(** [a.some(p)]: holes are skipped. *)
Definition some {A : Type} (p : A → bool) (a : list (option A)) : bool :=
  existsb (λ x, from_option p false x) a.

(** [Array(n).fill(v)]. *)
Definition filled {A : Type} (n : Z) (v : A) : list (option A) :=
  replicate (Z.to_nat n) (Some v).

(** [a.slice(0, n)]. *)
Definition slice0 {A : Type} (a : list (option A)) (n : nat)
  : list (option A) := take n a.

(** A number that is an integer or an integer and a half, held as its
    double: [Halves n] is [n / 2]. Out of integers the engine makes one
    fraction only, the half of [(itemSize - size) / 2] in
    [getOffsetForAlignment]; the offsets that can carry it have this type,
    every other quantity is a [Z]. *)
Record number := Halves { twice : Z }.

(** An integer as such a number. *)
Definition whole (z : Z) : number := Halves (2 * z).
Coercion whole : Z >-> number.

(** [Math.min(a, b)] and [Math.max(a, b)]. *)
Definition Math_min (a b : number) : number :=
  Halves (Z.min (twice a) (twice b)).

Definition Math_max (a b : number) : number :=
  Halves (Z.max (twice a) (twice b)).

Arguments whole : simpl never.
Arguments Math_min : simpl never.
Arguments Math_max : simpl never.

End Js.

Import Js.

#[global] Instance outcome_bind : MBind outcome := λ A B k m, Js.bind m k.

(** [a.sort(cmp)]: the sort is stable; [cmp x y <= 0] keeps [x] in front. *)
Fixpoint insertBy {A : Type} (cmp : A → A → Z) (x : A) (l : list A) : list A :=
  match l with
  | [] => [x]
  | y :: l' =>
      if decide (cmp x y ≤ 0) then x :: y :: l' else y :: insertBy cmp x l'
  end.

Definition sortBy {A : Type} (cmp : A → A → Z) (l : list A) : list A :=
  foldr (insertBy cmp) [] l.

(** A [Map] keeps its entries in insertion order; [set] on a key that is
    present replaces the value where it stands. *)
Fixpoint mapSet {K A : Type} `{EqDecision K} (m : list (K * A)) (k : K) (v : A)
  : list (K * A) :=
  match m with
  | [] => [(k, v)]
  | (k', v') :: m' =>
      if decide (k' = k) then (k, v) :: m' else (k', v') :: mapSet m' k v
  end.

Fixpoint mapGet {K A : Type} `{EqDecision K} (m : list (K * A)) (k : K)
  : option A :=
  match m with
  | [] => None
  | (k', v') :: m' => if decide (k' = k) then Some v' else mapGet m' k
  end.

(** ** [utils.ts]: [memo] *)

Module Memo.
Section memo.

Context {D R : Type}.

(** [a !== b] on two dependencies. *)
Variable strictNe : D → D → bool.

(** The compute function, [fn(...deps)]. *)
Variable fn : list D → R.

(** The closure variables [deps] and [result]. *)
Record state := State { deps : list D; result : option R }.

(** What a call does besides returning: running [fn], calling
    [opts.onChange]. The timing output of the debug mode is left out. *)
Inductive event :=
  | Computed (args : list D)
  | Changed (r : R).

(** [let deps = opts.initialDeps ?? []; let result]. *)
Definition memo (initialDeps : option (list D)) : state :=
  State (default [] initialDeps) None.

(** [newDeps.length !== deps.length ||
     newDeps.some((dep, index) => deps[index] !== dep)]; the right operand
    is evaluated on tuples of one length only. *)
Definition depsChanged (newDeps deps0 : list D) : bool :=
  negb (bool_decide (length newDeps = length deps0))
  || existsb (λ p, strictNe (snd p) (fst p)) (zip newDeps deps0).

(** One call of the memoized function, [newDeps] being what [getDeps()]
    returned; [hasOnChange] tells whether [opts.onChange] is set. The value
    returned is [None] for [undefined]. *)
Definition memoizedFunction (hasOnChange : bool) (st : state)
    (newDeps : list D) : option R * state * list event :=
  if negb (depsChanged newDeps (deps st)) then (result st, st, [])
  else
    let r := fn newDeps in
    (Some r, State newDeps (Some r),
     Computed newDeps :: (if hasOnChange then [Changed r] else [])).

(** [memoizedFunction.updateDeps]. *)
Definition updateDeps (st : state) (newDeps : list D) : state :=
  State newDeps (result st).

(** Successive calls, the state threaded through. *)
Fixpoint calls (hasOnChange : bool) (st : state) (tuples : list (list D))
  : list (option R) * state * list event :=
  match tuples with
  | [] => ([], st, [])
  | newDeps :: tuples' =>
      let '(r, st1, ev1) := memoizedFunction hasOnChange st newDeps in
      let '(rs, st2, ev2) := calls hasOnChange st1 tuples' in
      (r :: rs, st2, ev1 ++ ev2)
  end.

End memo.
End Memo.

(** ** [index.ts]: the data model *)

(** [type Key = number | string | bigint]. *)
Inductive Key :=
  | KNumber (n : Z)
  | KString (s : string)
  | KBigInt (n : Z).

#[global] Instance Key_eq_dec : EqDecision Key.
Proof. solve_decision. Defined.

#[global] Instance Key_countable : Countable Key.
Proof.
  refine (inj_countable'
    (λ k, match k with
          | KNumber n => inl n
          | KString s => inr (inl s)
          | KBigInt n => inr (inr n)
          end)
    (λ x, match x with
          | inl n => KNumber n
          | inr (inl s) => KString s
          | inr (inr n) => KBigInt n
          end) _).
  by intros [].
Defined.

Inductive ScrollAlignment := AlignStart | AlignCenter | AlignEnd | AlignAuto.

Inductive ScrollBehavior := BehaviorAuto | BehaviorSmooth.

#[global] Instance ScrollAlignment_eq_dec : EqDecision ScrollAlignment.
Proof. solve_decision. Defined.

#[global] Instance ScrollBehavior_eq_dec : EqDecision ScrollBehavior.
Proof. solve_decision. Defined.

Module Range.
Record t := mk { startIndex : Z; endIndex : Z; overscan : Z; count : Z }.
End Range.

Module VirtualItem.
Record t := mk {
  key : Key;
  index : nat;
  start : Z;
  end_ : Z;
  size : Z;
  lane : Z
}.
End VirtualItem.

Module Rect.
Record t := mk { width : Z; height : Z }.
End Rect.

(** The [{ startIndex, endIndex }] object of the range calculator. *)
Module Visible.
Record t := mk { startIndex : Z; endIndex : Z }.
End Visible.

Definition defaultKeyExtractor (index : nat) : Key := KNumber (Z.of_nat index).

(** ** The render-window extractor ([defaultRangeExtractor]) *)

(** [for (let i = start; i <= end; i++) arr.push(i)], [n] bounding the
    number of rounds. *)
Fixpoint pushIndexes (n : nat) (i end_ : Z) (arr : list Z) : list Z :=
  match n with
  | O => arr
  | S n' => if decide (i ≤ end_) then pushIndexes n' (i + 1) end_ (arr ++ [i])
            else arr
  end.

Definition defaultRangeExtractor (range : Range.t) : list Z :=
  let start := Z.max (Range.startIndex range - Range.overscan range) 0 in
  let end_ := Z.min (Range.endIndex range + Range.overscan range)
                    (Range.count range - 1) in
  pushIndexes (Z.to_nat (end_ - start + 1)) start end_ [].

(** ** Binary search ([findNearestBinarySearch]) *)

Fixpoint findNearestBinarySearch (fuel : nat) (low high : Z)
    (getCurrentValue : Z → outcome Z) (value : Z) : outcome Z :=
  if decide (low ≤ high) then
    match fuel with
    | O => OutOfFuel
    | S fuel' =>
        let middle := toInt32 ((low + high) `quot` 2) in
        currentValue ← getCurrentValue middle;
        if decide (currentValue < value) then
          findNearestBinarySearch fuel' (middle + 1) high getCurrentValue value
        else if decide (currentValue > value) then
          findNearestBinarySearch fuel' low (middle - 1) getCurrentValue value
        else Ok middle
    end
  else if decide (low > 0) then Ok (low - 1) else Ok 0.

(** The getter a caller passes, [(index) => values[index]], over a plain
    sequence of numbers; a read past either end is a read on [undefined]. *)
Definition valueAt (values : list Z) (i : Z) : outcome Z :=
  if decide (0 ≤ i) then deref (values !! Z.to_nat i) else TypeError.

(** ** The range calculator ([calculateRange]) *)

(** [(index) => measurements[index]!.start]. *)
Definition getOffset (measurements : list (option VirtualItem.t)) (index : Z)
  : outcome Z :=
  item ← deref (aget measurements index);
  Ok (VirtualItem.start item).

(** [while (endIndex < lastIndex &&
            measurements[endIndex]!.end < scrollOffset + outerSize) endIndex++] *)
Fixpoint expandEnd (fuel : nat) (measurements : list (option VirtualItem.t))
    (lastIndex limit endIndex : Z) : outcome Z :=
  if decide (endIndex < lastIndex) then
    item ← deref (aget measurements endIndex);
    if decide (VirtualItem.end_ item < limit) then
      match fuel with
      | O => OutOfFuel
      | S fuel' => expandEnd fuel' measurements lastIndex limit (endIndex + 1)
      end
    else Ok endIndex
  else Ok endIndex.

(** The forward expansion over several lanes. *)
Fixpoint expandEndLanes (fuel : nat) (measurements : list (option VirtualItem.t))
    (lastIndex limit : Z) (endPerLane : list (option Z)) (endIndex : Z)
  : outcome Z :=
  if bool_decide (endIndex < lastIndex)
     && some (λ pos, bool_decide (pos < limit)) endPerLane then
    item ← deref (aget measurements endIndex);
    match fuel with
    | O => OutOfFuel
    | S fuel' =>
        expandEndLanes fuel' measurements lastIndex limit
          (asetZ endPerLane (VirtualItem.lane item) (VirtualItem.end_ item))
          (endIndex + 1)
    end
  else Ok endIndex.

(** The backward expansion over several lanes. *)
Fixpoint expandStartLanes (fuel : nat)
    (measurements : list (option VirtualItem.t)) (scrollOffset : Z)
    (startPerLane : list (option Z)) (startIndex : Z) : outcome Z :=
  if bool_decide (startIndex >= 0)
     && some (λ pos, bool_decide (pos >= scrollOffset)) startPerLane then
    item ← deref (aget measurements startIndex);
    match fuel with
    | O => OutOfFuel
    | S fuel' =>
        expandStartLanes fuel' measurements scrollOffset
          (asetZ startPerLane (VirtualItem.lane item) (VirtualItem.start item))
          (startIndex - 1)
    end
  else Ok startIndex.

Definition calculateRange (fuel : nat)
    (measurements : list (option VirtualItem.t))
    (outerSize scrollOffset lanes : Z) : outcome Visible.t :=
  let lastIndex := Z.of_nat (length measurements) - 1 in
  if decide (Z.of_nat (length measurements) ≤ lanes) then
    Ok (Visible.mk 0 lastIndex)
  else
    startIndex ← findNearestBinarySearch fuel 0 lastIndex
                   (getOffset measurements) scrollOffset;
    if decide (lanes = 1) then
      endIndex ← expandEnd fuel measurements lastIndex
                   (scrollOffset + outerSize) startIndex;
      Ok (Visible.mk startIndex endIndex)
    else if decide (lanes > 1) then
      endIndex ← expandEndLanes fuel measurements lastIndex
                   (scrollOffset + outerSize) (filled lanes 0) startIndex;
      startIndex' ← expandStartLanes fuel measurements scrollOffset
                      (filled lanes (scrollOffset + outerSize)) startIndex;
      Ok (Visible.mk
            (Z.max 0 (startIndex' - rem startIndex' lanes))
            (Z.min lastIndex (endIndex + (lanes - 1 - rem endIndex lanes))))
    else Ok (Visible.mk startIndex startIndex).

(** ** The [Virtualizer] class *)

Module ScrollElement.
(** The scroll container, as far as the engine reads it: its scrollable
    content size along either axis (for a window, that of its document
    element). *)
Record t := mk { scrollWidth : Z; scrollHeight : Z }.
End ScrollElement.

Module Options.
Record t := mk {
  count : Z;
  estimateSize : nat → Z;
  overscan : Z;
  horizontal : bool;
  paddingStart : Z;
  paddingEnd : Z;
  scrollPaddingStart : Z;
  scrollPaddingEnd : Z;
  initialOffset : Z;
  getItemKey : nat → Key;
  initialRect : Rect.t;
  scrollMargin : Z;
  gap : Z;
  initialMeasurementsCache : list VirtualItem.t;
  lanes : Z;
  enabled : bool
}.
End Options.

(** The object the memoized [getMeasurementOptions] hands to
    [getMeasurements]. *)
Module MeasurementOptions.
Record t := mk {
  count : Z;
  paddingStart : Z;
  scrollMargin : Z;
  getItemKey : nat → Key;
  enabled : bool
}.
End MeasurementOptions.

Module Virtualizer.

(** The fields of an instance that the modelled methods read or write. The
    elements of [elementsCache] are DOM nodes; only its keys are kept. *)
Record t := mk {
  options : Options.t;
  scrollElement : option ScrollElement.t;
  targetWindow : bool;
  scrollToIndexTimeoutId : option nat;
  measurementsCache : list (option VirtualItem.t);
  itemSizeCache : gmap Key Z;
  pendingMeasuredCacheIndexes : list nat;
  scrollRect : option Rect.t;
  scrollOffset : option Z;
  scrollAdjustments : Z;
  elementsCache : gset Key;
  range : option Visible.t
}.

(** Calls that leave the instance: the scroll executor
    [options.scrollToFn(offset, { behavior, adjustments }, this)], the change
    notification [options.onChange(this, sync)] and
    [targetWindow.clearTimeout(id)]. Console output is not recorded. *)
Inductive effect :=
  | ScrollToFn (offset : number) (adjustments : option Z)
               (behavior : option ScrollBehavior)
  | OnChange (sync : bool)
  | ClearTimeout (id : nat).

Definition set_scrollToIndexTimeoutId (v : option nat) (s : t) : t :=
  mk (options s) (scrollElement s) (targetWindow s) v (measurementsCache s)
     (itemSizeCache s) (pendingMeasuredCacheIndexes s) (scrollRect s)
     (scrollOffset s) (scrollAdjustments s) (elementsCache s) (range s).

Definition set_measurementsCache (v : list (option VirtualItem.t)) (s : t) : t :=
  mk (options s) (scrollElement s) (targetWindow s) (scrollToIndexTimeoutId s)
     v (itemSizeCache s) (pendingMeasuredCacheIndexes s) (scrollRect s)
     (scrollOffset s) (scrollAdjustments s) (elementsCache s) (range s).

Definition set_itemSizeCache (v : gmap Key Z) (s : t) : t :=
  mk (options s) (scrollElement s) (targetWindow s) (scrollToIndexTimeoutId s)
     (measurementsCache s) v (pendingMeasuredCacheIndexes s) (scrollRect s)
     (scrollOffset s) (scrollAdjustments s) (elementsCache s) (range s).

Definition set_pendingMeasuredCacheIndexes (v : list nat) (s : t) : t :=
  mk (options s) (scrollElement s) (targetWindow s) (scrollToIndexTimeoutId s)
     (measurementsCache s) (itemSizeCache s) v (scrollRect s)
     (scrollOffset s) (scrollAdjustments s) (elementsCache s) (range s).

Definition set_scrollRect (v : option Rect.t) (s : t) : t :=
  mk (options s) (scrollElement s) (targetWindow s) (scrollToIndexTimeoutId s)
     (measurementsCache s) (itemSizeCache s) (pendingMeasuredCacheIndexes s) v
     (scrollOffset s) (scrollAdjustments s) (elementsCache s) (range s).

Definition set_scrollOffset (v : option Z) (s : t) : t :=
  mk (options s) (scrollElement s) (targetWindow s) (scrollToIndexTimeoutId s)
     (measurementsCache s) (itemSizeCache s) (pendingMeasuredCacheIndexes s)
     (scrollRect s) v (scrollAdjustments s) (elementsCache s) (range s).

Definition set_scrollAdjustments (v : Z) (s : t) : t :=
  mk (options s) (scrollElement s) (targetWindow s) (scrollToIndexTimeoutId s)
     (measurementsCache s) (itemSizeCache s) (pendingMeasuredCacheIndexes s)
     (scrollRect s) (scrollOffset s) v (elementsCache s) (range s).

Definition set_range (v : option Visible.t) (s : t) : t :=
  mk (options s) (scrollElement s) (targetWindow s) (scrollToIndexTimeoutId s)
     (measurementsCache s) (itemSizeCache s) (pendingMeasuredCacheIndexes s)
     (scrollRect s) (scrollOffset s) (scrollAdjustments s) (elementsCache s) v.

(** [getSize]: the viewport size along the active axis; the first call
    settles [scrollRect] on [initialRect]. *)
Definition getSize (s : t) : Z * t :=
  if negb (Options.enabled (options s)) then (0, set_scrollRect None s)
  else
    let rect := default (Options.initialRect (options s)) (scrollRect s) in
    (if Options.horizontal (options s) then Rect.width rect
     else Rect.height rect,
     set_scrollRect (Some rect) s).

(** [getScrollOffset]: the current offset; the first call settles
    [scrollOffset] on [initialOffset]. *)
Definition getScrollOffset (s : t) : Z * t :=
  if negb (Options.enabled (options s)) then (0, set_scrollOffset None s)
  else
    let offset := default (Options.initialOffset (options s)) (scrollOffset s) in
    (offset, set_scrollOffset (Some offset) s).

(** The comparison [getFurthestMeasurement] sorts its candidates with. *)
Definition compareFurthest (a b : VirtualItem.t) : Z :=
  if decide (VirtualItem.end_ a = VirtualItem.end_ b) then
    Z.of_nat (VirtualItem.index a) - Z.of_nat (VirtualItem.index b)
  else VirtualItem.end_ a - VirtualItem.end_ b.

(** [for (let m = index - 1; m >= 0; m--)] of [getFurthestMeasurement];
    [n] is [m + 1]. *)
Fixpoint furthestLoop (lanes : Z) (measurements : list (option VirtualItem.t))
    (n : nat) (furthestMeasurementsFound : gset Z)
    (furthestMeasurements : list (Z * VirtualItem.t))
  : outcome (list (Z * VirtualItem.t)) :=
  match n with
  | O => Ok furthestMeasurements
  | S m =>
      measurement ← deref (aget measurements (Z.of_nat m));
      let lane := VirtualItem.lane measurement in
      if decide (lane ∈ furthestMeasurementsFound) then
        furthestLoop lanes measurements m furthestMeasurementsFound
          furthestMeasurements
      else
        let '(found, furthest) :=
          match mapGet furthestMeasurements lane with
          | None =>
              (furthestMeasurementsFound,
               mapSet furthestMeasurements lane measurement)
          | Some previousFurthestMeasurement =>
              if decide (VirtualItem.end_ measurement
                         > VirtualItem.end_ previousFurthestMeasurement) then
                (furthestMeasurementsFound,
                 mapSet furthestMeasurements lane measurement)
              else if decide (VirtualItem.end_ measurement
                              < VirtualItem.end_ previousFurthestMeasurement)
              then ({[lane]} ∪ furthestMeasurementsFound, furthestMeasurements)
              else (furthestMeasurementsFound, furthestMeasurements)
          end in
        if decide (Z.of_nat (size found) = lanes) then Ok furthest
        else furthestLoop lanes measurements m found furthest
  end.

Definition getFurthestMeasurement (lanes : Z)
    (measurements : list (option VirtualItem.t)) (index : nat)
  : outcome (option VirtualItem.t) :=
  furthestMeasurements ← furthestLoop lanes measurements index ∅ [];
  if decide (Z.of_nat (length furthestMeasurements) = lanes) then
    Ok (head (sortBy compareFurthest (snd <$> furthestMeasurements)))
  else Ok None.

(** The body of the [for] loop of [getMeasurements] at index [i]. The
    [itemSizeCache] argument of the compute function is the very [Map] held
    in [this.itemSizeCache] (the dependency getter reads that field right
    before the call), so one store stands for both. *)
Definition measureItem (mo : MeasurementOptions.t) (s : t)
    (measurements : list (option VirtualItem.t)) (i : nat)
  : outcome VirtualItem.t :=
  let key := MeasurementOptions.getItemKey mo i in
  furthestMeasurement ←
    (if decide (Options.lanes (options s) = 1) then
       Ok (aget measurements (Z.of_nat i - 1))
     else getFurthestMeasurement (Options.lanes (options s)) measurements i);
  let start :=
    match furthestMeasurement with
    | Some f => VirtualItem.end_ f + Options.gap (options s)
    | None => MeasurementOptions.paddingStart mo
              + MeasurementOptions.scrollMargin mo
    end in
  let size :=
    match itemSizeCache s !! key with
    | Some measuredSize => measuredSize
    | None => Options.estimateSize (options s) i
    end in
  let end_ := start + size in
  let lane :=
    match furthestMeasurement with
    | Some f => VirtualItem.lane f
    | None => rem (Z.of_nat i) (Options.lanes (options s))
    end in
  Ok (VirtualItem.mk key i start end_ size lane).

(** [for (let i = min; i < count; i++) measurements[i] = ...]; [n] is the
    number of rounds left, [count - i]. *)
Fixpoint measureLoop (mo : MeasurementOptions.t) (s : t) (n : nat) (i : nat)
    (measurements : list (option VirtualItem.t))
  : outcome (list (option VirtualItem.t)) :=
  match n with
  | O => Ok measurements
  | S n' =>
      item ← measureItem mo s measurements i;
      measureLoop mo s n' (S i) (aset measurements i item)
  end.

(** [if (this.measurementsCache.length === 0)]: the cache starts from
    [initialMeasurementsCache], whose sizes enter the size map. *)
Definition loadInitialMeasurements (s : t) : t :=
  if decide (length (measurementsCache s) = 0%nat) then
    let initial := Options.initialMeasurementsCache (options s) in
    set_itemSizeCache
      (foldl (λ m item, <[VirtualItem.key item := VirtualItem.size item]> m)
             (itemSizeCache s) initial)
      (set_measurementsCache (Some <$> initial) s)
  else s.

(** [pending.length > 0 ? Math.min(...pending) : 0]. *)
Definition minPending (pending : list nat) : nat :=
  match pending with
  | [] => 0%nat
  | p :: ps => foldr Nat.min p ps
  end.

(** The compute function of the memoized [getMeasurements]. *)
Definition getMeasurements (mo : MeasurementOptions.t) (s : t)
  : outcome (list (option VirtualItem.t) * t) :=
  if negb (MeasurementOptions.enabled mo) then
    Ok ([], set_itemSizeCache ∅ (set_measurementsCache [] s))
  else
    let s1 := loadInitialMeasurements s in
    let min := minPending (pendingMeasuredCacheIndexes s1) in
    let s2 := set_pendingMeasuredCacheIndexes [] s1 in
    let measurements := slice0 (measurementsCache s2) min in
    measurements' ←
      measureLoop mo s2
        (Z.to_nat (MeasurementOptions.count mo - Z.of_nat min)) min
        measurements;
    Ok (measurements', set_measurementsCache measurements' s2).

(** The compute function of the memoized [calculateRange] method. *)
Definition calculateRange (fuel : nat)
    (measurements : list (option VirtualItem.t))
    (outerSize scrollOffset lanes : Z) (s : t) : outcome (option Visible.t * t) :=
  if bool_decide (0 < length measurements)%nat && bool_decide (outerSize > 0)
  then
    r ← calculateRange fuel measurements outerSize scrollOffset lanes;
    Ok (Some r, set_range (Some r) s)
  else Ok (None, set_range None s).

(** The compute function of the memoized [getVirtualIndexes]. *)
Definition getVirtualIndexes (rangeExtractor : Range.t → list Z)
    (overscan count : Z) (startIndex endIndex : option Z) : list Z :=
  match startIndex, endIndex with
  | Some startIndex, Some endIndex =>
      rangeExtractor (Range.mk startIndex endIndex overscan count)
  | _, _ => []
  end.

(** [_scrollToOffset]: the request goes to the scroll executor. *)
Definition _scrollToOffset (offset : number) (adjustments : option Z)
    (behavior : option ScrollBehavior) : list effect :=
  [ScrollToFn offset adjustments behavior].

(** [resizeItem]. [shouldAdjust] is the field
    [shouldAdjustScrollPositionOnItemSizeChange]. *)
Definition resizeItem (shouldAdjust : option (VirtualItem.t → Z → t → bool))
    (index : Z) (size : Z) (s : t) : t * list effect :=
  match aget (measurementsCache s) index with
  | None => (s, [])
  | Some item =>
      let itemSize :=
        default (VirtualItem.size item)
                (itemSizeCache s !! VirtualItem.key item) in
      let delta := size - itemSize in
      if decide (delta ≠ 0) then
        let '(adjust, s1) :=
          match shouldAdjust with
          | Some f => (f item delta s, s)
          | None =>
              let '(offset, s') := getScrollOffset s in
              (bool_decide (VirtualItem.start item
                            < offset + scrollAdjustments s'), s')
          end in
        let '(s2, requests) :=
          if adjust then
            let '(offset, s') := getScrollOffset s1 in
            let adjustments := scrollAdjustments s' + delta in
            (set_scrollAdjustments adjustments s',
             _scrollToOffset offset (Some adjustments) None)
          else (s1, []) in
        let s3 :=
          set_pendingMeasuredCacheIndexes
            (pendingMeasuredCacheIndexes s2 ++ [VirtualItem.index item]) s2 in
        let s4 :=
          set_itemSizeCache
            (<[VirtualItem.key item := size]> (itemSizeCache s3)) s3 in
        (s4, requests ++ [OnChange false])
      else (s, [])
  end.

(** [measure]. *)
Definition measure (s : t) : t * list effect :=
  (set_itemSizeCache ∅ s, [OnChange false]).

(** [getOffsetForAlignment]: the alignment rule. For ['center'] the target
    [toOffset + (itemSize - size) / 2] keeps its half pixel: its double is
    [2 * toOffset + (itemSize - size)]. *)
Definition getOffsetForAlignment (toOffset : Z) (align : ScrollAlignment)
    (itemSize : Z) (s : t) : number * t :=
  let '(size, s1) := getSize s in
  let '(scrollOffset, s2) := getScrollOffset s1 in
  let align :=
    if decide (align = AlignAuto) then
      if decide (toOffset >= scrollOffset + size) then AlignEnd else AlignStart
    else align in
  let toOffset : number :=
    match align with
    | AlignCenter => Halves (2 * toOffset + (itemSize - size))
    | AlignEnd => whole (toOffset - size)
    | _ => whole toOffset
    end in
  let scrollSize :=
    match scrollElement s2 with
    | Some element =>
        if Options.horizontal (options s2) then ScrollElement.scrollWidth element
        else ScrollElement.scrollHeight element
    | None => 0
    end in
  let maxOffset := scrollSize - size in
  (Math_max (Math_min (whole maxOffset) toOffset) (whole 0), s2).

(** [getOffsetForIndex]; [None] is [undefined]. *)
Definition getOffsetForIndex (index : Z) (align : ScrollAlignment) (s : t)
  : option (number * ScrollAlignment) * t :=
  let index := Z.max 0 (Z.min index (Options.count (options s) - 1)) in
  match aget (measurementsCache s) index with
  | None => (None, s)
  | Some item =>
      let '(size, s1) := getSize s in
      let '(scrollOffset, s2) := getScrollOffset s1 in
      let resolved :=
        if decide (align = AlignAuto) then
          if decide (VirtualItem.end_ item
                     >= scrollOffset + size
                        - Options.scrollPaddingEnd (options s2)) then
            Some AlignEnd
          else if decide (VirtualItem.start item
                          <= scrollOffset
                             + Options.scrollPaddingStart (options s2)) then
            Some AlignStart
          else None
        else Some align in
      match resolved with
      | None => (Some (whole scrollOffset, align), s2)
      | Some align =>
          let toOffset :=
            if decide (align = AlignEnd) then
              VirtualItem.end_ item + Options.scrollPaddingEnd (options s2)
            else
              VirtualItem.start item - Options.scrollPaddingStart (options s2) in
          let '(offset, s3) :=
            getOffsetForAlignment toOffset align (VirtualItem.size item) s2 in
          (Some (offset, align), s3)
      end
  end.

Definition isDynamicMode (s : t) : bool :=
  bool_decide (0 < size (elementsCache s))%nat.

Definition cancelScrollToIndex (s : t) : t * list effect :=
  match scrollToIndexTimeoutId s with
  | Some id =>
      if targetWindow s then
        (set_scrollToIndexTimeoutId None s, [ClearTimeout id])
      else (s, [])
  | None => (s, [])
  end.

(** [scrollToOffset(toOffset, { align = 'start', behavior })]; an option
    left out of the call is [None]. *)
Definition scrollToOffset (toOffset : Z) (align : option ScrollAlignment)
    (behavior : option ScrollBehavior) (s : t) : t * list effect :=
  let align := default AlignStart align in
  let '(s1, cancelled) := cancelScrollToIndex s in
  let '(offset, s2) := getOffsetForAlignment toOffset align 0 s1 in
  (s2, cancelled ++ _scrollToOffset offset None behavior).

(** [scrollBy(delta, { behavior })]. *)
Definition scrollBy (delta : Z) (behavior : option ScrollBehavior) (s : t)
  : t * list effect :=
  let '(s1, cancelled) := cancelScrollToIndex s in
  let '(offset, s2) := getScrollOffset s1 in
  (s2, cancelled ++ _scrollToOffset (offset + delta) None behavior).

End Virtualizer.

(** ** Predicates the statements below are phrased with *)

(** [idx] is the highest index of [values] whose value is at most [value]. *)
Definition floor_index (values : list Z) (value idx : Z) : Prop :=
  0 ≤ idx ∧
  (∃ v, values !! Z.to_nat idx = Some v ∧ v ≤ value) ∧
  ∀ (j : nat) w, values !! j = Some w → w ≤ value → Z.of_nat j ≤ idx.

(** Ascending order, equal neighbours allowed. *)
Definition ascending (values : list Z) : Prop :=
  ∀ (i j : nat) v w,
    values !! i = Some v → values !! j = Some w → (i ≤ j)%nat → v ≤ w.

(** The invariant of the data model on one item. *)
Definition item_ok (item : VirtualItem.t) : Prop :=
  VirtualItem.end_ item = VirtualItem.start item + VirtualItem.size item.

(** An array without holes. *)
Definition dense {A : Type} (a : list (option A)) : Prop :=
  ∀ i : nat, (i < length a)%nat → is_Some (aget a (Z.of_nat i)).

(** Item [i] of [a] starts where its predecessor ends, [gap] further. *)
Definition chained (gap : Z) (a : list (option VirtualItem.t)) (i : nat) : Prop :=
  ∀ item, aget a (Z.of_nat i) = Some item →
    ∃ previous,
      aget a (Z.of_nat i - 1) = Some previous
      ∧ VirtualItem.start item = VirtualItem.end_ previous + gap.

(** The invariant of an instance on its measurement cache: no holes, every
    item at the position its [index] names, every dirty index inside the
    cache. *)
Definition cache_wf (s : Virtualizer.t) : Prop :=
  dense (Virtualizer.measurementsCache s)
  ∧ (∀ (i : nat) item,
       aget (Virtualizer.measurementsCache s) (Z.of_nat i) = Some item →
       VirtualItem.index item = i)
  ∧ (∀ p, p ∈ Virtualizer.pendingMeasuredCacheIndexes s →
       (p < length (Virtualizer.measurementsCache s))%nat).

(** ** Instances the statements are tried on *)

Module Sample.

(** A thousand rows of 50px in a viewport of 500px, every option at its
    default. *)
Definition options : Options.t :=
  Options.mk 1000 (λ _, 50) 1 false 0 0 0 0 0 defaultKeyExtractor
             (Rect.mk 0 500) 0 0 [] 1 true.

Definition measurementOptions (o : Options.t) : MeasurementOptions.t :=
  MeasurementOptions.mk (Options.count o) (Options.paddingStart o)
    (Options.scrollMargin o) (Options.getItemKey o) (Options.enabled o).

(** The instance right after construction. *)
Definition fresh (o : Options.t) : Virtualizer.t :=
  Virtualizer.mk o None false None [] ∅ [] None None 0 ∅ None.

Definition row (i : nat) : VirtualItem.t :=
  VirtualItem.mk (KNumber (Z.of_nat i)) i (50 * Z.of_nat i)
                 (50 * Z.of_nat i + 50) 50 0.

Definition rows (n : nat) : list (option VirtualItem.t) :=
  Some <$> (row <$> seq 0 n).

(** The same rows measured and attached to a container of 50000px, scrolled
    to [offset]. *)
Definition scrolled (offset : Z) : Virtualizer.t :=
  Virtualizer.mk options (Some (ScrollElement.mk 500 50000)) true None
                 (rows 1000) ∅ [] (Some (Rect.mk 0 500)) (Some offset) 0 ∅ None.

(** Five rows of 50px, 4px apart. *)
Definition gapped : Options.t :=
  Options.mk 5 (λ _, 50) 1 false 0 0 0 0 0 defaultKeyExtractor
             (Rect.mk 0 500) 0 4 [] 1 true.

(** Two lanes, for the brick layout. *)
Definition twoLanes : Options.t :=
  Options.mk 4 (λ _, 50) 1 false 0 0 0 0 0 defaultKeyExtractor
             (Rect.mk 0 500) 0 0 [] 2 true.

End Sample.

(** ** More of the engine *)

(** No element of [tuple] differs from itself under [!==] (none is [NaN]). *)
Definition self_identical {D : Type} (strictNe : D → D → bool)
    (tuple : list D) : Prop :=
  ∀ x, x ∈ tuple → strictNe x x = false.

(** The [!==] of the samples: numbers, with [None] for [null]. *)
Definition sampleNe (a b : option Z) : bool := negb (bool_decide (a = b)).

(** The items lie one after the other: an item ends before any later item
    starts, and no item ends before it starts. *)
Definition laid_out (a : list (option VirtualItem.t)) : Prop :=
  (∀ (i j : nat) x y,
     aget a (Z.of_nat i) = Some x → aget a (Z.of_nat j) = Some y →
     (i < j)%nat → VirtualItem.end_ x ≤ VirtualItem.start y)
  ∧ (∀ (i : nat) x,
       aget a (Z.of_nat i) = Some x →
       VirtualItem.start x ≤ VirtualItem.end_ x).

(** No size is negative: neither an estimate nor a measured size. *)
Definition sizes_nonneg (s : Virtualizer.t) : Prop :=
  (∀ i, 0 ≤ Options.estimateSize (Virtualizer.options s) i)
  ∧ (∀ k v, Virtualizer.itemSizeCache s !! k = Some v → 0 ≤ v).

(** The cache is up to date: nothing is dirty, and every item is the one
    the measuring step computes at its index from the cache as it stands. *)
Definition settled (mo : MeasurementOptions.t) (s : Virtualizer.t) : Prop :=
  Virtualizer.pendingMeasuredCacheIndexes s = []
  ∧ ∀ (j : nat) item,
      aget (Virtualizer.measurementsCache s) (Z.of_nat j) = Some item →
      Virtualizer.measureItem mo s (Virtualizer.measurementsCache s) j
      = Ok item.

(** The instance of [Sample.gapped] once its five rows are measured. *)
Definition measuredGapped : Virtualizer.t :=
  match Virtualizer.getMeasurements
          (Sample.measurementOptions Sample.gapped)
          (Sample.fresh Sample.gapped) with
  | Ok (_, s') => s'
  | _ => Sample.fresh Sample.gapped
  end.

(** The same instance scrolled to [offset]. *)
Definition scrolledGapped (offset : Z) : Virtualizer.t :=
  Virtualizer.set_scrollOffset (Some offset) measuredGapped.

(** [approxEqual]: a distance below 1, which is a distance below 2 between
    the doubles. *)
Definition approxEqual (a b : number) : bool :=
  bool_decide (Z.abs (twice a - twice b) < 2).

(** What a method can throw besides the [TypeError] of a read on
    [undefined]. *)
Inductive exception :=
  | RangeError
  | Error (message : string).

(** [notUndefined(value, msg)]; an empty [msg] counts as none. *)
Definition notUndefined {A : Type} (value : option A) (msg : option string)
  : exception + A :=
  match value with
  | Some v => inr v
  | None =>
      inl (Error ("Unexpected undefined"
                  +:+ match msg with
                      | Some m => if decide (m = "") then "" else ": " +:+ m
                      | None => ""
                      end))
  end.

(** Further methods of the [Virtualizer] class. A method that can throw
    returns [inl] of what it throws. *)
Module Methods.

(** The compute function of the memoized [getVirtualItems]: the
    measurement at each index, in the order of the indexes. *)
Definition getVirtualItems (indexes : list Z)
    (measurements : list (option VirtualItem.t))
  : list (option VirtualItem.t) :=
  (λ i, aget measurements i) <$> indexes.

(** [getVirtualItemForOffset], on the sequence [getMeasurements()] returned.
    The getter handed to the search can only fail with the error of
    [notUndefined]; that failure of the search is handed on as this error. *)
Definition getVirtualItemForOffset (fuel : nat)
    (measurements : list (option VirtualItem.t)) (offset : Z)
  : outcome (exception + option VirtualItem.t) :=
  if decide (length measurements = 0%nat) then Ok (inr None)
  else
    match findNearestBinarySearch fuel 0 (Z.of_nat (length measurements) - 1)
            (λ index,
               match notUndefined (aget measurements index) None with
               | inr item => Ok (VirtualItem.start item)
               | inl _ => TypeError
               end) offset with
    | Ok index =>
        match notUndefined (aget measurements index) None with
        | inr item => Ok (inr (Some item))
        | inl e => Ok (inl e)
        end
    | TypeError => Ok (inl (Error "Unexpected undefined"))
    | OutOfFuel => OutOfFuel
    end.

(** [endByLane[lane]]: [None] for [undefined], [Some None] for [null]. *)
Definition laneSlot (endByLane : list (option Z)) (lane : Z)
  : option (option Z) :=
  if decide (0 ≤ lane) then endByLane !! Z.to_nat lane else None.

(** The [while] loop of [getTotalSize]. *)
Fixpoint lastEnds (fuel : nat) (measurements : list (option VirtualItem.t))
    (endByLane : list (option Z)) (endIndex : Z) : outcome (list (option Z)) :=
  if bool_decide (endIndex >= 0)
     && existsb (λ val, bool_decide (val = None)) endByLane then
    item ← deref (aget measurements endIndex);
    let endByLane' :=
      match laneSlot endByLane (VirtualItem.lane item) with
      | Some None =>
          <[Z.to_nat (VirtualItem.lane item) := Some (VirtualItem.end_ item)]>
            endByLane
      | _ => endByLane
      end in
    match fuel with
    | O => OutOfFuel
    | S fuel' => lastEnds fuel' measurements endByLane' (endIndex - 1)
    end
  else Ok endByLane.

(** [getTotalSize], on the sequence [getMeasurements()] returned.
    [Array(lanes)] throws unless [lanes] is a length; [Math.max()] of no
    number at all is [-Infinity], which the final [Math.max(_, 0)] turns
    into 0. *)
Definition getTotalSize (fuel : nat)
    (measurements : list (option VirtualItem.t)) (s : Virtualizer.t)
  : outcome (exception + Z) :=
  let o := Virtualizer.options s in
  let total (end_ : Z) :=
    Z.max (end_ - Options.scrollMargin o + Options.paddingEnd o) 0 in
  if decide (length measurements = 0%nat) then
    Ok (inr (total (Options.paddingStart o)))
  else if decide (Options.lanes o = 1) then
    Ok (inr (total
               match aget measurements (Z.of_nat (length measurements) - 1) with
               | Some item => VirtualItem.end_ item
               | None => 0
               end))
  else if decide (0 ≤ Options.lanes o < 2 ^ 32) then
    endByLane ← lastEnds fuel measurements
                  (replicate (Z.to_nat (Options.lanes o)) None)
                  (Z.of_nat (length measurements) - 1);
    match omap id endByLane with
    | [] => Ok (inr 0)
    | e :: es => Ok (inr (total (foldr Z.max e es)))
    end
  else Ok (inl RangeError).

(** What [scrollToIndex] does to the outside: the effects of the instance,
    and [targetWindow.setTimeout(callback)], whose callback is told by the
    values it closes over; [id] is the timer the window hands back. *)
Inductive action :=
  | Do (e : Virtualizer.effect)
  | SetTimeout (id : nat) (index : Z) (align : ScrollAlignment)
               (behavior : option ScrollBehavior).

(** [scrollToIndex(index, { align = 'auto', behavior })]. *)
Definition scrollToIndex (id : nat) (index : Z)
    (initialAlign : option ScrollAlignment) (behavior : option ScrollBehavior)
    (s : Virtualizer.t) : Virtualizer.t * list action :=
  let initialAlign := default AlignAuto initialAlign in
  let index :=
    Z.max 0 (Z.min index (Options.count (Virtualizer.options s) - 1)) in
  let '(s1, cancelled) := Virtualizer.cancelScrollToIndex s in
  match Virtualizer.getOffsetForIndex index initialAlign s1 with
  | (None, s2) => (s2, Do <$> cancelled)
  | (Some (offset, align), s2) =>
      let requests := Virtualizer._scrollToOffset offset None behavior in
      if negb (bool_decide (behavior = Some BehaviorSmooth))
         && Virtualizer.isDynamicMode s2 && Virtualizer.targetWindow s2 then
        (Virtualizer.set_scrollToIndexTimeoutId (Some id) s2,
         (Do <$> cancelled ++ requests) ++ [SetTimeout id index align behavior])
      else (s2, Do <$> cancelled ++ requests)
  end.

(** The callback [scrollToIndex] hands to [setTimeout], run on the values
    it closed over; [id] is the timer of a further [setTimeout]. *)
Definition scrollToIndexRetry (id : nat) (index : Z) (align : ScrollAlignment)
    (behavior : option ScrollBehavior) (s : Virtualizer.t)
  : exception + Virtualizer.t * list action :=
  let s0 := Virtualizer.set_scrollToIndexTimeoutId None s in
  let elementInDOM :=
    bool_decide
      (Options.getItemKey (Virtualizer.options s0) (Z.to_nat index)
       ∈ Virtualizer.elementsCache s0) in
  if elementInDOM then
    match Virtualizer.getOffsetForIndex index align s0 with
    | (None, _) => inl (Error "Unexpected undefined")
    | (Some (latestOffset, _), s1) =>
        let '(scrollOffset, s2) := Virtualizer.getScrollOffset s1 in
        if approxEqual latestOffset scrollOffset then inr (s2, [])
        else inr (scrollToIndex id index (Some align) behavior s2)
    end
  else inr (scrollToIndex id index (Some align) behavior s0).

End Methods.

(** The thousand measured rows in their container, scrolled to [offset],
    with the elements of rows 20 and 21 mounted. *)
Definition mountedRows (offset : Z) : Virtualizer.t :=
  Virtualizer.mk Sample.options (Some (ScrollElement.mk 500 50000)) true None
                 (Sample.rows 1000) ∅ [] (Some (Rect.mk 0 500)) (Some offset)
                 0 {[KNumber 20; KNumber 21]} None.

(** Ends rise along each lane: of two items of one lane, the later one
    does not end before the earlier one. *)
Definition lane_ordered (a : list (option VirtualItem.t)) : Prop :=
  ∀ (i j : nat) x y,
    aget a (Z.of_nat i) = Some x → aget a (Z.of_nat j) = Some y →
    (i ≤ j)%nat → VirtualItem.lane x = VirtualItem.lane y →
    VirtualItem.end_ x ≤ VirtualItem.end_ y.

(** What the backward scan of [getFurthestMeasurement] holds once it has
    read the slots from [n] to [index - 1]: candidates under distinct
    lanes; each candidate an item of its lane among the slots read, ending
    no earlier than any item of that lane read; a candidate for the lane of
    every item read, and for every lane that was closed. *)
Definition scanned (measurements : list (option VirtualItem.t))
    (index n : nat) (found : gset Z) (furthest : list (Z * VirtualItem.t))
  : Prop :=
  NoDup (fst <$> furthest)
  ∧ (∀ lane x, (lane, x) ∈ furthest →
       VirtualItem.lane x = lane
       ∧ (∃ m : nat, (n ≤ m < index)%nat
                     ∧ aget measurements (Z.of_nat m) = Some x)
       ∧ ∀ (m : nat) y, (n ≤ m < index)%nat →
           aget measurements (Z.of_nat m) = Some y →
           VirtualItem.lane y = lane →
           VirtualItem.end_ y ≤ VirtualItem.end_ x)
  ∧ (∀ (m : nat) y, (n ≤ m < index)%nat →
       aget measurements (Z.of_nat m) = Some y →
       ∃ x, (VirtualItem.lane y, x) ∈ furthest)
  ∧ (∀ lane, lane ∈ found → ∃ x, (lane, x) ∈ furthest).

(** The lanes are stacks. Every item lies in a lane from 0 to [lanes - 1]
    and does not end before it starts, the first [lanes] items lie each in
    the lane of its own index, and an item starts at least [gap] after the
    end of every earlier item of its lane. *)
Definition stacked (lanes gap : Z) (a : list (option VirtualItem.t)) : Prop :=
  (∀ (j : nat) x, aget a (Z.of_nat j) = Some x →
     0 ≤ VirtualItem.lane x < lanes
     ∧ VirtualItem.start x ≤ VirtualItem.end_ x
     ∧ (Z.of_nat j < lanes → VirtualItem.lane x = Z.of_nat j))
  ∧ (∀ (i j : nat) x y,
       aget a (Z.of_nat i) = Some x → aget a (Z.of_nat j) = Some y →
       (i < j)%nat → VirtualItem.lane x = VirtualItem.lane y →
       VirtualItem.end_ x + gap ≤ VirtualItem.start y).

(** The sequence [getMeasurements] gives for [Sample.twoLanes]. *)
Definition measuredTwoLanes : list (option VirtualItem.t) :=
  match Virtualizer.getMeasurements
          (Sample.measurementOptions Sample.twoLanes)
          (Sample.fresh Sample.twoLanes) with
  | Ok (measurements, _) => measurements
  | _ => []
  end.

(** The compute function of the memoized [getMeasurementOptions], on the
    dependencies its getter reads from [this.options]: the dirty indices
    are dropped, and the five options are handed on. *)
Definition getMeasurementOptions (s : Virtualizer.t)
  : MeasurementOptions.t * Virtualizer.t :=
  let o := Virtualizer.options s in
  (MeasurementOptions.mk (Options.count o) (Options.paddingStart o)
     (Options.scrollMargin o) (Options.getItemKey o) (Options.enabled o),
   Virtualizer.set_pendingMeasuredCacheIndexes [] s).


(** The thousand measured rows in a viewport of 501px, an odd size,
    scrolled to [offset]. *)
Definition oddViewport (offset : Z) : Virtualizer.t :=
  Virtualizer.mk Sample.options (Some (ScrollElement.mk 501 50000)) true None
                 (Sample.rows 1000) ∅ [] (Some (Rect.mk 0 501)) (Some offset)
                 0 ∅ None.

(** * Properties *)

(** ** Arithmetic of the JavaScript fragment *)

Lemma toInt32_small z : - 2 ^ 31 ≤ z < 2 ^ 31 → toInt32 z = z.
Proof.
  intros Hz. unfold toInt32.
  rewrite Z.mod_small; lia.
Qed.

Lemma middle_bounds low high :
  0 ≤ low → low ≤ high → high < 2 ^ 31 →
  low ≤ toInt32 ((low + high) `quot` 2) ≤ high.
Proof.
  intros Hl Hlh Hh.
  assert (Hq : (low + high) `quot` 2 = (low + high) `div` 2)
    by (apply Z.quot_div_nonneg; lia).
  rewrite Hq.
  assert (low ≤ (low + high) `div` 2 ≤ high).
  { split.
    - apply Z.div_le_lower_bound; lia.
    - apply Z.div_le_upper_bound; lia. }
  rewrite toInt32_small; lia.
Qed.

Lemma bind_Ok {A B : Type} (a : A) (k : A → outcome B) :
  (Ok a ≫= k) = k a.
Proof. reflexivity. Qed.

(** Clamping an integer gives an integer. *)
Lemma Math_clamp_whole (maxOffset toOffset : Z) :
  Math_max (Math_min (whole maxOffset) (whole toOffset)) (whole 0)
  = whole (Z.max (Z.min maxOffset toOffset) 0).
Proof. unfold Math_max, Math_min, whole. simpl twice. f_equal. lia. Qed.

(** ** The render-window extractor *)

Lemma pushIndexes_seqZ n : ∀ i end_ arr,
  Z.of_nat n = end_ - i + 1 →
  pushIndexes n i end_ arr = arr ++ seqZ i (Z.of_nat n).
Proof.
  induction n as [|n IH]; intros i end_ arr Hn.
  - simpl. by rewrite app_nil_r.
  - cbn [pushIndexes]. destruct (decide (i ≤ end_)) as [_|Hgt]; [|lia].
    rewrite IH by lia.
    rewrite (seqZ_cons i (Z.of_nat (S n))) by lia.
    rewrite <- app_assoc. simpl.
    do 3 f_equal. lia.
Qed.

Lemma pushIndexes_nothing n i end_ arr :
  end_ < i → pushIndexes n i end_ arr = arr.
Proof.
  intros Hlt. destruct n as [|n]; [done|].
  simpl. destruct (decide (i ≤ end_)); [lia|done].
Qed.

Lemma defaultRangeExtractor_seqZ range :
  let start := Z.max (Range.startIndex range - Range.overscan range) 0 in
  let end_ := Z.min (Range.endIndex range + Range.overscan range)
                    (Range.count range - 1) in
  defaultRangeExtractor range = seqZ start (end_ - start + 1).
Proof.
  intros start end_. unfold defaultRangeExtractor. fold start end_.
  destruct (decide (start ≤ end_ + 1)) as [Hle|Hgt].
  - rewrite pushIndexes_seqZ by lia. simpl. f_equal. lia.
  - rewrite pushIndexes_nothing by lia.
    symmetry. apply seqZ_nil. lia.
Qed.

Lemma seqZ_ascending m n : StronglySorted Z.lt (seqZ m n).
Proof.
  unfold seqZ. generalize (Z.to_nat n) as k. intros k.
  generalize 0%nat as b. induction k as [|k IH]; intros b; simpl.
  - constructor.
  - constructor; [apply IH|].
    apply Forall_forall. intros x Hx.
    apply list_elem_of_fmap in Hx as (y & -> & Hy).
    apply list_elem_of_In, in_seq in Hy. lia.
Qed.

(** C8. For a range with [0 <= startIndex <= endIndex <= count - 1] and
    [overscan >= 0], the default extractor returns exactly the indices from
    [max(startIndex - overscan, 0)] to [min(endIndex + overscan, count - 1)]
    inclusive: one after the other, ascending, none of them twice. *)
Theorem defaultRangeExtractor_window (range : Range.t) :
  0 ≤ Range.startIndex range →
  Range.startIndex range ≤ Range.endIndex range →
  Range.endIndex range ≤ Range.count range - 1 →
  0 ≤ Range.overscan range →
  let first := Z.max (Range.startIndex range - Range.overscan range) 0 in
  let last := Z.min (Range.endIndex range + Range.overscan range)
                    (Range.count range - 1) in
  let indexes := defaultRangeExtractor range in
  Z.of_nat (length indexes) = last - first + 1 ∧
  (∀ k : nat, Z.of_nat k ≤ last - first →
     indexes !! k = Some (first + Z.of_nat k)) ∧
  (∀ x, x ∈ indexes ↔ first ≤ x ≤ last) ∧
  StronglySorted Z.lt indexes ∧
  NoDup indexes.
Proof.
  intros Hs Hse Hec Ho first last indexes.
  assert (Heq : indexes = seqZ first (last - first + 1))
    by apply defaultRangeExtractor_seqZ.
  rewrite Heq. clear Heq indexes.
  assert (Hfl : first ≤ last) by (subst first last; lia).
  split; [rewrite length_seqZ; lia|].
  split; [intros k Hk; apply lookup_seqZ_lt; lia|].
  split; [|split; [apply seqZ_ascending | apply NoDup_seqZ]].
  intros x. rewrite list_elem_of_lookup. split.
  - intros [k Hk]. apply lookup_seqZ in Hk. lia.
  - intros Hx. exists (Z.to_nat (x - first)).
    apply lookup_seqZ. lia.
Qed.

(** Scenario A of the render window: the tight range [{0, 9}] of a thousand
    items with an overscan of one gives the indices [0 .. 10]. *)
Lemma defaultRangeExtractor_window_witness :
  let range := Range.mk 0 9 1 1000 in
  (0 ≤ Range.startIndex range ∧
   Range.startIndex range ≤ Range.endIndex range ∧
   Range.endIndex range ≤ Range.count range - 1 ∧
   0 ≤ Range.overscan range) ∧
  Z.of_nat (length (defaultRangeExtractor range)) = 11 ∧
  (∀ k : nat, Z.of_nat k ≤ 10 →
     defaultRangeExtractor range !! k = Some (0 + Z.of_nat k)).
Proof.
  intros range.
  assert (H0 : 0 ≤ Range.startIndex range) by (simpl; lia).
  assert (H1 : Range.startIndex range ≤ Range.endIndex range) by (simpl; lia).
  assert (H2 : Range.endIndex range ≤ Range.count range - 1) by (simpl; lia).
  assert (H3 : 0 ≤ Range.overscan range) by (simpl; lia).
  split; [done|].
  destruct (defaultRangeExtractor_window range H0 H1 H2 H3) as (Hlen & Hk & _).
  split; [exact Hlen | exact Hk].
Defined.

Example defaultRangeExtractor_scenario_A :
  defaultRangeExtractor (Range.mk 0 9 1 1000) = [0; 1; 2; 3; 4; 5; 6; 7; 8; 9; 10].
Proof. reflexivity. Qed.

(** Outside the hypotheses of C8 the window may be empty: no item, no index. *)
Example defaultRangeExtractor_empty :
  defaultRangeExtractor (Range.mk 0 0 1 0) = [].
Proof. reflexivity. Qed.

(** ** Binary search *)

Lemma valueAt_lookup values (i : Z) :
  0 ≤ i < Z.of_nat (length values) →
  ∃ v, values !! Z.to_nat i = Some v ∧ valueAt values i = Ok v.
Proof.
  intros Hi. unfold valueAt.
  destruct (decide (0 ≤ i)) as [_|]; [|lia].
  destruct (lookup_lt_is_Some_2 values (Z.to_nat i)) as [v Hv]; [lia|].
  exists v. by rewrite Hv.
Qed.

(** The search ends, and lands between the bounds it was given. *)
Lemma findNearestBinarySearch_bounds fuel : ∀ low high getCurrentValue value,
  0 ≤ low → low ≤ high + 1 → high < 2 ^ 31 →
  (∀ i, low ≤ i ≤ high → ∃ v, getCurrentValue i = Ok v) →
  high - low + 1 ≤ Z.of_nat fuel →
  ∃ idx, findNearestBinarySearch fuel low high getCurrentValue value = Ok idx
         ∧ Z.max 0 (low - 1) ≤ idx ≤ Z.max 0 high.
Proof.
  induction fuel as [|fuel IH]; intros low high get value Hlow Hlh Hhigh Hget Hfuel.
  - simpl. destruct (decide (low ≤ high)); [lia|].
    destruct (decide (low > 0)); eexists; split; try done; lia.
  - cbn [findNearestBinarySearch].
    destruct (decide (low ≤ high)) as [Hle|Hgt].
    + pose proof (middle_bounds low high Hlow Hle Hhigh) as Hmid.
      set (middle := toInt32 ((low + high) `quot` 2)) in *.
      destruct (Hget middle Hmid) as [v Hv]. rewrite Hv, bind_Ok.
      destruct (decide (v < value)).
      * destruct (IH (middle + 1) high get value) as (idx & Hidx & Hb);
          try lia.
        { intros i Hi. apply Hget. lia. }
        exists idx. split; [done|lia].
      * destruct (decide (v > value)).
        -- destruct (IH low (middle - 1) get value) as (idx & Hidx & Hb);
             try lia.
           { intros i Hi. apply Hget. lia. }
           exists idx. split; [done|lia].
        -- exists middle. split; [done|lia].
    + destruct (decide (low > 0)); eexists; split; try done; lia.
Qed.

(** What the search returns over an ascending sequence without the target:
    everything below [low] is smaller than the target and everything above
    [high] is larger, all along. *)
Lemma findNearestBinarySearch_floor values value fuel : ∀ low high idx,
  ascending values → value ∉ values →
  Z.of_nat (length values) < 2 ^ 31 →
  0 ≤ low → low ≤ high + 1 → high < Z.of_nat (length values) →
  (∀ (j : nat) w, values !! j = Some w → Z.of_nat j < low → w < value) →
  (∀ (j : nat) w, values !! j = Some w → high < Z.of_nat j → value < w) →
  findNearestBinarySearch fuel low high (valueAt values) value = Ok idx →
  (idx = 0 ∧ ∀ (j : nat) w, values !! j = Some w → value < w)
  ∨ floor_index values value idx.
Proof.
  intros low high idx Hasc Hno Hlen. revert low high.
  assert (Hexit : ∀ low high,
    0 ≤ low → low ≤ high + 1 → high < Z.of_nat (length values) →
    (∀ (j : nat) w, values !! j = Some w → Z.of_nat j < low → w < value) →
    (∀ (j : nat) w, values !! j = Some w → high < Z.of_nat j → value < w) →
    ¬ low ≤ high →
    (if decide (low > 0) then Ok (low - 1) else Ok 0) = Ok idx →
    (idx = 0 ∧ ∀ (j : nat) w, values !! j = Some w → value < w)
    ∨ floor_index values value idx).
  { intros low high Hlow Hlh Hhigh Hbelow Habove Hgt.
    destruct (decide (low > 0)) as [Hpos|Hzero]; intros [= <-].
    - right. split; [lia|]. split.
      + destruct (lookup_lt_is_Some_2 values (Z.to_nat (low - 1))) as [w Hw];
          [lia|].
        exists w. split; [done|].
        specialize (Hbelow (Z.to_nat (low - 1)) w Hw). lia.
      + intros j w Hj Hw.
        destruct (Z_lt_le_dec high (Z.of_nat j)) as [Hhj|Hhj]; [|lia].
        specialize (Habove j w Hj Hhj). lia.
    - left. split; [done|]. intros j w Hj. apply (Habove j w Hj). lia. }
  induction fuel as [|fuel IH]; intros low high Hlow Hlh Hhigh Hbelow Habove;
    cbn [findNearestBinarySearch];
    (destruct (decide (low ≤ high)) as [Hle|Hgt]; [|by eapply Hexit]).
  - done.
  - pose proof (middle_bounds low high Hlow Hle ltac:(lia)) as Hmid.
    set (middle := toInt32 ((low + high) `quot` 2)) in *.
    destruct (valueAt_lookup values middle ltac:(lia)) as (v & Hlk & Hv).
    rewrite Hv, bind_Ok.
    destruct (decide (v < value)) as [Hlt|Hnlt].
    + apply IH; [lia|lia|lia| |done].
      intros j w Hj Hjm.
      assert (w ≤ v) by (apply (Hasc j (Z.to_nat middle) w v); auto; lia).
      lia.
    + destruct (decide (v > value)) as [Hvgt|Hngt].
      * apply IH; [lia|lia|lia|done|].
        intros j w Hj Hjm.
        assert (v ≤ w) by (apply (Hasc (Z.to_nat middle) j v w); auto; lia).
        lia.
      * exfalso. apply Hno. apply list_elem_of_lookup.
        exists (Z.to_nat middle). rewrite Hlk. f_equal. lia.
Qed.

Lemma StronglySorted_ascending values :
  StronglySorted Z.le values → ascending values.
Proof.
  induction 1 as [|x values Hsorted IH Hx]; intros i j v w Hi Hj Hij.
  - by rewrite lookup_nil in Hi.
  - destruct i as [|i], j as [|j]; simpl in *; try lia.
    + by simplify_eq.
    + injection Hi as <-.
      rewrite Forall_forall in Hx. apply Hx.
      apply list_elem_of_lookup. by exists j.
    + apply (IH i j); auto with lia.
Qed.

(** C5. The binary search has floor semantics: over an ascending sequence
    that does not hold the target, it returns the highest index whose value
    is at most the target, and index 0 when the target is below every
    value. (Sequences are shorter than 2^31, so that the midpoint survives
    [| 0]; the fuel covers one round per element.) *)
Theorem findNearestBinarySearch_floor_semantics
    (values : list Z) (value : Z) (fuel : nat) :
  ascending values →
  value ∉ values →
  Z.of_nat (length values) < 2 ^ 31 →
  (length values ≤ fuel)%nat →
  ∃ idx,
    findNearestBinarySearch fuel 0 (Z.of_nat (length values) - 1)
      (valueAt values) value = Ok idx
    ∧ ((∃ v, v ∈ values ∧ v ≤ value) → floor_index values value idx)
    ∧ ((∀ v, v ∈ values → value < v) → idx = 0).
Proof.
  intros Hasc Hno Hlen Hfuel.
  destruct (findNearestBinarySearch_bounds fuel 0
              (Z.of_nat (length values) - 1) (valueAt values) value)
    as (idx & Hidx & _); try lia.
  { intros i Hi.
    destruct (valueAt_lookup values i ltac:(lia)) as (v & _ & Hv). eauto. }
  exists idx. split; [done|].
  assert (Hfloor :
    (idx = 0 ∧ ∀ (j : nat) w, values !! j = Some w → value < w)
    ∨ floor_index values value idx).
  { apply (findNearestBinarySearch_floor values value fuel 0
             (Z.of_nat (length values) - 1)); auto; try lia.
    intros j w Hj Hhigh. apply lookup_lt_Some in Hj. lia. }
  destruct Hfloor as [[-> Hall]|Hfloor].
  - split; [|done].
    intros (v & Hv & Hle). apply list_elem_of_lookup in Hv as [j Hj].
    specialize (Hall j v Hj). lia.
  - split; [done|].
    intros Hall. destruct Hfloor as (_ & (v & Hv & Hle) & _).
    assert (value < v); [|lia].
    apply Hall, list_elem_of_lookup. eauto.
Qed.

(** The three queries of the specification over the starts [0,10,20,30]:
    15 gives index 1, 5 gives index 0, -1 gives index 0. *)
Lemma findNearestBinarySearch_floor_semantics_witness :
  let values := [0; 10; 20; 30] in
  (ascending values ∧ Z.of_nat (length values) < 2 ^ 31
   ∧ (length values ≤ 4)%nat
   ∧ (15 ∉ values) ∧ (5 ∉ values) ∧ ((-1) ∉ values)) ∧
  (findNearestBinarySearch 4 0 3 (valueAt values) 15 = Ok 1
   ∧ floor_index values 15 1) ∧
  (findNearestBinarySearch 4 0 3 (valueAt values) 5 = Ok 0
   ∧ floor_index values 5 0) ∧
  findNearestBinarySearch 4 0 3 (valueAt values) (-1) = Ok 0.
Proof.
  intros values.
  assert (Hasc : ascending values).
  { apply StronglySorted_ascending. unfold values.
    repeat (constructor; [|repeat constructor; lia]). constructor. }
  assert (Hlen : Z.of_nat (length values) < 2 ^ 31) by (simpl; lia).
  assert (Hfuel : (length values ≤ 4)%nat) by (simpl; lia).
  assert (Hno : ∀ x, x ≠ 0 → x ≠ 10 → x ≠ 20 → x ≠ 30 → x ∉ values).
  { intros x H0 H1 H2 H3 Hx. unfold values in Hx.
    rewrite !elem_of_cons, elem_of_nil in Hx. intuition. }
  assert (H15 : 15 ∉ values) by (apply Hno; lia).
  assert (H5 : 5 ∉ values) by (apply Hno; lia).
  assert (Hm1 : -1 ∉ values) by (apply Hno; lia).
  split; [done|].
  assert (Hex : ∀ x, 0 ≤ x → ∃ v, v ∈ values ∧ v ≤ x).
  { intros x Hx. exists 0. split; [apply list_elem_of_here|done]. }
  split; [|split].
  - destruct (findNearestBinarySearch_floor_semantics values 15 4
                Hasc H15 Hlen Hfuel) as (idx & Hidx & Hfloor & _).
    assert (idx = 1) as -> by (vm_compute in Hidx; congruence).
    split; [exact Hidx | apply Hfloor, Hex; lia].
  - destruct (findNearestBinarySearch_floor_semantics values 5 4
                Hasc H5 Hlen Hfuel) as (idx & Hidx & Hfloor & _).
    assert (idx = 0) as -> by (vm_compute in Hidx; congruence).
    split; [exact Hidx | apply Hfloor, Hex; lia].
  - destruct (findNearestBinarySearch_floor_semantics values (-1) 4
                Hasc Hm1 Hlen Hfuel) as (idx & Hidx & _ & Hbelow).
    assert (idx = 0) as ->; [|exact Hidx].
    apply Hbelow. intros v Hv. unfold values in Hv.
    rewrite !elem_of_cons, elem_of_nil in Hv. lia.
Defined.

(** ** The range calculator *)

Lemma dense_aget {A : Type} (a : list (option A)) (i : Z) :
  dense a → 0 ≤ i < Z.of_nat (length a) → ∃ x, aget a i = Some x.
Proof.
  intros Hd Hi. destruct (Hd (Z.to_nat i)) as [x Hx]; [lia|].
  exists x. by rewrite Z2Nat.id in Hx by lia.
Qed.

Lemma dense_fmap_Some {A : Type} (l : list A) : dense (Some <$> l).
Proof.
  intros i Hi. rewrite length_fmap in Hi.
  destruct (lookup_lt_is_Some_2 l i Hi) as [x Hx].
  exists x. unfold aget. rewrite decide_True by lia.
  by rewrite Nat2Z.id, list_lookup_fmap, Hx.
Qed.

Section range_loops.

Context (measurements : list (option VirtualItem.t)).
Hypothesis Hdense : dense measurements.

Let lastIndex := Z.of_nat (length measurements) - 1.

Lemma expandEnd_bounds limit fuel : ∀ endIndex,
  0 ≤ endIndex ≤ lastIndex →
  lastIndex - endIndex ≤ Z.of_nat fuel →
  ∃ e, expandEnd fuel measurements lastIndex limit endIndex = Ok e
       ∧ endIndex ≤ e ≤ lastIndex.
Proof.
  induction fuel as [|fuel IH]; intros endIndex Hend Hfuel;
    cbn [expandEnd]; (destruct (decide (endIndex < lastIndex)) as [Hlt|Hge];
      [|exists endIndex; split; [done|lia]]).
  - lia.
  - destruct (dense_aget measurements endIndex Hdense) as [item Hitem];
      [unfold lastIndex in *; lia|].
    rewrite Hitem. simpl.
    destruct (decide (VirtualItem.end_ item < limit));
      [|exists endIndex; split; [done|lia]].
    destruct (IH (endIndex + 1)) as (e & He & Hb); [lia|lia|].
    exists e. split; [done|lia].
Qed.

Lemma expandEndLanes_bounds limit fuel : ∀ endPerLane endIndex,
  0 ≤ endIndex ≤ lastIndex →
  lastIndex - endIndex ≤ Z.of_nat fuel →
  ∃ e, expandEndLanes fuel measurements lastIndex limit endPerLane endIndex
       = Ok e
       ∧ endIndex ≤ e ≤ lastIndex.
Proof.
  induction fuel as [|fuel IH]; intros endPerLane endIndex Hend Hfuel;
    cbn [expandEndLanes];
    (destruct (bool_decide (endIndex < lastIndex)
               && some (λ pos, bool_decide (pos < limit)) endPerLane)
       eqn:Hcond; [|exists endIndex; split; [done|lia]]);
    apply andb_true_iff in Hcond as [Hlt%bool_decide_eq_true _].
  - lia.
  - destruct (dense_aget measurements endIndex Hdense) as [item Hitem];
      [unfold lastIndex in *; lia|].
    rewrite Hitem. simpl.
    destruct (IH (asetZ endPerLane (VirtualItem.lane item)
                        (VirtualItem.end_ item)) (endIndex + 1))
      as (e & He & Hb); [lia|lia|].
    exists e. split; [done|lia].
Qed.

Lemma expandStartLanes_bounds scrollOffset fuel : ∀ startPerLane startIndex,
  -1 ≤ startIndex ≤ lastIndex →
  startIndex + 1 ≤ Z.of_nat fuel →
  ∃ b, expandStartLanes fuel measurements scrollOffset startPerLane startIndex
       = Ok b
       ∧ -1 ≤ b ≤ startIndex.
Proof.
  induction fuel as [|fuel IH]; intros startPerLane startIndex Hstart Hfuel;
    cbn [expandStartLanes];
    (destruct (bool_decide (startIndex >= 0)
               && some (λ pos, bool_decide (pos >= scrollOffset)) startPerLane)
       eqn:Hcond; [|exists startIndex; split; [done|lia]]);
    apply andb_true_iff in Hcond as [Hge%bool_decide_eq_true _].
  - lia.
  - destruct (dense_aget measurements startIndex Hdense) as [item Hitem];
      [unfold lastIndex in *; lia|].
    rewrite Hitem. simpl.
    destruct (IH (asetZ startPerLane (VirtualItem.lane item)
                        (VirtualItem.start item)) (startIndex - 1))
      as (b & Hb & Hbb); [lia|lia|].
    exists b. split; [done|lia].
Qed.

End range_loops.

Lemma snap_start_bounds (b lanes : Z) :
  lanes > 1 → -1 ≤ b →
  0 ≤ Z.max 0 (b - rem b lanes) ≤ Z.max 0 b.
Proof.
  intros Hl Hb. unfold rem.
  destruct (decide (b = -1)) as [->|Hne].
  - change (-1) with (- (1)). rewrite Z.rem_opp_l' by lia.
    rewrite Z.rem_small by lia. lia.
  - pose proof (Z.rem_bound_pos b lanes ltac:(lia) ltac:(lia)). lia.
Qed.

Lemma snap_end_bounds (e lanes lastIndex : Z) :
  lanes > 1 → 0 ≤ e ≤ lastIndex →
  e ≤ Z.min lastIndex (e + (lanes - 1 - rem e lanes)) ≤ lastIndex.
Proof.
  intros Hl He. unfold rem.
  pose proof (Z.rem_bound_pos e lanes ltac:(lia) ltac:(lia)). lia.
Qed.

Lemma getOffset_dense measurements (i : Z) :
  dense measurements → 0 ≤ i < Z.of_nat (length measurements) →
  ∃ v, getOffset measurements i = Ok v.
Proof.
  intros Hd Hi. destruct (dense_aget measurements i Hd Hi) as [item Hitem].
  exists (VirtualItem.start item). unfold getOffset. by rewrite Hitem.
Qed.

(** The free function [calculateRange] on a sequence without holes. *)
Lemma calculateRange_bounds fuel measurements outerSize scrollOffset lanes :
  dense measurements →
  (0 < length measurements)%nat →
  Z.of_nat (length measurements) < 2 ^ 31 →
  (length measurements ≤ fuel)%nat →
  ∃ r, calculateRange fuel measurements outerSize scrollOffset lanes = Ok r
       ∧ 0 ≤ Visible.startIndex r
       ∧ Visible.startIndex r ≤ Visible.endIndex r
       ∧ Visible.endIndex r ≤ Z.of_nat (length measurements) - 1.
Proof.
  intros Hd Hpos Hlen Hfuel. unfold calculateRange.
  pose (lastIndex := Z.of_nat (length measurements) - 1).
  destruct (decide (Z.of_nat (length measurements) ≤ lanes)) as [Hfew|Hmany].
  { eexists. split; [done|]. simpl. lia. }
  destruct (findNearestBinarySearch_bounds fuel 0 lastIndex
              (getOffset measurements) scrollOffset)
    as (startIndex & Hstart & Hsb); try (unfold lastIndex; lia).
  all: unfold lastIndex in *.
  { intros i Hi. apply getOffset_dense; [done|unfold lastIndex in Hi; lia]. }
  rewrite Hstart, bind_Ok.
  assert (Hs : 0 ≤ startIndex ≤ lastIndex) by (unfold lastIndex in *; lia).
  destruct (decide (lanes = 1)) as [Hone|Hnone].
  - destruct (expandEnd_bounds measurements Hd (scrollOffset + outerSize)
                fuel startIndex) as (e & He & Heb);
      [done | unfold lastIndex in *; lia |].
    rewrite He, bind_Ok.
    eexists. split; [done|]. simpl. lia.
  - destruct (decide (lanes > 1)) as [Hlanes|Hnolanes].
    + destruct (expandEndLanes_bounds measurements Hd
                  (scrollOffset + outerSize) fuel (filled lanes 0) startIndex)
        as (e & He & Heb); [done | unfold lastIndex in *; lia |].
      destruct (expandStartLanes_bounds measurements Hd scrollOffset fuel
                  (filled lanes (scrollOffset + outerSize)) startIndex)
        as (b & Hb & Hbb); [lia | unfold lastIndex in *; lia |].
      rewrite He, bind_Ok, Hb, bind_Ok.
      eexists. split; [done|]. simpl.
      pose proof (snap_start_bounds b lanes Hlanes ltac:(lia)).
      pose proof (snap_end_bounds e lanes
                    (Z.of_nat (length measurements) - 1) Hlanes ltac:(lia)).
      lia.
    + eexists. split; [done|]. simpl. lia.
Qed.

(** C2. Whenever there is at least one item and the viewport size is
    positive, [calculateRange] returns a range with
    [0 <= startIndex <= endIndex <= count - 1]. (The measurement sequence has
    no holes and fewer than 2^31 items; the fuel covers one round per
    item.) *)
Theorem calculateRange_within_count
    (fuel : nat) (measurements : list (option VirtualItem.t))
    (outerSize scrollOffset lanes : Z) (s : Virtualizer.t) :
  let count := Z.of_nat (length measurements) in
  dense measurements →
  count > 0 →
  outerSize > 0 →
  count < 2 ^ 31 →
  (length measurements ≤ fuel)%nat →
  ∃ r,
    Virtualizer.calculateRange fuel measurements outerSize scrollOffset lanes s
    = Ok (Some r, Virtualizer.set_range (Some r) s)
    ∧ 0 ≤ Visible.startIndex r
    ∧ Visible.startIndex r ≤ Visible.endIndex r
    ∧ Visible.endIndex r ≤ count - 1.
Proof.
  intros count Hd Hcount Hsize Hlen Hfuel. unfold Virtualizer.calculateRange.
  rewrite (bool_decide_eq_true_2 (0 < length measurements)%nat) by lia.
  rewrite (bool_decide_eq_true_2 (outerSize > 0)) by done. simpl.
  destruct (calculateRange_bounds fuel measurements outerSize scrollOffset lanes)
    as (r & Hr & Hb); [done|lia|done|done|].
  exists r. by rewrite Hr.
Qed.

(** Scenario A: a thousand rows of 50px, a viewport of 500px at offset 0;
    the tight range is [{0, 9}]. *)
Lemma calculateRange_within_count_witness :
  let measurements := Sample.rows 1000 in
  let s := Sample.fresh Sample.options in
  (dense measurements
   ∧ Z.of_nat (length measurements) > 0
   ∧ 500 > 0
   ∧ Z.of_nat (length measurements) < 2 ^ 31
   ∧ (length measurements ≤ 1000)%nat) ∧
  ∃ r,
    Virtualizer.calculateRange 1000 measurements 500 0 1 s
    = Ok (Some r, Virtualizer.set_range (Some r) s)
    ∧ r = Visible.mk 0 9.
Proof.
  intros measurements s.
  assert (Hd : dense measurements) by apply dense_fmap_Some.
  assert (Hcount : Z.of_nat (length measurements) > 0) by (vm_compute; done).
  assert (Hsize : 500 > 0) by lia.
  assert (Hlen : Z.of_nat (length measurements) < 2 ^ 31) by (vm_compute; done).
  assert (Hfuel : (length measurements ≤ 1000)%nat)
    by (unfold measurements, Sample.rows; rewrite !length_fmap, length_seq; lia).
  split; [done|].
  destruct (calculateRange_within_count 1000 measurements 500 0 1 s
              Hd Hcount Hsize Hlen Hfuel) as (r & Hr & _).
  exists r. split; [exact Hr|].
  vm_compute in Hr. by injection Hr as <-.
Defined.

(** ** Arrays with holes *)

Lemma aget_nat {A : Type} (a : list (option A)) (i : nat) :
  aget a (Z.of_nat i) = mjoin (a !! i).
Proof. unfold aget. rewrite decide_True by lia. by rewrite Nat2Z.id. Qed.

Lemma aget_ge {A : Type} (a : list (option A)) (i : nat) :
  (length a ≤ i)%nat → aget a (Z.of_nat i) = None.
Proof. intros Hi. by rewrite aget_nat, lookup_ge_None_2. Qed.

Lemma aget_neg {A : Type} (a : list (option A)) (i : Z) :
  i < 0 → aget a i = None.
Proof. intros Hi. unfold aget. by rewrite decide_False by lia. Qed.

Lemma aget_Some_lt {A : Type} (a : list (option A)) (i : nat) x :
  aget a (Z.of_nat i) = Some x → (i < length a)%nat.
Proof.
  intros Hx. destruct (decide (i < length a)%nat); [done|].
  rewrite aget_ge in Hx by lia. done.
Qed.

Lemma aget_aset_eq {A : Type} (a : list (option A)) (i : nat) (v : A) :
  aget (aset a i v) (Z.of_nat i) = Some v.
Proof.
  rewrite aget_nat. unfold aset. destruct (decide (i < length a)%nat).
  - by rewrite list_lookup_insert_eq.
  - rewrite lookup_app_r by lia.
    rewrite lookup_app_r by (rewrite length_replicate; lia).
    rewrite length_replicate.
    by replace (i - length a - (i - length a))%nat with 0%nat by lia.
Qed.

Lemma aget_aset_ne {A : Type} (a : list (option A)) (i j : nat) (v : A) :
  i ≠ j → aget (aset a i v) (Z.of_nat j) = aget a (Z.of_nat j).
Proof.
  intros Hij. rewrite !aget_nat. unfold aset.
  destruct (decide (i < length a)%nat).
  - by rewrite list_lookup_insert_ne.
  - destruct (decide (j < length a)%nat).
    + by rewrite lookup_app_l.
    + rewrite lookup_app_r by lia.
      rewrite (lookup_ge_None_2 a j) by lia.
      destruct (decide (j < i)%nat).
      * rewrite lookup_app_l by (rewrite length_replicate; lia).
        rewrite lookup_replicate_2 by lia. done.
      * rewrite lookup_ge_None_2; [done|].
        rewrite length_app, length_replicate. simpl. lia.
Qed.

Lemma length_aset {A : Type} (a : list (option A)) (i : nat) (v : A) :
  length (aset a i v) = (length a `max` S i)%nat.
Proof.
  unfold aset. destruct (decide (i < length a)%nat).
  - rewrite length_insert. lia.
  - rewrite !length_app, length_replicate. simpl. lia.
Qed.

Lemma dense_aset_end {A : Type} (a : list (option A)) (v : A) :
  dense a → dense (aset a (length a) v).
Proof.
  intros Hd i Hi. rewrite length_aset in Hi.
  destruct (decide (i = length a)) as [->|Hne].
  - rewrite aget_aset_eq. eauto.
  - rewrite aget_aset_ne by done. apply Hd. lia.
Qed.

Lemma dense_take {A : Type} (a : list (option A)) (n : nat) :
  dense a → dense (slice0 a n).
Proof.
  intros Hd i Hi. unfold slice0 in *. rewrite length_take in Hi.
  rewrite aget_nat, lookup_take_lt by lia.
  rewrite <- aget_nat. apply Hd. lia.
Qed.

Lemma aget_slice0 {A : Type} (a : list (option A)) (n i : nat) :
  (i < n)%nat → aget (slice0 a n) (Z.of_nat i) = aget a (Z.of_nat i).
Proof. intros Hi. unfold slice0. by rewrite !aget_nat, lookup_take_lt. Qed.

(** ** The measurement cache *)

Section measurements.

Context (mo : MeasurementOptions.t) (s : Virtualizer.t).

Lemma measureItem_item_ok measurements i item :
  Virtualizer.measureItem mo s measurements i = Ok item →
  item_ok item ∧ VirtualItem.index item = i
  ∧ VirtualItem.key item = MeasurementOptions.getItemKey mo i.
Proof.
  unfold Virtualizer.measureItem.
  destruct (if decide (Options.lanes (Virtualizer.options s) = 1)
            then Ok (aget measurements (Z.of_nat i - 1))
            else Virtualizer.getFurthestMeasurement
                   (Options.lanes (Virtualizer.options s)) measurements i)
    as [furthest| |]; simpl; [|done..].
  intros [= <-]. done.
Qed.

(** With one lane the predecessor is the slot right before. *)
Lemma measureItem_single_lane measurements i :
  Options.lanes (Virtualizer.options s) = 1 →
  ∃ item,
    Virtualizer.measureItem mo s measurements i = Ok item
    ∧ VirtualItem.start item =
        match aget measurements (Z.of_nat i - 1) with
        | Some previous =>
            VirtualItem.end_ previous + Options.gap (Virtualizer.options s)
        | None =>
            MeasurementOptions.paddingStart mo
            + MeasurementOptions.scrollMargin mo
        end.
Proof.
  intros Hlanes. unfold Virtualizer.measureItem.
  rewrite decide_True by done. simpl. eexists. split; [done|]. done.
Qed.

(** What the loop leaves behind: the slots below [i] and from [i + n] on
    are untouched, and each slot [j] in between holds the item computed at
    round [j] from an array that agrees with the final one below [j]. *)
Lemma measureLoop_inv n : ∀ i measurements result,
  Virtualizer.measureLoop mo s n i measurements = Ok result →
  (∀ j : nat, (j < i ∨ i + n ≤ j)%nat →
     aget result (Z.of_nat j) = aget measurements (Z.of_nat j))
  ∧ (∀ j : nat, (i ≤ j < i + n)%nat →
       ∃ item before,
         aget result (Z.of_nat j) = Some item
         ∧ Virtualizer.measureItem mo s before j = Ok item
         ∧ ∀ k : Z, k < Z.of_nat j → aget before k = aget result k)
  ∧ length result = (length measurements `max` (if n is O then 0 else i + n))%nat.
Proof.
  induction n as [|n IH]; intros i measurements result; cbn [Virtualizer.measureLoop].
  - intros [= <-]. split; [done|]. split; [lia|]. lia.
  - destruct (Virtualizer.measureItem mo s measurements i) as [item| |] eqn:Hitem;
      simpl; [|done..].
    intros Hloop. destruct (IH _ _ _ Hloop) as (Hout & Hin & Hlen).
    assert (Hbelow : ∀ k : Z, k < Z.of_nat (S i) →
              aget result k = aget (aset measurements i item) k).
    { intros k Hk. destruct (decide (0 ≤ k)) as [Hk0|Hk0].
      - rewrite <- (Z2Nat.id k Hk0). apply Hout. lia.
      - by rewrite !aget_neg by lia. }
    split; [|split].
    + intros j Hj. rewrite Hout by lia. apply aget_aset_ne. lia.
    + intros j Hj. destruct (decide (j = i)) as [->|Hne].
      * exists item, measurements. rewrite Hbelow, aget_aset_eq by lia.
        split; [done|]. split; [done|].
        intros k Hk. rewrite Hbelow by lia.
        destruct (decide (0 ≤ k)) as [Hk0|Hk0].
        -- rewrite <- (Z2Nat.id k Hk0). symmetry. apply aget_aset_ne. lia.
        -- by rewrite !aget_neg by lia.
      * apply Hin. lia.
    + rewrite Hlen, length_aset. destruct n; lia.
Qed.

(** With one lane no round can fail. *)
Lemma measureLoop_single_lane_total n : ∀ i measurements,
  Options.lanes (Virtualizer.options s) = 1 →
  ∃ result, Virtualizer.measureLoop mo s n i measurements = Ok result.
Proof.
  induction n as [|n IH]; intros i measurements Hlanes; cbn [Virtualizer.measureLoop].
  - eauto.
  - destruct (measureItem_single_lane measurements i Hlanes) as (item & -> & _).
    simpl. apply IH, Hlanes.
Qed.

End measurements.

Example getMeasurements_scenario_B :
  ∃ measurements s',
    Virtualizer.getMeasurements (Sample.measurementOptions Sample.twoLanes)
      (Sample.fresh Sample.twoLanes) = Ok (measurements, s')
    ∧ (λ item, (VirtualItem.start item, VirtualItem.end_ item,
                VirtualItem.lane item)) <$> omap id measurements
      = [(0, 50, 0); (0, 50, 1); (50, 100, 0); (50, 100, 1)].
Proof. do 2 eexists. split; [vm_compute; reflexivity|]. vm_compute. reflexivity. Qed.

Lemma minPending_elem p ps :
  Virtualizer.minPending (p :: ps) ∈ p :: ps.
Proof.
  simpl. induction ps as [|q ps IH]; simpl.
  - apply list_elem_of_here.
  - destruct (Nat.min_spec q (foldr Nat.min p ps)) as [[_ ->]|[_ ->]].
    + apply list_elem_of_further, list_elem_of_here.
    + apply elem_of_cons in IH as [->|IH].
      * apply list_elem_of_here.
      * by do 2 apply list_elem_of_further.
Qed.

(** In a well-formed instance the prefix kept by a recomputation lies
    inside a cache without holes. *)
Lemma cache_wf_prefix s :
  cache_wf s →
  let s1 := Virtualizer.loadInitialMeasurements s in
  dense (Virtualizer.measurementsCache s1)
  ∧ (Virtualizer.minPending (Virtualizer.pendingMeasuredCacheIndexes s1)
     ≤ length (Virtualizer.measurementsCache s1))%nat.
Proof.
  intros (Hd & _ & Hp). unfold Virtualizer.loadInitialMeasurements.
  destruct (decide (length (Virtualizer.measurementsCache s) = 0%nat))
    as [Hempty|Hfull]; simpl.
  - split; [apply dense_fmap_Some|].
    destruct (Virtualizer.pendingMeasuredCacheIndexes s) as [|p ps]; [simpl; lia|].
    specialize (Hp p (list_elem_of_here _ _)). lia.
  - split; [done|].
    destruct (Virtualizer.pendingMeasuredCacheIndexes s) as [|p ps] eqn:Hps;
      [simpl; lia|].
    pose proof (Hp _ (minPending_elem p ps)). lia.
Qed.

(** A new instance is well formed. *)
Lemma cache_wf_fresh o : cache_wf (Sample.fresh o).
Proof.
  split; [|split]; simpl.
  - intros i Hi. simpl in Hi. lia.
  - intros i item Hi. by rewrite aget_nat, lookup_nil in Hi.
  - intros p Hp. by apply elem_of_nil in Hp.
Qed.

Lemma options_loadInitialMeasurements s :
  Virtualizer.options (Virtualizer.loadInitialMeasurements s)
  = Virtualizer.options s.
Proof.
  unfold Virtualizer.loadInitialMeasurements.
  by destruct (decide (length (Virtualizer.measurementsCache s) = 0%nat)).
Qed.

Lemma pending_loadInitialMeasurements s :
  Virtualizer.pendingMeasuredCacheIndexes (Virtualizer.loadInitialMeasurements s)
  = Virtualizer.pendingMeasuredCacheIndexes s.
Proof.
  unfold Virtualizer.loadInitialMeasurements.
  by destruct (decide (length (Virtualizer.measurementsCache s) = 0%nat)).
Qed.

(** In a well-formed instance the prefix kept by a recomputation comes
    from the cache itself, never from [initialMeasurementsCache]. *)
Lemma cache_wf_kept_prefix s (j : nat) :
  cache_wf s →
  (j < Virtualizer.minPending (Virtualizer.pendingMeasuredCacheIndexes s))%nat →
  aget (Virtualizer.measurementsCache (Virtualizer.loadInitialMeasurements s))
       (Z.of_nat j)
  = aget (Virtualizer.measurementsCache s) (Z.of_nat j).
Proof.
  intros (_ & _ & Hp) Hj. unfold Virtualizer.loadInitialMeasurements.
  destruct (decide (length (Virtualizer.measurementsCache s) = 0%nat))
    as [Hempty|Hfull]; [|done].
  destruct (Virtualizer.pendingMeasuredCacheIndexes s) as [|p ps];
    [simpl in Hj; lia|].
  specialize (Hp p (list_elem_of_here _ _)). lia.
Qed.

(** The shape of a recomputation when the engine is enabled. *)
Lemma getMeasurements_enabled mo s measurements s' :
  MeasurementOptions.enabled mo = true →
  Virtualizer.getMeasurements mo s = Ok (measurements, s') →
  let s1 := Virtualizer.loadInitialMeasurements s in
  let min := Virtualizer.minPending (Virtualizer.pendingMeasuredCacheIndexes s1) in
  let s2 := Virtualizer.set_pendingMeasuredCacheIndexes [] s1 in
  Virtualizer.measureLoop mo s2
    (Z.to_nat (MeasurementOptions.count mo - Z.of_nat min)) min
    (slice0 (Virtualizer.measurementsCache s1) min) = Ok measurements
  ∧ s' = Virtualizer.set_measurementsCache measurements s2.
Proof.
  intros Hen. unfold Virtualizer.getMeasurements. rewrite Hen. simpl.
  destruct (Virtualizer.measureLoop _ _ _ _ _) as [result| |]; simpl; [|done..].
  by intros [= <- <-].
Qed.

Lemma getMeasurements_disabled mo s :
  MeasurementOptions.enabled mo = false →
  Virtualizer.getMeasurements mo s
  = Ok ([], Virtualizer.set_itemSizeCache ∅
              (Virtualizer.set_measurementsCache [] s)).
Proof. intros Hen. unfold Virtualizer.getMeasurements. by rewrite Hen. Qed.

(** With one lane a recomputation returns, whatever the instance holds. *)
Lemma getMeasurements_single_lane_returns mo s :
  Options.lanes (Virtualizer.options s) = 1 →
  ∃ measurements s',
    Virtualizer.getMeasurements mo s = Ok (measurements, s').
Proof.
  intros Hlanes. unfold Virtualizer.getMeasurements.
  destruct (negb (MeasurementOptions.enabled mo)); [eauto|].
  edestruct (measureLoop_single_lane_total mo) as [result ->];
    [|simpl; eauto].
  simpl. by rewrite options_loadInitialMeasurements.
Qed.

(** C1. In every measurement sequence that [getMeasurements] produces,
    every item computed by the call (every item from the lowest dirty index
    on) has [end = start + size]. The items of the prefix taken over from
    the cache of a well-formed instance had it before, so the invariant holds
    along the whole sequence, which is also the new cache. *)
Theorem getMeasurements_end_eq_start_plus_size
    (mo : MeasurementOptions.t) (s : Virtualizer.t)
    (measurements : list (option VirtualItem.t)) (s' : Virtualizer.t) :
  Virtualizer.getMeasurements mo s = Ok (measurements, s') →
  let min := Virtualizer.minPending (Virtualizer.pendingMeasuredCacheIndexes s) in
  (∀ (j : nat) item,
     (min ≤ j)%nat → aget measurements (Z.of_nat j) = Some item → item_ok item)
  ∧ (cache_wf s →
     (∀ (j : nat) item,
        (j < min)%nat →
        aget (Virtualizer.measurementsCache s) (Z.of_nat j) = Some item →
        item_ok item) →
     ∀ (j : nat) item,
       aget measurements (Z.of_nat j) = Some item → item_ok item)
  ∧ Virtualizer.measurementsCache s' = measurements.
Proof.
  intros Hget min.
  destruct (MeasurementOptions.enabled mo) eqn:Hen.
  2: { rewrite getMeasurements_disabled in Hget by done.
       injection Hget as <- <-.
       split; [|split; [|done]]; intros; by rewrite aget_nat, lookup_nil in *. }
  destruct (getMeasurements_enabled mo s measurements s' Hen Hget)
    as [Hloop ->].
  rewrite pending_loadInitialMeasurements in Hloop. fold min in Hloop.
  destruct (measureLoop_inv _ _ _ _ _ _ Hloop) as (Hout & Hin & _).
  assert (Hcomputed : ∀ (j : nat) item,
            (min ≤ j)%nat → aget measurements (Z.of_nat j) = Some item →
            item_ok item).
  { intros j item Hj Hitem.
    destruct (decide (j < min + Z.to_nat (MeasurementOptions.count mo
                                           - Z.of_nat min))%nat) as [Hlt|Hge].
    - destruct (Hin j ltac:(lia)) as (item' & before & Hitem' & Hm & _).
      rewrite Hitem in Hitem'. injection Hitem' as <-.
      by apply measureItem_item_ok in Hm as [? _].
    - rewrite Hout in Hitem by lia.
      rewrite aget_ge in Hitem; [done|].
      unfold slice0. rewrite length_take. lia. }
  split; [done|]. split; [|done].
  intros Hwf Hprefix j item Hitem.
  destruct (decide (min ≤ j)%nat) as [Hge|Hlt]; [by eapply Hcomputed|].
  rewrite Hout, aget_slice0, cache_wf_kept_prefix in Hitem by (done || lia).
  eapply Hprefix; [|done]. lia.
Qed.

Lemma getMeasurements_end_eq_start_plus_size_witness :
  let mo := Sample.measurementOptions Sample.twoLanes in
  let s := Sample.fresh Sample.twoLanes in
  ∃ measurements s',
    Virtualizer.getMeasurements mo s = Ok (measurements, s')
    ∧ length measurements = 4%nat
    ∧ ∀ (j : nat) item,
        aget measurements (Z.of_nat j) = Some item → item_ok item.
Proof.
  intros mo s.
  destruct (Virtualizer.getMeasurements mo s) as [[measurements s']| |] eqn:Hget;
    [|by vm_compute in Hget..].
  exists measurements, s'. split; [done|].
  destruct (getMeasurements_end_eq_start_plus_size mo s measurements s' Hget)
    as (_ & Hall & _).
  split.
  - vm_compute in Hget. injection Hget as <- _. reflexivity.
  - apply Hall; [apply cache_wf_fresh|]. simpl. intros j item Hj. lia.
Defined.

(** C3. With a single lane and gap [g], in the sequence that
    [getMeasurements] produces every item at an index [i > 0] of the
    recomputed suffix starts at its predecessor's end plus [g], and an item
    recomputed at index 0 starts at [paddingStart + scrollMargin]; a prefix
    that had both properties keeps them, so that they hold along the whole
    sequence. *)
Theorem getMeasurements_single_lane_chain
    (mo : MeasurementOptions.t) (s : Virtualizer.t)
    (measurements : list (option VirtualItem.t)) (s' : Virtualizer.t) :
  Options.lanes (Virtualizer.options s) = 1 →
  cache_wf s →
  Virtualizer.getMeasurements mo s = Ok (measurements, s') →
  let cache := Virtualizer.measurementsCache s in
  let min := Virtualizer.minPending (Virtualizer.pendingMeasuredCacheIndexes s) in
  let g := Options.gap (Virtualizer.options s) in
  let origin :=
    MeasurementOptions.paddingStart mo + MeasurementOptions.scrollMargin mo in
  (∀ i : nat, (0 < i)%nat → (min ≤ i)%nat → chained g measurements i)
  ∧ (min = 0%nat → ∀ item,
       aget measurements 0 = Some item → VirtualItem.start item = origin)
  ∧ ((∀ i : nat, (0 < i < min)%nat → chained g cache i) →
     ∀ i : nat, (0 < i)%nat → chained g measurements i)
  ∧ ((∀ item, aget cache 0 = Some item → VirtualItem.start item = origin) →
     ∀ item, aget measurements 0 = Some item → VirtualItem.start item = origin).
Proof.
  intros Hlanes Hwf Hget cache min g origin.
  destruct (MeasurementOptions.enabled mo) eqn:Hen.
  2: { rewrite getMeasurements_disabled in Hget by done.
       injection Hget as <- <-. unfold chained.
       repeat split; intros; by rewrite ?aget_nat, ?lookup_nil in *. }
  destruct (getMeasurements_enabled mo s measurements s' Hen Hget)
    as [Hloop ->].
  destruct (cache_wf_prefix s Hwf) as [Hdense Hmin].
  rewrite pending_loadInitialMeasurements in Hloop, Hmin.
  fold min in Hloop, Hmin.
  set (s1 := Virtualizer.loadInitialMeasurements s) in *.
  set (s2 := Virtualizer.set_pendingMeasuredCacheIndexes [] s1) in *.
  assert (Hopt : Virtualizer.options s2 = Virtualizer.options s)
    by apply options_loadInitialMeasurements.
  assert (Hkept : ∀ j : nat, (j < min)%nat →
            aget (Virtualizer.measurementsCache s1) (Z.of_nat j)
            = aget cache (Z.of_nat j))
    by (intros j Hj; by apply cache_wf_kept_prefix).
  set (n := Z.to_nat (MeasurementOptions.count mo - Z.of_nat min)) in *.
  destruct (measureLoop_inv _ _ _ _ _ _ Hloop) as (Hout & Hin & _).
  (* the start of a recomputed item, read off the final sequence *)
  assert (Hstart : ∀ (j : nat) item,
            (min ≤ j)%nat → aget measurements (Z.of_nat j) = Some item →
            VirtualItem.start item =
              match aget measurements (Z.of_nat j - 1) with
              | Some previous => VirtualItem.end_ previous + g
              | None => origin
              end ∧ (j < min + n)%nat).
  { intros j item Hj Hitem.
    destruct (decide (j < min + n)%nat) as [Hlt|Hge].
    - destruct (Hin j ltac:(lia)) as (item' & before & Hitem' & Hm & Hbefore).
      rewrite Hitem in Hitem'. injection Hitem' as <-.
      destruct (measureItem_single_lane mo s2 before j) as (item' & Hm' & Hs);
        [by rewrite Hopt|].
      rewrite Hm in Hm'. injection Hm' as <-.
      rewrite Hs, Hbefore, Hopt by lia. done.
    - rewrite Hout in Hitem by lia.
      rewrite aget_ge in Hitem; [done|].
      unfold slice0. rewrite length_take. lia. }
  (* the slot before a recomputed index holds an item *)
  assert (Hprev : ∀ j : nat, (0 < j)%nat → (min ≤ j < min + n)%nat →
            ∃ previous, aget measurements (Z.of_nat j - 1) = Some previous).
  { intros j Hpos Hj.
    replace (Z.of_nat j - 1) with (Z.of_nat (j - 1)) by lia.
    destruct (decide (min ≤ j - 1)%nat) as [Hge|Hlt].
    - destruct (Hin (j - 1)%nat ltac:(lia)) as (previous & _ & Hp & _). eauto.
    - rewrite Hout, aget_slice0 by lia.
      apply (Hdense (j - 1)%nat). lia. }
  assert (Hsuffix : ∀ i : nat, (0 < i)%nat → (min ≤ i)%nat →
            chained g measurements i).
  { intros i Hpos Hi item Hitem.
    destruct (Hstart i item Hi Hitem) as [Hs Hlt].
    destruct (Hprev i Hpos ltac:(lia)) as [previous Hp].
    exists previous. split; [done|]. by rewrite Hs, Hp. }
  assert (Hfirst : min = 0%nat → ∀ item,
            aget measurements 0 = Some item → VirtualItem.start item = origin).
  { intros Hzero item Hitem.
    destruct (Hstart 0%nat item ltac:(lia) Hitem) as [Hs _].
    rewrite Hs. by rewrite aget_neg by lia. }
  split; [done|]. split; [done|]. split.
  - intros Hprefix i Hpos.
    destruct (decide (min ≤ i)%nat) as [Hge|Hlt]; [by apply Hsuffix|].
    intros item Hitem.
    rewrite Hout, aget_slice0, Hkept in Hitem by lia.
    destruct (Hprefix i ltac:(lia) item Hitem) as (previous & Hp & Hs).
    exists previous. split; [|done].
    replace (Z.of_nat i - 1) with (Z.of_nat (i - 1)) in * by lia.
    by rewrite Hout, aget_slice0, Hkept by lia.
  - intros Hprefix item Hitem.
    destruct (decide (min = 0%nat)) as [Hzero|Hpos]; [by apply Hfirst|].
    apply Hprefix.
    change (aget measurements (Z.of_nat 0) = Some item) in Hitem.
    change (aget cache (Z.of_nat 0) = Some item).
    by rewrite Hout, aget_slice0, Hkept in Hitem by lia.
Qed.

Lemma getMeasurements_single_lane_chain_witness :
  let mo := Sample.measurementOptions Sample.gapped in
  let s := Sample.fresh Sample.gapped in
  (Options.lanes (Virtualizer.options s) = 1 ∧ cache_wf s) ∧
  ∃ measurements s',
    Virtualizer.getMeasurements mo s = Ok (measurements, s')
    ∧ VirtualItem.start <$> omap id measurements = [0; 54; 108; 162; 216]
    ∧ (∀ i : nat, (0 < i)%nat → chained 4 measurements i)
    ∧ (∀ item, aget measurements 0 = Some item → VirtualItem.start item = 0).
Proof.
  intros mo s.
  assert (Hlanes : Options.lanes (Virtualizer.options s) = 1) by reflexivity.
  assert (Hwf : cache_wf s) by apply cache_wf_fresh.
  split; [done|].
  destruct (Virtualizer.getMeasurements mo s) as [[measurements s']| |] eqn:Hget;
    [|by vm_compute in Hget..].
  exists measurements, s'. split; [done|].
  destruct (getMeasurements_single_lane_chain mo s measurements s'
              Hlanes Hwf Hget) as (Hsuffix & Hfirst & _ & _).
  split; [|split].
  - vm_compute in Hget. injection Hget as <- _. reflexivity.
  - intros i Hi. apply Hsuffix; [done|]. simpl. lia.
  - apply Hfirst. reflexivity.
Defined.

(** *** The invariant of the cache is kept *)

Lemma furthestLoop_total lanes measurements n :
  (∀ m : nat, (m < n)%nat → is_Some (aget measurements (Z.of_nat m))) →
  ∀ found furthest,
    ∃ r, Virtualizer.furthestLoop lanes measurements n found furthest = Ok r.
Proof.
  induction n as [|n IH]; intros Hsome found furthest;
    cbn [Virtualizer.furthestLoop]; [eauto|].
  destruct (Hsome n ltac:(lia)) as [measurement ->]. simpl.
  assert (Hrest : ∀ f g, ∃ r,
    Virtualizer.furthestLoop lanes measurements n f g = Ok r).
  { intros f g. apply IH. intros m Hm. apply Hsome. lia. }
  destruct (decide (VirtualItem.lane measurement ∈ found)); [apply Hrest|].
  destruct (match mapGet furthest (VirtualItem.lane measurement) with
            | Some previous => _
            | None => _
            end) as [found' furthest'].
  destruct (decide (Z.of_nat (size found') = lanes)); [eauto|apply Hrest].
Qed.

Lemma measureItem_total mo s measurements i :
  (∀ m : nat, (m < i)%nat → is_Some (aget measurements (Z.of_nat m))) →
  ∃ item, Virtualizer.measureItem mo s measurements i = Ok item.
Proof.
  intros Hsome. unfold Virtualizer.measureItem.
  destruct (decide (Options.lanes (Virtualizer.options s) = 1)); simpl; [eauto|].
  unfold Virtualizer.getFurthestMeasurement.
  destruct (furthestLoop_total (Options.lanes (Virtualizer.options s))
              measurements i Hsome ∅ []) as [r ->]. simpl.
  destruct (decide (Z.of_nat (length r) = Options.lanes (Virtualizer.options s)));
    simpl; eauto.
Qed.

Lemma measureLoop_total mo s n : ∀ i measurements,
  dense measurements → length measurements = i →
  ∃ result,
    Virtualizer.measureLoop mo s n i measurements = Ok result ∧ dense result.
Proof.
  induction n as [|n IH]; intros i measurements Hd Hlen;
    cbn [Virtualizer.measureLoop]; [eauto|].
  destruct (measureItem_total mo s measurements i) as [item ->].
  { intros m Hm. apply Hd. lia. }
  simpl. apply IH.
  - subst i. by apply dense_aset_end.
  - rewrite length_aset. lia.
Qed.

(** A recomputation of an enabled engine returns, and leaves a well-formed
    cache behind. *)
Lemma getMeasurements_keeps_cache_wf mo s :
  MeasurementOptions.enabled mo = true →
  cache_wf s →
  ∃ measurements s',
    Virtualizer.getMeasurements mo s = Ok (measurements, s')
    ∧ dense measurements
    ∧ cache_wf s'.
Proof.
  intros Hen Hwf.
  destruct (cache_wf_prefix s Hwf) as [Hdense Hmin].
  set (s1 := Virtualizer.loadInitialMeasurements s) in *.
  set (min := Virtualizer.minPending
                (Virtualizer.pendingMeasuredCacheIndexes s1)) in *.
  set (s2 := Virtualizer.set_pendingMeasuredCacheIndexes [] s1).
  set (n := Z.to_nat (MeasurementOptions.count mo - Z.of_nat min)).
  destruct (measureLoop_total mo s2 n min
              (slice0 (Virtualizer.measurementsCache s1) min))
    as (result & Hloop & Hresult).
  { by apply dense_take. }
  { unfold slice0. rewrite length_take. lia. }
  exists result, (Virtualizer.set_measurementsCache result s2).
  split.
  { unfold Virtualizer.getMeasurements. rewrite Hen. simpl.
    fold s1. fold min. fold s2. fold n.
    change (Virtualizer.measurementsCache s2)
      with (Virtualizer.measurementsCache s1).
    by rewrite Hloop. }
  split; [done|].
  destruct (measureLoop_inv _ _ _ _ _ _ Hloop) as (Hout & Hin & _).
  split; [done|]. split; simpl.
  - intros i item Hitem.
    destruct (decide (min ≤ i)%nat) as [Hge|Hlt].
    + destruct (decide (i < min + n)%nat) as [Hlt|Hbeyond].
      * destruct (Hin i ltac:(lia)) as (item' & before & Hitem' & Hm & _).
        rewrite Hitem in Hitem'. injection Hitem' as <-.
        by apply measureItem_item_ok in Hm as (_ & ? & _).
      * rewrite Hout in Hitem by lia.
        rewrite aget_ge in Hitem; [done|].
        unfold slice0. rewrite length_take. lia.
    + rewrite Hout, aget_slice0 in Hitem by lia.
      destruct Hwf as (_ & Hindex & Hp).
      subst s1 min. unfold Virtualizer.loadInitialMeasurements in *.
      destruct (decide (length (Virtualizer.measurementsCache s) = 0%nat))
        as [Hempty|Hfull]; [|by apply Hindex].
      simpl in Hlt.
      destruct (Virtualizer.pendingMeasuredCacheIndexes s) as [|p ps];
        [simpl in Hlt; lia|].
      specialize (Hp p (list_elem_of_here _ _)). lia.
  - intros p Hp. by apply elem_of_nil in Hp.
Qed.

Lemma resizeItem_cache shouldAdjust index size s :
  let s' := fst (Virtualizer.resizeItem shouldAdjust index size s) in
  Virtualizer.measurementsCache s' = Virtualizer.measurementsCache s
  ∧ (Virtualizer.pendingMeasuredCacheIndexes s'
     = Virtualizer.pendingMeasuredCacheIndexes s
     ∨ ∃ item,
         aget (Virtualizer.measurementsCache s) index = Some item
         ∧ Virtualizer.pendingMeasuredCacheIndexes s'
           = Virtualizer.pendingMeasuredCacheIndexes s
             ++ [VirtualItem.index item]).
Proof.
  unfold Virtualizer.resizeItem.
  destruct (aget (Virtualizer.measurementsCache s) index) as [item|] eqn:Hitem;
    [|simpl; auto].
  destruct (decide (size - default (VirtualItem.size item)
                             (Virtualizer.itemSizeCache s
                                !! VirtualItem.key item) ≠ 0));
    [|simpl; auto].
  unfold Virtualizer.getScrollOffset.
  destruct (Options.enabled (Virtualizer.options s)) eqn:Hen;
    destruct shouldAdjust as [f|]; simpl;
    repeat match goal with
      | |- context [f ?a ?b ?c] => destruct (f a b c); simpl
      | |- context [bool_decide ?P] => destruct (bool_decide P); simpl
      end;
    rewrite ?Hen; simpl; eauto.
Qed.

(** [resizeItem] keeps the cache well formed. *)
Lemma resizeItem_keeps_cache_wf shouldAdjust index size s :
  cache_wf s →
  cache_wf (fst (Virtualizer.resizeItem shouldAdjust index size s)).
Proof.
  intros (Hd & Hindex & Hp).
  destruct (resizeItem_cache shouldAdjust index size s) as [Hcache Hpending].
  unfold cache_wf. rewrite Hcache. split; [done|]. split; [done|].
  destruct Hpending as [->|(item & Hitem & ->)]; [done|].
  intros p [Hp'|Hp']%elem_of_app; [by apply Hp|].
  apply list_elem_of_singleton in Hp' as ->.
  unfold aget in Hitem. destruct (decide (0 ≤ index)) as [Hi|]; [|done].
  assert (Hitem' : aget (Virtualizer.measurementsCache s)
                        (Z.of_nat (Z.to_nat index)) = Some item)
    by by rewrite aget_nat.
  rewrite (Hindex _ _ Hitem'). by eapply aget_Some_lt.
Qed.

(** ** Resizing an item *)

(** C10. For an index with no entry in the measurement cache,
    [resizeItem] changes nothing: the instance (size map, adjustments and
    cache included) is returned as it was, and neither a change
    notification nor a scroll request is emitted. *)
Theorem resizeItem_without_item
    (shouldAdjust : option (VirtualItem.t → Z → Virtualizer.t → bool))
    (index size : Z) (s : Virtualizer.t) :
  aget (Virtualizer.measurementsCache s) index = None →
  Virtualizer.resizeItem shouldAdjust index size s = (s, []).
Proof. intros Hnone. unfold Virtualizer.resizeItem. by rewrite Hnone. Qed.

Lemma resizeItem_without_item_witness :
  let s := Sample.scrolled 200 in
  (aget (Virtualizer.measurementsCache s) (-1) = None
   ∧ aget (Virtualizer.measurementsCache s) 1000 = None) ∧
  Virtualizer.resizeItem None (-1) 80 s = (s, []) ∧
  Virtualizer.resizeItem None 1000 80 s = (s, []).
Proof.
  intros s.
  assert (Hbelow : aget (Virtualizer.measurementsCache s) (-1) = None)
    by reflexivity.
  assert (Habove : aget (Virtualizer.measurementsCache s) 1000 = None)
    by (vm_compute; reflexivity).
  split; [done|]. split.
  - exact (resizeItem_without_item None (-1) 80 s Hbelow).
  - exact (resizeItem_without_item None 1000 80 s Habove).
Defined.

(** C4. When [resizeItem] is given a size that differs from the cached
    one, no override predicate is installed and the item starts before
    [currentOffset + pendingAdjustment], the pending adjustment grows by the
    size delta and one scroll request goes out, for the current offset, with
    the accumulated adjustment; the change notification follows. *)
Theorem resizeItem_compensates
    (index size : Z) (s : Virtualizer.t) (item : VirtualItem.t) :
  let cached :=
    default (VirtualItem.size item)
            (Virtualizer.itemSizeCache s !! VirtualItem.key item) in
  let currentOffset := fst (Virtualizer.getScrollOffset s) in
  let s' := fst (Virtualizer.resizeItem None index size s) in
  aget (Virtualizer.measurementsCache s) index = Some item →
  size ≠ cached →
  VirtualItem.start item < currentOffset + Virtualizer.scrollAdjustments s →
  Virtualizer.scrollAdjustments s'
  = Virtualizer.scrollAdjustments s + (size - cached)
  ∧ snd (Virtualizer.resizeItem None index size s)
    = [Virtualizer.ScrollToFn currentOffset
         (Some (Virtualizer.scrollAdjustments s + (size - cached))) None;
       Virtualizer.OnChange false]
  ∧ Virtualizer.itemSizeCache s'
    = <[VirtualItem.key item := size]> (Virtualizer.itemSizeCache s)
  ∧ Virtualizer.pendingMeasuredCacheIndexes s'
    = Virtualizer.pendingMeasuredCacheIndexes s ++ [VirtualItem.index item].
Proof.
  intros cached currentOffset s' Hitem Hsize Hbefore.
  subst s'. unfold Virtualizer.resizeItem. rewrite Hitem.
  fold cached. rewrite decide_True by lia.
  subst currentOffset. revert Hbefore.
  unfold Virtualizer.getScrollOffset.
  destruct (Options.enabled (Virtualizer.options s)) eqn:Hen; simpl;
    intros Hbefore; rewrite bool_decide_eq_true_2 by done; simpl;
    rewrite ?Hen; simpl; done.
Qed.

(** Scenario C: item 0 (50px, off screen) grows to 80px while the list is
    scrolled to 200. *)
Lemma resizeItem_compensates_witness :
  let s := Sample.scrolled 200 in
  (aget (Virtualizer.measurementsCache s) 0 = Some (Sample.row 0)
   ∧ 80 ≠ 50
   ∧ VirtualItem.start (Sample.row 0) < 200 + Virtualizer.scrollAdjustments s) ∧
  Virtualizer.scrollAdjustments (fst (Virtualizer.resizeItem None 0 80 s))
  = Virtualizer.scrollAdjustments s + 30
  ∧ snd (Virtualizer.resizeItem None 0 80 s)
    = [Virtualizer.ScrollToFn 200 (Some 30) None; Virtualizer.OnChange false].
Proof.
  intros s.
  assert (Hitem : aget (Virtualizer.measurementsCache s) 0
                  = Some (Sample.row 0)) by reflexivity.
  assert (Hsize : 80 ≠ 50) by lia.
  assert (Hbefore : VirtualItem.start (Sample.row 0)
                    < 200 + Virtualizer.scrollAdjustments s) by (simpl; lia).
  split; [done|].
  destruct (resizeItem_compensates 0 80 s (Sample.row 0) Hitem Hsize Hbefore)
    as (Hadj & Hreq & _).
  split; [exact Hadj | exact Hreq].
Defined.

(** The other branch: an item that starts at or after the effective offset
    is resized without any scroll request. *)
Lemma resizeItem_on_screen (index size : Z) (s : Virtualizer.t) item :
  let cached :=
    default (VirtualItem.size item)
            (Virtualizer.itemSizeCache s !! VirtualItem.key item) in
  aget (Virtualizer.measurementsCache s) index = Some item →
  size ≠ cached →
  ¬ VirtualItem.start item
    < fst (Virtualizer.getScrollOffset s) + Virtualizer.scrollAdjustments s →
  snd (Virtualizer.resizeItem None index size s) = [Virtualizer.OnChange false]
  ∧ Virtualizer.scrollAdjustments (fst (Virtualizer.resizeItem None index size s))
    = Virtualizer.scrollAdjustments s.
Proof.
  intros cached Hitem Hsize. unfold Virtualizer.resizeItem. rewrite Hitem.
  fold cached. rewrite decide_True by lia.
  unfold Virtualizer.getScrollOffset.
  destruct (Options.enabled (Virtualizer.options s)) eqn:Hen; simpl;
    intros Hafter; rewrite bool_decide_eq_false_2 by done; done.
Qed.

(** ** The scroll-position controller *)

(** Runs the getters of an instance whose [enabled] flag is known by [H]. *)
Ltac run_getters H := repeat (progress (simpl; rewrite ?H)).

(** Against C6 as it is worded. At the lower end of the list a step of -10
    from offset 0 is requested by [scrollBy] as it is, where
    [scrollToOffset] asks for offset 0: the two requests differ. *)
Lemma scrollBy_differs_from_scrollToOffset :
  let s := Sample.scrolled 0 in
  let currentOffset := fst (Virtualizer.getScrollOffset s) in
  snd (Virtualizer.scrollBy (-10) None s)
    = [Virtualizer.ScrollToFn (-10) None None]
  ∧ snd (Virtualizer.scrollToOffset (currentOffset + -10) (Some AlignStart)
           None s)
    = [Virtualizer.ScrollToFn 0 None None]
  ∧ snd (Virtualizer.scrollBy (-10) None s)
    ≠ snd (Virtualizer.scrollToOffset (currentOffset + -10) (Some AlignStart)
             None s).
Proof. intros s currentOffset. repeat split. by intros [=]. Qed.

(** C6, as the code has it. [scrollBy(delta, { behavior })] requests
    [currentOffset + delta] as it is; [scrollToOffset(currentOffset + delta,
    { align: 'start', behavior })] requests that target clamped into
    [[0, scrollSize - viewportSize]]. The two requests are the same exactly
    when the target is 0 or lies in that interval. *)
Theorem scrollBy_scrollToOffset
    (delta : Z) (behavior : option ScrollBehavior) (s : Virtualizer.t) :
  let currentOffset := fst (Virtualizer.getScrollOffset s) in
  let target := currentOffset + delta in
  let viewportSize := fst (Virtualizer.getSize s) in
  let scrollSize :=
    match Virtualizer.scrollElement s with
    | Some element =>
        if Options.horizontal (Virtualizer.options s)
        then ScrollElement.scrollWidth element
        else ScrollElement.scrollHeight element
    | None => 0
    end in
  let cancelled := snd (Virtualizer.cancelScrollToIndex s) in
  snd (Virtualizer.scrollBy delta behavior s)
    = cancelled ++ [Virtualizer.ScrollToFn target None behavior]
  ∧ snd (Virtualizer.scrollToOffset target (Some AlignStart) behavior s)
    = cancelled
      ++ [Virtualizer.ScrollToFn
            (Z.max (Z.min (scrollSize - viewportSize) target) 0) None behavior]
  ∧ (snd (Virtualizer.scrollBy delta behavior s)
     = snd (Virtualizer.scrollToOffset target (Some AlignStart) behavior s)
     ↔ target = 0 ∨ 0 ≤ target ≤ scrollSize - viewportSize).
Proof.
  intros currentOffset target viewportSize scrollSize cancelled.
  assert (Hby : snd (Virtualizer.scrollBy delta behavior s)
                = cancelled ++ [Virtualizer.ScrollToFn target None behavior]).
  { subst cancelled target currentOffset.
    unfold Virtualizer.scrollBy, Virtualizer.cancelScrollToIndex,
      Virtualizer.getScrollOffset.
    destruct (Virtualizer.scrollToIndexTimeoutId s) as [id|],
      (Virtualizer.targetWindow s),
      (Options.enabled (Virtualizer.options s)) eqn:Hen;
      run_getters Hen; reflexivity. }
  assert (Hto : snd (Virtualizer.scrollToOffset target (Some AlignStart)
                       behavior s)
                = cancelled
                  ++ [Virtualizer.ScrollToFn
                        (Z.max (Z.min (scrollSize - viewportSize) target) 0)
                        None behavior]).
  { subst cancelled target currentOffset viewportSize scrollSize.
    unfold Virtualizer.scrollToOffset, Virtualizer.cancelScrollToIndex,
      Virtualizer.getOffsetForAlignment, Virtualizer.getSize,
      Virtualizer.getScrollOffset.
    destruct (Virtualizer.scrollToIndexTimeoutId s) as [id|],
      (Virtualizer.targetWindow s),
      (Options.enabled (Virtualizer.options s)) eqn:Hen;
      run_getters Hen; rewrite Math_clamp_whole; reflexivity. }
  split; [done|]. split; [done|].
  rewrite Hby, Hto. split.
  - intros Heq. apply app_inv_head in Heq. injection Heq as Heq. lia.
  - intros Hrange. do 4 f_equal. lia.
Qed.

(** Inside the scrollable interval the two calls do issue one and the same
    request: 100 further from offset 200. *)
Lemma scrollBy_scrollToOffset_witness :
  let s := Sample.scrolled 200 in
  snd (Virtualizer.scrollBy 100 None s)
  = snd (Virtualizer.scrollToOffset 300 (Some AlignStart) None s)
  ∧ snd (Virtualizer.scrollBy 100 None s)
    = [Virtualizer.ScrollToFn 300 None None].
Proof.
  intros s.
  destruct (scrollBy_scrollToOffset 100 None s) as (Hby & _ & Hiff).
  split; [|exact Hby].
  apply Hiff. right. simpl. lia.
Defined.




(** ** [memo] *)

Section memo_facts.

Context {D R : Type} (strictNe : D → D → bool) (fn : list D → R).

Lemma depsChanged_identical (newDeps deps0 : list D) :
  length newDeps = length deps0 →
  (∀ (i : nat) a b,
     deps0 !! i = Some a → newDeps !! i = Some b → strictNe a b = false) →
  Memo.depsChanged strictNe newDeps deps0 = false.
Proof.
  intros Hlen Hsame. unfold Memo.depsChanged.
  rewrite bool_decide_eq_true_2 by done. simpl.
  apply not_true_is_false. intros Hex.
  apply existsb_exists in Hex as ([b a] & Hin & Hne). simpl in Hne.
  apply list_elem_of_In, list_elem_of_lookup in Hin as [i Hi].
  apply lookup_zip_with_Some in Hi as (b' & a' & [= <- <-] & Hb & Ha).
  rewrite (Hsame i a b Ha Hb) in Hne. done.
Qed.

(** C9. A memoized function built with an explicit [initialDeps]: when
    the first call finds a dependency tuple of the same length whose
    elements are all identical ([!==] is false) to those of [initialDeps],
    the compute function is not run, [undefined] is returned, and the
    closure is left as it was, so that further calls with such a tuple
    fare the same. *)
Theorem memo_initialDeps_skips_compute
    (hasOnChange : bool) (initialDeps newDeps : list D) :
  length newDeps = length initialDeps →
  (∀ (i : nat) a b,
     initialDeps !! i = Some a → newDeps !! i = Some b →
     strictNe a b = false) →
  Memo.memoizedFunction strictNe fn hasOnChange
    (Memo.memo (Some initialDeps)) newDeps
  = (None, Memo.memo (Some initialDeps), [])
  ∧ ∀ n : nat,
      Memo.calls strictNe fn hasOnChange (Memo.memo (Some initialDeps))
        (replicate n newDeps)
      = (replicate n None, Memo.memo (Some initialDeps), []).
Proof.
  intros Hlen Hsame.
  assert (Hfirst : Memo.memoizedFunction strictNe fn hasOnChange
                     (Memo.memo (Some initialDeps)) newDeps
                   = (None, Memo.memo (Some initialDeps), [])).
  { unfold Memo.memoizedFunction. simpl.
    by rewrite depsChanged_identical. }
  split; [done|].
  induction n as [|n IH]; [done|].
  cbn [replicate Memo.calls]. by rewrite Hfirst, IH.
Qed.

(** Whatever a call returns is what the closure then holds: the stored
    result, or the value just computed. *)
Lemma memoizedFunction_result (hasOnChange : bool) (st : Memo.state)
    (newDeps : list D) :
  let out := Memo.memoizedFunction strictNe fn hasOnChange st newDeps in
  Memo.result (snd (fst out)) = fst (fst out)
  ∧ (fst (fst out) = Memo.result st ∨ fst (fst out) = Some (fn newDeps)).
Proof.
  unfold Memo.memoizedFunction.
  destruct (negb (Memo.depsChanged strictNe newDeps (Memo.deps st)));
    simpl; auto.
Qed.

(** A tuple that differs makes the call compute. *)
Lemma memo_computes_on_change (hasOnChange : bool) (st : Memo.state)
    (newDeps : list D) :
  Memo.depsChanged strictNe newDeps (Memo.deps st) = true →
  Memo.memoizedFunction strictNe fn hasOnChange st newDeps
  = (Some (fn newDeps), Memo.State newDeps (Some (fn newDeps)),
     Memo.Computed newDeps
     :: (if hasOnChange then [Memo.Changed (fn newDeps)] else [])).
Proof. intros Hch. unfold Memo.memoizedFunction. by rewrite Hch. Qed.

End memo_facts.

(** The dependency tuple of [maybeNotify], [[isScrolling, startIndex,
    endIndex]] with [null] for no range, as it stands in a new instance. *)
Lemma memo_initialDeps_skips_compute_witness :
  let strictNe := λ a b : option Z, negb (bool_decide (a = b)) in
  let fn := λ deps : list (option Z), length deps in
  let initialDeps := [Some 0; None; None] in
  (length [Some 0; None; None] = length initialDeps
   ∧ ∀ (i : nat) a b,
       initialDeps !! i = Some a → [Some 0; None; None] !! i = Some b →
       strictNe a b = false) ∧
  Memo.memoizedFunction strictNe fn true (Memo.memo (Some initialDeps))
    [Some 0; None; None]
  = (None, Memo.memo (Some initialDeps), []).
Proof.
  intros strictNe fn initialDeps.
  assert (Hlen : length [Some 0; None; None] = length initialDeps)
    by reflexivity.
  assert (Hsame : ∀ (i : nat) a b,
            initialDeps !! i = Some a → [Some 0; None; None] !! i = Some b →
            strictNe a b = false).
  { intros i a b Ha Hb. unfold initialDeps in Ha. rewrite Ha in Hb.
    injection Hb as <-. unfold strictNe.
    by rewrite bool_decide_eq_true_2. }
  split; [done|].
  exact (proj1 (memo_initialDeps_skips_compute strictNe fn true initialDeps
                  [Some 0; None; None] Hlen Hsame)).
Defined.

(** ** Scenario A, end to end *)

(** A new instance over a thousand rows of 50px: the measurements are
    computed, the viewport of 500px at offset 0 covers the rows 0 to 9, and
    an overscan of one gives the indices 0 to 10. *)
Example scenario_A :
  let o := Sample.options in
  (computed ← Virtualizer.getMeasurements (Sample.measurementOptions o)
                (Sample.fresh o);
   ranged ← Virtualizer.calculateRange 1000 (fst computed) 500 0
              (Options.lanes o) (snd computed);
   Ok (length (fst computed), fst ranged))
  = Ok (1000%nat, Some (Visible.mk 0 9))
  ∧ Virtualizer.getVirtualIndexes defaultRangeExtractor
      (Options.overscan o) (Options.count o) (Some 0) (Some 9)
    = [0; 1; 2; 3; 4; 5; 6; 7; 8; 9; 10].
Proof. split; vm_compute; reflexivity. Qed.

(** * Further properties *)

(** ** Binary search, whatever the order of the values *)

(** Every move of [low] is past a value below the target. *)
Lemma findNearestBinarySearch_low_inv fuel : ∀ low high getCurrentValue value idx,
  findNearestBinarySearch fuel low high getCurrentValue value = Ok idx →
  (low ≤ 0 ∨ ∃ v, getCurrentValue (low - 1) = Ok v ∧ v < value) →
  idx = 0 ∨ ∃ v, getCurrentValue idx = Ok v ∧ v ≤ value.
Proof.
  induction fuel as [|fuel IH]; intros low high get value idx;
    cbn [findNearestBinarySearch];
    (destruct (decide (low ≤ high)) as [Hle|Hgt];
     [| destruct (decide (low > 0)); intros [= <-] [Hlow|(v & Hv & Hlt)];
        try lia; eauto with lia ]).
  - done.
  - set (middle := toInt32 ((low + high) `quot` 2)).
    destruct (get middle) as [v| |] eqn:Hv; simpl; [|done..].
    destruct (decide (v < value)) as [Hlt|Hnlt].
    + intros Hrec _. apply (IH _ _ _ _ _ Hrec). right. exists v.
      replace (middle + 1 - 1) with middle by lia. done.
    + destruct (decide (v > value)) as [Hvgt|Hngt].
      * intros Hrec Hinv. by apply (IH _ _ _ _ _ Hrec).
      * intros [= <-] _. right. exists v. split; [done|lia].
Qed.

(** The search never lands above the target: whatever the order of the
    values, and whatever the getter does, an index it returns is 0 or holds
    a value that is at most the target. *)
Theorem findNearestBinarySearch_never_above
    (fuel : nat) (high : Z) (getCurrentValue : Z → outcome Z) (value idx : Z) :
  findNearestBinarySearch fuel 0 high getCurrentValue value = Ok idx →
  idx = 0 ∨ ∃ v, getCurrentValue idx = Ok v ∧ v ≤ value.
Proof.
  intros Hidx. apply (findNearestBinarySearch_low_inv _ _ _ _ _ _ Hidx).
  left. lia.
Qed.

(** An unsorted sequence: the search for 7 in [[9, 1, 8, 2]] ends on index 1,
    which holds 1. *)
Lemma findNearestBinarySearch_never_above_witness :
  findNearestBinarySearch 4 0 3 (valueAt [9; 1; 8; 2]) 7 = Ok 1
  ∧ (1 = 0 ∨ ∃ v, valueAt [9; 1; 8; 2] 1 = Ok v ∧ v ≤ 7).
Proof.
  assert (H : findNearestBinarySearch 4 0 3 (valueAt [9; 1; 8; 2]) 7 = Ok 1)
    by reflexivity.
  split; [exact H|].
  exact (findNearestBinarySearch_never_above 4 3 (valueAt [9; 1; 8; 2]) 7 1 H).
Defined.

(** ** Binary search for a value that is there *)

Lemma findNearestBinarySearch_hit values value fuel : ∀ low high idx,
  ascending values →
  Z.of_nat (length values) < 2 ^ 31 →
  0 ≤ low → low ≤ high + 1 → high < Z.of_nat (length values) →
  (∀ (j : nat) w, values !! j = Some w → Z.of_nat j < low → w < value) →
  (∀ (j : nat) w, values !! j = Some w → high < Z.of_nat j → value < w) →
  findNearestBinarySearch fuel low high (valueAt values) value = Ok idx →
  (0 ≤ idx ∧ values !! Z.to_nat idx = Some value) ∨ value ∉ values.
Proof.
  intros low high idx Hasc Hlen. revert low high.
  induction fuel as [|fuel IH]; intros low high Hlow Hlh Hhigh Hbelow Habove;
    cbn [findNearestBinarySearch];
    (destruct (decide (low ≤ high)) as [Hle|Hgt];
     [| intros _; right; intros [j Hj]%list_elem_of_lookup;
        destruct (Z_lt_le_dec (Z.of_nat j) low) as [Hjl|Hjl];
        [ specialize (Hbelow j value Hj Hjl); lia
        | specialize (Habove j value Hj ltac:(lia)); lia ] ]).
  - done.
  - pose proof (middle_bounds low high Hlow Hle ltac:(lia)) as Hmid.
    set (middle := toInt32 ((low + high) `quot` 2)) in *.
    destruct (valueAt_lookup values middle ltac:(lia)) as (v & Hlk & Hv).
    rewrite Hv, bind_Ok.
    destruct (decide (v < value)) as [Hlt|Hnlt].
    + apply IH; [lia|lia|lia| |done].
      intros j w Hj Hjm.
      assert (w ≤ v) by (apply (Hasc j (Z.to_nat middle) w v); auto; lia).
      lia.
    + destruct (decide (v > value)) as [Hvgt|Hngt].
      * apply IH; [lia|lia|lia|done|].
        intros j w Hj Hjm.
        assert (v ≤ w) by (apply (Hasc (Z.to_nat middle) j v w); auto; lia).
        lia.
      * intros [= <-]. left. split; [lia|]. rewrite Hlk. f_equal. lia.
Qed.

(** Over an ascending sequence that holds the target, the search returns
    an index at which the target stands. *)
Theorem findNearestBinarySearch_finds
    (values : list Z) (value : Z) (fuel : nat) :
  ascending values →
  value ∈ values →
  Z.of_nat (length values) < 2 ^ 31 →
  (length values ≤ fuel)%nat →
  ∃ idx,
    findNearestBinarySearch fuel 0 (Z.of_nat (length values) - 1)
      (valueAt values) value = Ok idx
    ∧ 0 ≤ idx
    ∧ values !! Z.to_nat idx = Some value.
Proof.
  intros Hasc Hin Hlen Hfuel.
  destruct (findNearestBinarySearch_bounds fuel 0
              (Z.of_nat (length values) - 1) (valueAt values) value)
    as (idx & Hidx & _); try lia.
  { intros i Hi.
    destruct (valueAt_lookup values i ltac:(lia)) as (v & _ & Hv). eauto. }
  exists idx. split; [done|].
  destruct (findNearestBinarySearch_hit values value fuel 0
              (Z.of_nat (length values) - 1) idx Hasc Hlen)
    as [Hhit|Hmiss]; try done; try lia.
  intros j w Hj Hhigh. apply lookup_lt_Some in Hj. lia.
Qed.

Lemma findNearestBinarySearch_finds_witness :
  let values := [0; 10; 20; 30] in
  (ascending values ∧ 20 ∈ values ∧ Z.of_nat (length values) < 2 ^ 31
   ∧ (length values ≤ 4)%nat) ∧
  ∃ idx,
    findNearestBinarySearch 4 0 3 (valueAt values) 20 = Ok idx
    ∧ 0 ≤ idx
    ∧ values !! Z.to_nat idx = Some 20.
Proof.
  intros values.
  assert (Hasc : ascending values).
  { apply StronglySorted_ascending. unfold values.
    repeat (constructor; [|repeat constructor; lia]). constructor. }
  assert (Hin : 20 ∈ values)
    by (unfold values; rewrite !elem_of_cons; auto).
  assert (Hlen : Z.of_nat (length values) < 2 ^ 31) by (simpl; lia).
  assert (Hfuel : (length values ≤ 4)%nat) by (simpl; lia).
  split; [done|].
  exact (findNearestBinarySearch_finds values 20 4 Hasc Hin Hlen Hfuel).
Defined.

(** ** [memo]: what a cache hit is worth *)

Section memo_cache.

Context {D R : Type} (strictNe : D → D → bool) (fn : list D → R).

Lemma depsChanged_same (tuple : list D) :
  self_identical strictNe tuple →
  Memo.depsChanged strictNe tuple tuple = false.
Proof.
  intros Hself. apply depsChanged_identical; [done|].
  intros i a b Ha Hb. rewrite Ha in Hb. injection Hb as <-.
  apply Hself, list_elem_of_lookup. eauto.
Qed.

Lemma depsChanged_false_eq (newDeps deps0 : list D) :
  (∀ a b, strictNe a b = false → a = b) →
  Memo.depsChanged strictNe newDeps deps0 = false → newDeps = deps0.
Proof.
  intros Hsound. unfold Memo.depsChanged.
  intros [Hlen Hex]%orb_false_iff.
  apply negb_false_iff, bool_decide_eq_true in Hlen.
  apply list_eq_same_length with (length deps0); [done..|].
  intros i b a Hi Hb Ha.
  symmetry. apply Hsound. apply not_true_is_false. intros Hne.
  apply not_true_iff_false in Hex. apply Hex.
  apply existsb_exists. exists (b, a). split; [|done].
  apply list_elem_of_In, list_elem_of_lookup. exists i.
  apply lookup_zip_with_Some. eauto.
Qed.

(** The memoized function is transparent. If being identical implies being
    equal, and the closure holds the result of [fn] on the tuple it has
    stored, then a call returns what [fn] gives on the tuple of that call,
    computed or not, and the closure holds it again. *)
Theorem memoizedFunction_transparent
    (hasOnChange : bool) (st : Memo.state) (newDeps : list D) :
  (∀ a b, strictNe a b = false → a = b) →
  Memo.result st = Some (fn (Memo.deps st)) →
  let out := Memo.memoizedFunction strictNe fn hasOnChange st newDeps in
  fst (fst out) = Some (fn newDeps)
  ∧ Memo.result (snd (fst out)) = Some (fn (Memo.deps (snd (fst out)))).
Proof.
  intros Hsound Hst. unfold Memo.memoizedFunction.
  destruct (Memo.depsChanged strictNe newDeps (Memo.deps st)) eqn:Hch; simpl.
  - done.
  - apply depsChanged_false_eq in Hch as ->; done.
Qed.

(** A second call with the tuple of the first one computes nothing: it
    returns what the first call returned, calls neither [fn] nor
    [onChange], and leaves the closure alone. *)
Theorem memoizedFunction_second_call
    (hasOnChange : bool) (st : Memo.state) (tuple : list D) :
  self_identical strictNe tuple →
  let first := Memo.memoizedFunction strictNe fn hasOnChange st tuple in
  Memo.memoizedFunction strictNe fn hasOnChange (snd (fst first)) tuple
  = (fst (fst first), snd (fst first), []).
Proof.
  intros Hself. unfold Memo.memoizedFunction.
  destruct (Memo.depsChanged strictNe tuple (Memo.deps st)) eqn:Hch; simpl.
  - by rewrite depsChanged_same.
  - by rewrite Hch.
Qed.

(** [updateDeps] silences the next call: after [updateDeps(tuple)], a call
    that finds [tuple] again returns the result stored before, whatever [fn]
    would give on [tuple], and runs nothing. *)
Theorem updateDeps_silences
    (hasOnChange : bool) (st : Memo.state) (tuple : list D) :
  self_identical strictNe tuple →
  Memo.memoizedFunction strictNe fn hasOnChange (Memo.updateDeps st tuple) tuple
  = (Memo.result st, Memo.updateDeps st tuple, []).
Proof.
  intros Hself. unfold Memo.memoizedFunction, Memo.updateDeps. simpl.
  by rewrite depsChanged_same.
Qed.

End memo_cache.

Lemma sampleNe_sound a b : sampleNe a b = false → a = b.
Proof.
  unfold sampleNe. intros H%negb_false_iff. by apply bool_decide_eq_true in H.
Qed.

Lemma sampleNe_self tuple : self_identical sampleNe tuple.
Proof.
  intros x _. unfold sampleNe. by rewrite bool_decide_eq_true_2.
Qed.

(** A closure that holds [fn [1; 2]] is asked for [[1; 2]] and for [[3]]. *)
Lemma memoizedFunction_transparent_witness :
  let fn := λ deps : list (option Z), length deps in
  let st := Memo.State [Some 1; Some 2] (Some 2%nat) in
  ((∀ a b, sampleNe a b = false → a = b)
   ∧ Memo.result st = Some (fn (Memo.deps st))) ∧
  fst (fst (Memo.memoizedFunction sampleNe fn true st [Some 1; Some 2]))
  = Some 2%nat
  ∧ fst (fst (Memo.memoizedFunction sampleNe fn true st [Some 3]))
    = Some 1%nat.
Proof.
  intros fn st.
  assert (Hst : Memo.result st = Some (fn (Memo.deps st))) by reflexivity.
  split; [split; [exact sampleNe_sound | exact Hst]|].
  split.
  - exact (proj1 (memoizedFunction_transparent sampleNe fn true st
                    [Some 1; Some 2] sampleNe_sound Hst)).
  - exact (proj1 (memoizedFunction_transparent sampleNe fn true st
                    [Some 3] sampleNe_sound Hst)).
Defined.

Lemma memoizedFunction_second_call_witness :
  let fn := λ deps : list (option Z), length deps in
  let st := Memo.memo None in
  self_identical sampleNe [Some 1; Some 2] ∧
  Memo.memoizedFunction sampleNe fn true st [Some 1; Some 2]
  = (Some 2%nat, Memo.State [Some 1; Some 2] (Some 2%nat),
     [Memo.Computed [Some 1; Some 2]; Memo.Changed 2%nat])
  ∧ Memo.memoizedFunction sampleNe fn true
      (Memo.State [Some 1; Some 2] (Some 2%nat)) [Some 1; Some 2]
    = (Some 2%nat, Memo.State [Some 1; Some 2] (Some 2%nat), []).
Proof.
  intros fn st.
  split; [apply sampleNe_self|]. split; [reflexivity|].
  exact (memoizedFunction_second_call sampleNe fn true st [Some 1; Some 2]
           (sampleNe_self _)).
Defined.

(** The stale answer: the closure holds [fn [1] = 1]; after
    [updateDeps([1; 2])] a call on [[1; 2]] still answers 1. *)
Lemma updateDeps_silences_witness :
  let fn := λ deps : list (option Z), length deps in
  let st := Memo.State [Some 1] (Some 1%nat) in
  self_identical sampleNe [Some 1; Some 2] ∧
  Memo.memoizedFunction sampleNe fn true
    (Memo.updateDeps st [Some 1; Some 2]) [Some 1; Some 2]
  = (Some 1%nat, Memo.State [Some 1; Some 2] (Some 1%nat), []).
Proof.
  intros fn st.
  split; [apply sampleNe_self|].
  exact (updateDeps_silences sampleNe fn true st [Some 1; Some 2]
           (sampleNe_self _)).
Defined.

(** ** The measurement cache, item by item *)

(** The size an item gets: the measured one if its key has one, the
    estimate otherwise. *)
Lemma measureItem_size mo s measurements i item :
  Virtualizer.measureItem mo s measurements i = Ok item →
  VirtualItem.size item =
    default (Options.estimateSize (Virtualizer.options s) i)
            (Virtualizer.itemSizeCache s !! MeasurementOptions.getItemKey mo i).
Proof.
  unfold Virtualizer.measureItem.
  destruct (if decide (Options.lanes (Virtualizer.options s) = 1)
            then Ok (aget measurements (Z.of_nat i - 1))
            else Virtualizer.getFurthestMeasurement
                   (Options.lanes (Virtualizer.options s)) measurements i)
    as [furthest| |]; simpl; [|done..].
  intros [= <-]. simpl.
  by destruct (Virtualizer.itemSizeCache s !! MeasurementOptions.getItemKey mo i).
Qed.

(** The backward scan reads nothing but the slots below its start. *)
Lemma furthestLoop_ext lanes a b n :
  (∀ m : nat, (m < n)%nat → aget a (Z.of_nat m) = aget b (Z.of_nat m)) →
  ∀ found furthest,
    Virtualizer.furthestLoop lanes a n found furthest
    = Virtualizer.furthestLoop lanes b n found furthest.
Proof.
  induction n as [|n IH]; intros Hsame found furthest;
    cbn [Virtualizer.furthestLoop]; [done|].
  rewrite (Hsame n) by lia.
  destruct (aget b (Z.of_nat n)) as [measurement|]; simpl; [|done].
  assert (Hrest : ∀ f g,
    Virtualizer.furthestLoop lanes a n f g
    = Virtualizer.furthestLoop lanes b n f g).
  { intros f g. apply IH. intros m Hm. apply Hsame. lia. }
  destruct (decide (VirtualItem.lane measurement ∈ found)); [apply Hrest|].
  destruct (match mapGet furthest (VirtualItem.lane measurement) with
            | Some previous => _
            | None => _
            end) as [found' furthest'].
  destruct (decide (Z.of_nat (size found') = lanes)); [done|apply Hrest].
Qed.

(** An item depends on the slots below its index only. *)
Lemma measureItem_ext mo s a b i :
  (∀ k : Z, k < Z.of_nat i → aget a k = aget b k) →
  Virtualizer.measureItem mo s a i = Virtualizer.measureItem mo s b i.
Proof.
  intros Hsame. unfold Virtualizer.measureItem.
  rewrite (Hsame (Z.of_nat i - 1)) by lia.
  unfold Virtualizer.getFurthestMeasurement.
  rewrite (furthestLoop_ext _ a b i); [done|].
  intros m Hm. apply Hsame. lia.
Qed.

(** A recomputation in full: it returns a sequence without holes that keeps
    the cache below the lowest dirty index and holds, from there on, the
    item computed from the sequence itself; nothing but the cache and the
    list of dirty indices changes in the instance. *)
Lemma getMeasurements_spec mo s :
  MeasurementOptions.enabled mo = true →
  cache_wf s →
  let min := Virtualizer.minPending (Virtualizer.pendingMeasuredCacheIndexes s) in
  let s2 := Virtualizer.set_pendingMeasuredCacheIndexes []
              (Virtualizer.loadInitialMeasurements s) in
  ∃ measurements,
    Virtualizer.getMeasurements mo s
    = Ok (measurements, Virtualizer.set_measurementsCache measurements s2)
    ∧ dense measurements
    ∧ Z.of_nat (length measurements)
      = Z.max (MeasurementOptions.count mo) (Z.of_nat min)
    ∧ (∀ j : nat, (j < min)%nat →
         aget measurements (Z.of_nat j)
         = aget (Virtualizer.measurementsCache s) (Z.of_nat j))
    ∧ (∀ j : nat, (min ≤ j)%nat → Z.of_nat j < MeasurementOptions.count mo →
         ∃ item,
           aget measurements (Z.of_nat j) = Some item
           ∧ Virtualizer.measureItem mo s2 measurements j = Ok item).
Proof.
  intros Hen Hwf min s2.
  destruct (getMeasurements_keeps_cache_wf mo s Hen Hwf)
    as (measurements & s' & Hget & Hdense & _).
  destruct (getMeasurements_enabled mo s measurements s' Hen Hget)
    as [Hloop ->].
  destruct (cache_wf_prefix s Hwf) as [_ Hmin].
  rewrite pending_loadInitialMeasurements in Hloop, Hmin.
  fold min in Hloop, Hmin. fold s2 in Hloop. fold s2 in Hget.
  exists measurements. split; [done|]. split; [done|].
  destruct (measureLoop_inv _ _ _ _ _ _ Hloop) as (Hout & Hin & Hlen).
  split; [|split].
  - rewrite Hlen. unfold slice0. rewrite length_take.
    destruct (Z.to_nat (MeasurementOptions.count mo - Z.of_nat min)) eqn:Hn; lia.
  - intros j Hj. rewrite Hout, aget_slice0 by lia.
    by apply cache_wf_kept_prefix.
  - intros j Hj Hcount.
    destruct (Hin j ltac:(lia)) as (item & before & Hitem & Hm & Hbefore).
    exists item. split; [done|].
    rewrite <- Hm. symmetry. by apply measureItem_ext.
Qed.

(** A recomputation returns a sequence without holes of [count] items, or
    of as many items as the lowest dirty index says when that is more: the
    prefix below the lowest dirty index is kept whatever [count] is. *)
Theorem getMeasurements_length (mo : MeasurementOptions.t) (s : Virtualizer.t) :
  MeasurementOptions.enabled mo = true →
  cache_wf s →
  ∃ measurements s',
    Virtualizer.getMeasurements mo s = Ok (measurements, s')
    ∧ dense measurements
    ∧ Z.of_nat (length measurements)
      = Z.max (MeasurementOptions.count mo)
              (Z.of_nat (Virtualizer.minPending
                           (Virtualizer.pendingMeasuredCacheIndexes s))).
Proof.
  intros Hen Hwf.
  destruct (getMeasurements_spec mo s Hen Hwf)
    as (measurements & Hget & Hdense & Hlen & _).
  eauto.
Qed.

Lemma getMeasurements_length_witness :
  let mo := Sample.measurementOptions Sample.gapped in
  let s := Sample.fresh Sample.gapped in
  (MeasurementOptions.enabled mo = true ∧ cache_wf s) ∧
  ∃ measurements s',
    Virtualizer.getMeasurements mo s = Ok (measurements, s')
    ∧ dense measurements
    ∧ Z.of_nat (length measurements) = 5.
Proof.
  intros mo s.
  assert (Hen : MeasurementOptions.enabled mo = true) by reflexivity.
  assert (Hwf : cache_wf s) by apply cache_wf_fresh.
  split; [done|].
  exact (getMeasurements_length mo s Hen Hwf).
Defined.

(** ** Lanes *)

Lemma length_mapSet {K A : Type} `{EqDecision K} (m : list (K * A)) k v :
  (length (mapSet m k v) ≤ S (length m))%nat.
Proof.
  induction m as [|[k' v'] m IH]; simpl; [lia|].
  destruct (decide (k' = k)); simpl; lia.
Qed.

Lemma elem_of_mapSet {K A : Type} `{EqDecision K} (m : list (K * A)) k v x :
  x ∈ snd <$> mapSet m k v → x = v ∨ x ∈ snd <$> m.
Proof.
  induction m as [|[k' v'] m IH]; simpl.
  - intros ->%list_elem_of_singleton. by left.
  - destruct (decide (k' = k)); simpl; rewrite !elem_of_cons;
      intros [->|Hx]; auto.
    destruct (IH Hx); auto.
Qed.

Lemma elem_of_insertBy {A : Type} (cmp : A → A → Z) x l y :
  y ∈ insertBy cmp x l → y = x ∨ y ∈ l.
Proof.
  induction l as [|z l IH]; simpl.
  - intros ->%list_elem_of_singleton. by left.
  - destruct (decide (cmp x z ≤ 0)); rewrite !elem_of_cons;
      intros [->|Hy]; auto.
    destruct (IH Hy); auto.
Qed.

Lemma elem_of_sortBy {A : Type} (cmp : A → A → Z) l y :
  y ∈ sortBy cmp l → y ∈ l.
Proof.
  unfold sortBy. induction l as [|x l IH]; simpl; [done|].
  intros [->|Hy]%elem_of_insertBy; [apply list_elem_of_here|].
  apply list_elem_of_further, IH, Hy.
Qed.

(** The scan collects at most one candidate per round, and candidates are
    measurements it has read. *)
Lemma furthestLoop_candidates lanes measurements n :
  ∀ found furthest r,
    Virtualizer.furthestLoop lanes measurements n found furthest = Ok r →
    (length r ≤ length furthest + n)%nat
    ∧ ∀ x, x ∈ snd <$> r →
        x ∈ snd <$> furthest
        ∨ ∃ m : nat, (m < n)%nat ∧ aget measurements (Z.of_nat m) = Some x.
Proof.
  induction n as [|n IH]; intros found furthest r;
    cbn [Virtualizer.furthestLoop].
  - intros [= <-]. split; [lia|auto].
  - destruct (aget measurements (Z.of_nat n)) as [measurement|] eqn:Hm;
      simpl; [|done].
    assert (Hrest : ∀ f g r',
      (length g ≤ S (length furthest))%nat →
      (∀ x, x ∈ snd <$> g → x = measurement ∨ x ∈ snd <$> furthest) →
      Virtualizer.furthestLoop lanes measurements n f g = Ok r' →
      (length r' ≤ length furthest + S n)%nat
      ∧ ∀ x, x ∈ snd <$> r' →
          x ∈ snd <$> furthest
          ∨ ∃ m : nat, (m < S n)%nat ∧ aget measurements (Z.of_nat m) = Some x).
    { intros f g r' Hlen Hg Hloop.
      destruct (IH _ _ _ Hloop) as [Hl Hx]. split; [lia|].
      intros x Hin. destruct (Hx x Hin) as [Hxg|(m & Hmn & Hxm)].
      - destruct (Hg x Hxg) as [->|]; [|by left].
        right. exists n. split; [lia|done].
      - right. exists m. split; [lia|done]. }
    assert (Hstop : ∀ g : list (Z * VirtualItem.t),
      (length g ≤ S (length furthest))%nat →
      (∀ x, x ∈ snd <$> g → x = measurement ∨ x ∈ snd <$> furthest) →
      (length g ≤ length furthest + S n)%nat
      ∧ ∀ x, x ∈ snd <$> g →
          x ∈ snd <$> furthest
          ∨ ∃ m : nat, (m < S n)%nat ∧ aget measurements (Z.of_nat m) = Some x).
    { intros g Hlen Hg. split; [lia|].
      intros x Hin. destruct (Hg x Hin) as [->|]; [|by left].
      right. exists n. split; [lia|done]. }
    assert (Hset : ∀ x,
      x ∈ snd <$> mapSet furthest (VirtualItem.lane measurement) measurement →
      x = measurement ∨ x ∈ snd <$> furthest)
      by (intros x; apply elem_of_mapSet).
    pose proof (length_mapSet furthest (VirtualItem.lane measurement)
                  measurement) as Hsetlen.
    destruct (decide (VirtualItem.lane measurement ∈ found)).
    { apply Hrest; [lia|auto]. }
    destruct (mapGet furthest (VirtualItem.lane measurement)) as [previous|].
    + destruct (decide (VirtualItem.end_ measurement
                        > VirtualItem.end_ previous)).
      * destruct (decide (Z.of_nat (size found) = lanes)).
        -- intros [= <-]. by apply Hstop.
        -- by apply Hrest.
      * destruct (decide (VirtualItem.end_ measurement
                          < VirtualItem.end_ previous)).
        -- destruct (decide (Z.of_nat
                      (size ({[VirtualItem.lane measurement]} ∪ found)) = lanes)).
           ++ intros [= <-]. apply Hstop; [lia|auto].
           ++ apply Hrest; [lia|auto].
        -- destruct (decide (Z.of_nat (size found) = lanes)).
           ++ intros [= <-]. apply Hstop; [lia|auto].
           ++ apply Hrest; [lia|auto].
    + destruct (decide (Z.of_nat (size found) = lanes)).
      * intros [= <-]. by apply Hstop.
      * by apply Hrest.
Qed.

(** What [getFurthestMeasurement] can return: nothing as long as there are
    fewer items than lanes, and otherwise nothing or one of the
    measurements below [index]. *)
Lemma getFurthestMeasurement_cases lanes measurements index r :
  Virtualizer.getFurthestMeasurement lanes measurements index = Ok r →
  (Z.of_nat index < lanes → r = None)
  ∧ ∀ x, r = Some x →
      ∃ m : nat, (m < index)%nat ∧ aget measurements (Z.of_nat m) = Some x.
Proof.
  unfold Virtualizer.getFurthestMeasurement.
  destruct (Virtualizer.furthestLoop lanes measurements index ∅ [])
    as [furthest| |] eqn:Hloop; simpl; [|done..].
  destruct (furthestLoop_candidates _ _ _ _ _ _ Hloop) as [Hlen Hx].
  simpl in Hlen.
  destruct (decide (Z.of_nat (length furthest) = lanes)) as [Heq|Hne];
    intros [= <-].
  - split; [lia|].
    intros x Hhead. apply head_Some_elem_of, elem_of_sortBy in Hhead.
    destruct (Hx x Hhead) as [Hnil|]; [|done].
    by apply elem_of_nil in Hnil.
  - split; [done|]. intros x [=].
Qed.

(** Where an item is put: at the origin, in the lane its index names, or
    right after one of the items before it, in that item's lane. *)
Lemma measureItem_placement mo s measurements i item :
  Virtualizer.measureItem mo s measurements i = Ok item →
  let o := Virtualizer.options s in
  let origin :=
    MeasurementOptions.paddingStart mo + MeasurementOptions.scrollMargin mo in
  ((VirtualItem.start item = origin
    ∧ VirtualItem.lane item = rem (Z.of_nat i) (Options.lanes o))
   ∨ ∃ (m : nat) f,
       (m < i)%nat ∧ aget measurements (Z.of_nat m) = Some f
       ∧ VirtualItem.start item = VirtualItem.end_ f + Options.gap o
       ∧ VirtualItem.lane item = VirtualItem.lane f)
  ∧ (Z.of_nat i < Options.lanes o →
     VirtualItem.start item = origin
     ∧ VirtualItem.lane item = rem (Z.of_nat i) (Options.lanes o)).
Proof.
  intros Hitem o origin. revert Hitem. unfold Virtualizer.measureItem.
  fold o.
  destruct (decide (Options.lanes o = 1)) as [Hone|Hmany]; simpl.
  - destruct (aget measurements (Z.of_nat i - 1)) as [f|] eqn:Hf;
      intros [= <-]; simpl.
    + assert (0 ≤ Z.of_nat i - 1).
      { destruct (decide (0 ≤ Z.of_nat i - 1)); [done|].
        by rewrite aget_neg in Hf by lia. }
      split; [|lia].
      right. exists (i - 1)%nat, f.
      replace (Z.of_nat (i - 1)) with (Z.of_nat i - 1) by lia.
      split; [lia|done].
    + split; [by left|done].
  - destruct (Virtualizer.getFurthestMeasurement (Options.lanes o)
                measurements i) as [r| |] eqn:Hr; simpl; [|done..].
    destruct (getFurthestMeasurement_cases _ _ _ _ Hr) as [Hfew Hsome].
    destruct r as [f|]; intros [= <-]; simpl.
    + destruct (Hsome f eq_refl) as (m & Hm & Hf).
      split; [|intros Hlt; by specialize (Hfew Hlt)].
      right. by exists m, f.
    + split; [by left|done].
Qed.

(** The first items open the lanes: in a recomputation, an item whose
    index is below the number of lanes starts at
    [paddingStart + scrollMargin], in the lane of its own index. *)
Theorem getMeasurements_opens_lanes
    (mo : MeasurementOptions.t) (s : Virtualizer.t) :
  MeasurementOptions.enabled mo = true →
  cache_wf s →
  ∃ measurements s',
    Virtualizer.getMeasurements mo s = Ok (measurements, s')
    ∧ ∀ (j : nat) item,
        (Virtualizer.minPending (Virtualizer.pendingMeasuredCacheIndexes s)
         ≤ j)%nat →
        Z.of_nat j < Options.lanes (Virtualizer.options s) →
        aget measurements (Z.of_nat j) = Some item →
        VirtualItem.start item
        = MeasurementOptions.paddingStart mo
          + MeasurementOptions.scrollMargin mo
        ∧ VirtualItem.lane item = Z.of_nat j.
Proof.
  intros Hen Hwf.
  destruct (getMeasurements_spec mo s Hen Hwf)
    as (measurements & Hget & Hdense & Hlen & _ & Hcomputed).
  eexists _, _. split; [exact Hget|].
  intros j item Hmin Hlanes Hitem.
  pose proof (aget_Some_lt _ _ _ Hitem) as Hj.
  destruct (Hcomputed j Hmin ltac:(lia)) as (item' & Hitem' & Hm).
  rewrite Hitem in Hitem'. injection Hitem' as <-.
  apply measureItem_placement in Hm as [_ Hfirst].
  simpl in Hfirst. rewrite options_loadInitialMeasurements in Hfirst.
  destruct (Hfirst Hlanes) as [Hstart Hlane].
  split; [done|]. rewrite Hlane. unfold rem.
  apply Z.rem_small. lia.
Qed.

(** Scenario B: with two lanes, items 0 and 1 start at the origin, in lanes
    0 and 1. *)
Lemma getMeasurements_opens_lanes_witness :
  let mo := Sample.measurementOptions Sample.twoLanes in
  let s := Sample.fresh Sample.twoLanes in
  (MeasurementOptions.enabled mo = true ∧ cache_wf s) ∧
  ∃ measurements s',
    Virtualizer.getMeasurements mo s = Ok (measurements, s')
    ∧ ∀ (j : nat) item,
        Z.of_nat j < 2 →
        aget measurements (Z.of_nat j) = Some item →
        VirtualItem.start item = 0 ∧ VirtualItem.lane item = Z.of_nat j.
Proof.
  intros mo s.
  assert (Hen : MeasurementOptions.enabled mo = true) by reflexivity.
  assert (Hwf : cache_wf s) by apply cache_wf_fresh.
  split; [done|].
  destruct (getMeasurements_opens_lanes mo s Hen Hwf)
    as (measurements & s' & Hget & Hfirst).
  exists measurements, s'. split; [done|].
  intros j item Hj Hitem. apply (Hfirst j item); [simpl; lia|exact Hj|exact Hitem].
Defined.

(** Lanes stay in range: with at least one lane, every item of a
    recomputation lies in a lane from 0 to [lanes - 1], provided the items
    taken over from the cache do. *)
Theorem getMeasurements_lanes_in_range
    (mo : MeasurementOptions.t) (s : Virtualizer.t) :
  MeasurementOptions.enabled mo = true →
  cache_wf s →
  1 ≤ Options.lanes (Virtualizer.options s) →
  (∀ (j : nat) item,
     (j < Virtualizer.minPending (Virtualizer.pendingMeasuredCacheIndexes s))%nat →
     aget (Virtualizer.measurementsCache s) (Z.of_nat j) = Some item →
     0 ≤ VirtualItem.lane item < Options.lanes (Virtualizer.options s)) →
  ∃ measurements s',
    Virtualizer.getMeasurements mo s = Ok (measurements, s')
    ∧ ∀ (j : nat) item,
        aget measurements (Z.of_nat j) = Some item →
        0 ≤ VirtualItem.lane item < Options.lanes (Virtualizer.options s).
Proof.
  intros Hen Hwf Hlanes Hprefix.
  destruct (getMeasurements_spec mo s Hen Hwf)
    as (measurements & Hget & Hdense & Hlen & Hkept & Hcomputed).
  eexists _, _. split; [exact Hget|].
  intros j. induction (lt_wf j) as [j _ IH]. intros item Hitem.
  destruct (decide (j < Virtualizer.minPending
                          (Virtualizer.pendingMeasuredCacheIndexes s))%nat)
    as [Hlt|Hge].
  { rewrite Hkept in Hitem by done. by eapply Hprefix. }
  pose proof (aget_Some_lt _ _ _ Hitem) as Hj.
  destruct (Hcomputed j ltac:(lia) ltac:(lia)) as (item' & Hitem' & Hm).
  rewrite Hitem in Hitem'. injection Hitem' as <-.
  apply measureItem_placement in Hm as [[[_ Hlane]|(m & f & Hmj & Hf & _ & Hlane)] _];
    simpl in Hlane.
  - rewrite options_loadInitialMeasurements in Hlane. rewrite Hlane.
    unfold rem.
    pose proof (Z.rem_bound_pos (Z.of_nat j)
                  (Options.lanes (Virtualizer.options s))
                  ltac:(lia) ltac:(lia)).
    lia.
  - rewrite Hlane. by apply (IH m Hmj f).
Qed.

Lemma getMeasurements_lanes_in_range_witness :
  let mo := Sample.measurementOptions Sample.twoLanes in
  let s := Sample.fresh Sample.twoLanes in
  (MeasurementOptions.enabled mo = true ∧ cache_wf s
   ∧ 1 ≤ Options.lanes (Virtualizer.options s)) ∧
  ∃ measurements s',
    Virtualizer.getMeasurements mo s = Ok (measurements, s')
    ∧ ∀ (j : nat) item,
        aget measurements (Z.of_nat j) = Some item →
        0 ≤ VirtualItem.lane item < 2.
Proof.
  intros mo s.
  assert (Hen : MeasurementOptions.enabled mo = true) by reflexivity.
  assert (Hwf : cache_wf s) by apply cache_wf_fresh.
  assert (Hlanes : 1 ≤ Options.lanes (Virtualizer.options s)) by (simpl; lia).
  split; [done|].
  apply (getMeasurements_lanes_in_range mo s Hen Hwf Hlanes).
  simpl. intros j item Hj. lia.
Defined.

(** ** One lane: the items in a row, and the range that shows them *)

Lemma laid_out_from_neighbours (a : list (option VirtualItem.t)) :
  dense a →
  (∀ (i : nat) x, aget a (Z.of_nat i) = Some x →
     VirtualItem.start x ≤ VirtualItem.end_ x) →
  (∀ (j : nat) x y,
     aget a (Z.of_nat j) = Some x → aget a (Z.of_nat (S j)) = Some y →
     VirtualItem.end_ x ≤ VirtualItem.start y) →
  laid_out a.
Proof.
  intros Hdense Hspan Hnext. split; [|done].
  intros i j x y Hx Hy Hij. revert y Hy.
  induction j as [|j IH]; [lia|]. intros y Hy.
  destruct (decide (i = j)) as [->|Hne]; [by eapply Hnext|].
  pose proof (aget_Some_lt _ _ _ Hy) as Hj.
  destruct (Hdense j ltac:(lia)) as [z Hz].
  specialize (IH ltac:(lia) z Hz).
  pose proof (Hspan j z Hz). pose proof (Hnext j z y Hz Hy). lia.
Qed.

Lemma itemSizeCache_loadInitialMeasurements s :
  length (Virtualizer.measurementsCache s) ≠ 0%nat
  ∨ Options.initialMeasurementsCache (Virtualizer.options s) = [] →
  Virtualizer.loadInitialMeasurements s = s
  ∨ (Virtualizer.itemSizeCache (Virtualizer.loadInitialMeasurements s)
     = Virtualizer.itemSizeCache s
     ∧ Virtualizer.measurementsCache (Virtualizer.loadInitialMeasurements s) = []).
Proof.
  unfold Virtualizer.loadInitialMeasurements.
  destruct (decide (length (Virtualizer.measurementsCache s) = 0%nat))
    as [Hempty|Hfull]; [|by left].
  intros [Hne| ->]; [done|]. by right.
Qed.

(** One lane keeps the items in a row. With a gap and sizes that are not
    negative, a recomputation over a cache whose items lie one after the
    other gives a sequence whose items lie one after the other. *)
Theorem getMeasurements_laid_out
    (mo : MeasurementOptions.t) (s : Virtualizer.t) :
  MeasurementOptions.enabled mo = true →
  cache_wf s →
  Options.lanes (Virtualizer.options s) = 1 →
  0 ≤ Options.gap (Virtualizer.options s) →
  sizes_nonneg (Virtualizer.loadInitialMeasurements s) →
  laid_out (Virtualizer.measurementsCache s) →
  ∃ measurements s',
    Virtualizer.getMeasurements mo s = Ok (measurements, s')
    ∧ laid_out measurements.
Proof.
  intros Hen Hwf Hlanes Hgap [Hest Hmeasured] [Hordered Hspan].
  destruct (getMeasurements_spec mo s Hen Hwf)
    as (measurements & Hget & Hdense & Hlen & Hkept & Hcomputed).
  eexists _, _. split; [exact Hget|].
  set (min := Virtualizer.minPending
                (Virtualizer.pendingMeasuredCacheIndexes s)) in *.
  set (s2 := Virtualizer.set_pendingMeasuredCacheIndexes []
               (Virtualizer.loadInitialMeasurements s)) in *.
  assert (Hopt : Virtualizer.options s2 = Virtualizer.options s)
    by apply options_loadInitialMeasurements.
  assert (Hnew : ∀ (j : nat) x,
            (min ≤ j)%nat → aget measurements (Z.of_nat j) = Some x →
            Virtualizer.measureItem mo s2 measurements j = Ok x).
  { intros j x Hj Hx. pose proof (aget_Some_lt _ _ _ Hx).
    destruct (Hcomputed j Hj ltac:(lia)) as (x' & Hx' & Hm).
    rewrite Hx in Hx'. by injection Hx' as <-. }
  apply laid_out_from_neighbours; [done|..].
  - intros i x Hx. destruct (decide (i < min)%nat) as [Hlt|Hge].
    + rewrite Hkept in Hx by done. by eapply Hspan.
    + pose proof (Hnew i x ltac:(lia) Hx) as Hm.
      pose proof (measureItem_size _ _ _ _ _ Hm) as Hsize.
      apply measureItem_item_ok in Hm as (Hok & _). unfold item_ok in Hok.
      assert (0 ≤ VirtualItem.size x); [|lia].
      rewrite Hsize.
      destruct (Virtualizer.itemSizeCache s2
                  !! MeasurementOptions.getItemKey mo i) as [v|] eqn:Hv; simpl.
      * by eapply Hmeasured.
      * apply Hest.
  - intros j x y Hx Hy. destruct (decide (S j < min)%nat) as [Hlt|Hge].
    + rewrite Hkept in Hx, Hy by lia. eapply (Hordered j (S j)); eauto.
    + pose proof (Hnew (S j) y ltac:(lia) Hy) as Hm.
      destruct (measureItem_single_lane mo s2 measurements (S j))
        as (y' & Hm' & Hstart); [by rewrite Hopt|].
      rewrite Hm in Hm'. injection Hm' as <-.
      replace (Z.of_nat (S j) - 1) with (Z.of_nat j) in Hstart by lia.
      rewrite Hx, Hopt in Hstart. lia.
Qed.

Lemma laid_out_nil : laid_out [].
Proof. split; intros; by rewrite aget_nat, lookup_nil in *. Qed.

Lemma getMeasurements_laid_out_witness :
  let mo := Sample.measurementOptions Sample.gapped in
  let s := Sample.fresh Sample.gapped in
  (MeasurementOptions.enabled mo = true ∧ cache_wf s
   ∧ Options.lanes (Virtualizer.options s) = 1
   ∧ 0 ≤ Options.gap (Virtualizer.options s)
   ∧ sizes_nonneg (Virtualizer.loadInitialMeasurements s)
   ∧ laid_out (Virtualizer.measurementsCache s)) ∧
  ∃ measurements s',
    Virtualizer.getMeasurements mo s = Ok (measurements, s')
    ∧ laid_out measurements.
Proof.
  intros mo s.
  assert (Hen : MeasurementOptions.enabled mo = true) by reflexivity.
  assert (Hwf : cache_wf s) by apply cache_wf_fresh.
  assert (Hlanes : Options.lanes (Virtualizer.options s) = 1) by reflexivity.
  assert (Hgap : 0 ≤ Options.gap (Virtualizer.options s)) by (simpl; lia).
  assert (Hsizes : sizes_nonneg (Virtualizer.loadInitialMeasurements s)).
  { split; [intros i; simpl; lia|]. intros k v Hk. simpl in Hk.
    by rewrite lookup_empty in Hk. }
  assert (Hlaid : laid_out (Virtualizer.measurementsCache s))
    by apply laid_out_nil.
  split; [done|].
  exact (getMeasurements_laid_out mo s Hen Hwf Hlanes Hgap Hsizes Hlaid).
Defined.

(** Where the forward scan stops: on the last index, or on an item that
    reaches the end of the viewport. *)
Lemma expandEnd_stop measurements lastIndex limit fuel : ∀ endIndex e,
  expandEnd fuel measurements lastIndex limit endIndex = Ok e →
  endIndex ≤ e
  ∧ (e < lastIndex →
     ∃ y, aget measurements e = Some y ∧ limit ≤ VirtualItem.end_ y).
Proof.
  induction fuel as [|fuel IH]; intros endIndex e; cbn [expandEnd];
    (destruct (decide (endIndex < lastIndex)) as [Hlt|Hge];
     [|intros [= <-]; split; [lia|lia]]);
    (destruct (aget measurements endIndex) as [item|] eqn:Hitem;
     simpl; [|done]);
    (destruct (decide (VirtualItem.end_ item < limit)) as [Hshort|Hlong];
     [|intros [= <-]; split; [lia|]; intros _; exists item; split; [done|lia]]).
  - done.
  - intros Hrec. destruct (IH _ _ Hrec) as [Hle Hstop]. split; [lia|done].
Qed.

(** The two scans of the single-lane range leave no item of the viewport
    out. *)
Lemma calculateRange_single_lane_covers
    (fuel : nat) (measurements : list (option VirtualItem.t))
    (outerSize scrollOffset : Z) :
  dense measurements →
  laid_out measurements →
  (0 < length measurements)%nat →
  Z.of_nat (length measurements) < 2 ^ 31 →
  (length measurements ≤ fuel)%nat →
  ∃ r,
    calculateRange fuel measurements outerSize scrollOffset 1 = Ok r
    ∧ ∀ (i : nat) x,
        aget measurements (Z.of_nat i) = Some x →
        scrollOffset < VirtualItem.end_ x →
        VirtualItem.start x < scrollOffset + outerSize →
        Visible.startIndex r ≤ Z.of_nat i ≤ Visible.endIndex r.
Proof.
  intros Hdense [Hordered _] Hpos Hlen Hfuel. unfold calculateRange.
  destruct (decide (Z.of_nat (length measurements) ≤ 1)) as [Hone|Hmany].
  { eexists. split; [done|]. simpl. intros i x Hx _ _.
    apply aget_Some_lt in Hx. lia. }
  destruct (findNearestBinarySearch_bounds fuel 0
              (Z.of_nat (length measurements) - 1)
              (getOffset measurements) scrollOffset)
    as (startIndex & Hstart & Hsb); try lia.
  { intros i Hi. apply getOffset_dense; [done|lia]. }
  rewrite Hstart, bind_Ok. rewrite decide_True by done.
  destruct (expandEnd_bounds measurements Hdense (scrollOffset + outerSize)
              fuel startIndex) as (e & He & Heb); [lia|lia|].
  rewrite He, bind_Ok.
  eexists. split; [done|]. simpl.
  intros i x Hx Hafter Hbefore. split.
  - destruct (decide (startIndex ≤ Z.of_nat i)) as [|Hlt]; [done|]. exfalso.
    apply findNearestBinarySearch_low_inv in Hstart as [->|(v & Hv & Hle)];
      [lia| |left; lia].
    unfold getOffset in Hv.
    destruct (aget measurements startIndex) as [y|] eqn:Hy; simpl in Hv;
      [|done].
    injection Hv as <-.
    rewrite <- (Z2Nat.id startIndex) in Hy by lia.
    pose proof (Hordered i (Z.to_nat startIndex) x y Hx Hy ltac:(lia)). lia.
  - destruct (decide (Z.of_nat i ≤ e)) as [|Hgt]; [done|]. exfalso.
    pose proof (aget_Some_lt _ _ _ Hx) as Hi.
    apply expandEnd_stop in He as [_ Hstop].
    destruct (Hstop ltac:(lia)) as (y & Hy & Hlimit).
    rewrite <- (Z2Nat.id e) in Hy by lia.
    pose proof (Hordered (Z.to_nat e) i y x Hy Hx ltac:(lia)). lia.
Qed.

(** With one lane the range covers the viewport: over a sequence without
    holes whose items lie one after the other, every item that reaches into
    the viewport [[scrollOffset, scrollOffset + outerSize]] has its index
    between [startIndex] and [endIndex]. *)
Theorem calculateRange_covers_viewport
    (fuel : nat) (measurements : list (option VirtualItem.t))
    (outerSize scrollOffset : Z) :
  dense measurements →
  laid_out measurements →
  (0 < length measurements)%nat →
  Z.of_nat (length measurements) < 2 ^ 31 →
  (length measurements ≤ fuel)%nat →
  ∃ r,
    calculateRange fuel measurements outerSize scrollOffset 1 = Ok r
    ∧ ∀ (i : nat) x,
        aget measurements (Z.of_nat i) = Some x →
        scrollOffset < VirtualItem.end_ x →
        VirtualItem.start x < scrollOffset + outerSize →
        Visible.startIndex r ≤ Z.of_nat i ≤ Visible.endIndex r.
Proof. apply calculateRange_single_lane_covers. Qed.

Lemma laid_out_rows n : laid_out (Sample.rows n).
Proof.
  assert (Hrow : ∀ (i : nat) x,
            aget (Sample.rows n) (Z.of_nat i) = Some x → x = Sample.row i).
  { intros i x. rewrite aget_nat. unfold Sample.rows.
    rewrite !list_lookup_fmap.
    destruct (seq 0 n !! i) as [k|] eqn:Hk; simpl; [|done].
    apply lookup_seq in Hk as [-> _]. by intros [= <-]. }
  split.
  - intros i j x y Hx%Hrow Hy%Hrow Hij. subst. simpl. lia.
  - intros i x Hx%Hrow. subst. simpl. lia.
Qed.

(** Twenty rows of 50px, a viewport of 120px at offset 60: rows 1 to 3 are
    in sight, and are in the range. *)
Lemma calculateRange_covers_viewport_witness :
  let measurements := Sample.rows 20 in
  (dense measurements ∧ laid_out measurements
   ∧ (0 < length measurements)%nat
   ∧ Z.of_nat (length measurements) < 2 ^ 31
   ∧ (length measurements ≤ 20)%nat) ∧
  ∃ r,
    calculateRange 20 measurements 120 60 1 = Ok r
    ∧ r = Visible.mk 1 3
    ∧ ∀ (i : nat) x,
        aget measurements (Z.of_nat i) = Some x →
        60 < VirtualItem.end_ x →
        VirtualItem.start x < 60 + 120 →
        Visible.startIndex r ≤ Z.of_nat i ≤ Visible.endIndex r.
Proof.
  intros measurements.
  assert (Hd : dense measurements) by apply dense_fmap_Some.
  assert (Hlaid : laid_out measurements) by apply laid_out_rows.
  assert (Hpos : (0 < length measurements)%nat) by (simpl; lia).
  assert (Hlen : Z.of_nat (length measurements) < 2 ^ 31) by (simpl; lia).
  assert (Hfuel : (length measurements ≤ 20)%nat) by (simpl; lia).
  split; [done|].
  destruct (calculateRange_covers_viewport 20 measurements 120 60
              Hd Hlaid Hpos Hlen Hfuel) as (r & Hr & Hcover).
  exists r. split; [exact Hr|]. split; [|exact Hcover].
  vm_compute in Hr. by injection Hr as <-.
Defined.

(** ** Resizing an item and measuring again *)

Lemma measureItem_frame mo s s' measurements i :
  Virtualizer.options s' = Virtualizer.options s →
  Virtualizer.itemSizeCache s' = Virtualizer.itemSizeCache s →
  Virtualizer.measureItem mo s' measurements i
  = Virtualizer.measureItem mo s measurements i.
Proof. intros Ho Hc. unfold Virtualizer.measureItem. by rewrite Ho, Hc. Qed.

(** What a resize that changes the size leaves in the instance. *)
Lemma resizeItem_resized shouldAdjust index size s item :
  aget (Virtualizer.measurementsCache s) index = Some item →
  size ≠ default (VirtualItem.size item)
            (Virtualizer.itemSizeCache s !! VirtualItem.key item) →
  let s1 := fst (Virtualizer.resizeItem shouldAdjust index size s) in
  Virtualizer.measurementsCache s1 = Virtualizer.measurementsCache s
  ∧ Virtualizer.pendingMeasuredCacheIndexes s1
    = Virtualizer.pendingMeasuredCacheIndexes s ++ [VirtualItem.index item]
  ∧ Virtualizer.itemSizeCache s1
    = <[VirtualItem.key item := size]> (Virtualizer.itemSizeCache s)
  ∧ Virtualizer.options s1 = Virtualizer.options s.
Proof.
  intros Hitem Hsize. unfold Virtualizer.resizeItem. rewrite Hitem.
  rewrite decide_True by lia.
  unfold Virtualizer.getScrollOffset.
  destruct (Options.enabled (Virtualizer.options s)) eqn:Hen;
    destruct shouldAdjust as [f|]; simpl;
    repeat match goal with
      | |- context [f ?a ?b ?c] => destruct (f a b c); simpl
      | |- context [bool_decide ?P] => destruct (bool_decide P); simpl
      end;
    rewrite ?Hen; simpl; done.
Qed.

(** A full recomputation settles the cache. *)
Lemma getMeasurements_settles mo s measurements s' :
  MeasurementOptions.enabled mo = true →
  cache_wf s →
  Virtualizer.pendingMeasuredCacheIndexes s = [] →
  Virtualizer.getMeasurements mo s = Ok (measurements, s') →
  settled mo s' ∧ cache_wf s'.
Proof.
  intros Hen Hwf Hpending Hget.
  destruct (getMeasurements_keeps_cache_wf mo s Hen Hwf)
    as (measurements' & s'' & Hget' & _ & Hwf').
  rewrite Hget in Hget'. injection Hget' as <- <-.
  split; [|done].
  destruct (getMeasurements_spec mo s Hen Hwf)
    as (measurements' & Hget' & Hdense & Hlen & _ & Hcomputed).
  rewrite Hget in Hget'. injection Hget' as <- ->.
  rewrite Hpending in Hlen, Hcomputed. simpl in Hlen, Hcomputed.
  split; [done|]. simpl.
  intros j item Hitem. pose proof (aget_Some_lt _ _ _ Hitem) as Hj.
  destruct (Hcomputed j ltac:(lia) ltac:(lia)) as (item' & Hitem' & Hm).
  rewrite Hitem in Hitem'. injection Hitem' as <-.
  rewrite <- Hm. by apply measureItem_frame.
Qed.

(** Item [k] of a settled single-lane cache is resized and the cache is
    measured again: what each item of the old cache becomes. *)
Lemma resize_shift mo s shouldAdjust (k : nat) size item :
  MeasurementOptions.enabled mo = true →
  cache_wf s →
  settled mo s →
  Options.lanes (Virtualizer.options s) = 1 →
  Z.of_nat (length (Virtualizer.measurementsCache s))
  = MeasurementOptions.count mo →
  (∀ j : nat, j ≠ k →
     MeasurementOptions.getItemKey mo j ≠ MeasurementOptions.getItemKey mo k) →
  aget (Virtualizer.measurementsCache s) (Z.of_nat k) = Some item →
  size ≠ VirtualItem.size item →
  let delta := size - VirtualItem.size item in
  let s1 := fst (Virtualizer.resizeItem shouldAdjust (Z.of_nat k) size s) in
  ∃ measurements s2,
    Virtualizer.getMeasurements mo s1 = Ok (measurements, s2)
    ∧ ∀ (j : nat) x,
        aget (Virtualizer.measurementsCache s) (Z.of_nat j) = Some x →
        ∃ x',
          aget measurements (Z.of_nat j) = Some x'
          ∧ (j < k → x' = x)%nat
          ∧ VirtualItem.size x'
            = (if decide (j = k) then size else VirtualItem.size x)
          ∧ VirtualItem.start x'
            = VirtualItem.start x + (if decide (k < j)%nat then delta else 0)
          ∧ VirtualItem.end_ x'
            = VirtualItem.end_ x + (if decide (k ≤ j)%nat then delta else 0).
Proof.
  intros Hen Hwf [Hpending Hfix] Hlanes Hcount Hkeys Hitem Hsize delta s1.
  set (cache := Virtualizer.measurementsCache s) in *.
  (* the item as the cache has it *)
  pose proof (Hfix k item Hitem) as Hmk.
  pose proof (measureItem_size _ _ _ _ _ Hmk) as Hsizek.
  destruct (measureItem_item_ok _ _ _ _ _ Hmk) as (_ & Hindex & Hkey).
  assert (Hcached : default (VirtualItem.size item)
                      (Virtualizer.itemSizeCache s !! VirtualItem.key item)
                    = VirtualItem.size item).
  { rewrite Hkey, Hsizek.
    by destruct (Virtualizer.itemSizeCache s
                   !! MeasurementOptions.getItemKey mo k). }
  (* the instance after the resize *)
  destruct (resizeItem_resized shouldAdjust (Z.of_nat k) size s item Hitem)
    as (Hcache1 & Hpending1 & Hsizes1 & Hopt1); [by rewrite Hcached|].
  fold s1 in Hcache1, Hpending1, Hsizes1, Hopt1.
  rewrite Hpending, Hindex in Hpending1. simpl in Hpending1.
  assert (Hwf1 : cache_wf s1) by by apply resizeItem_keeps_cache_wf.
  assert (Hload : Virtualizer.loadInitialMeasurements s1 = s1).
  { unfold Virtualizer.loadInitialMeasurements. rewrite decide_False; [done|].
    rewrite Hcache1. apply aget_Some_lt in Hitem. fold cache. lia. }
  destruct (getMeasurements_spec mo s1 Hen Hwf1)
    as (measurements & Hget & Hdense & _ & Hkept & Hcomputed).
  rewrite Hpending1, Hload, Hcache1 in *. simpl in Hkept, Hcomputed.
  fold cache in Hkept.
  set (s2 := Virtualizer.set_pendingMeasuredCacheIndexes [] s1) in *.
  eexists _, _. split; [exact Hget|].
  (* an item measured again, against the one it replaces *)
  assert (Hagain : ∀ (j : nat) x,
            (k ≤ j)%nat → aget cache (Z.of_nat j) = Some x →
            ∃ x', aget measurements (Z.of_nat j) = Some x'
              ∧ item_ok x' ∧ item_ok x
              ∧ VirtualItem.size x'
                = (if decide (j = k) then size else VirtualItem.size x)
              ∧ VirtualItem.start x' =
                  match aget measurements (Z.of_nat j - 1) with
                  | Some previous =>
                      VirtualItem.end_ previous
                      + Options.gap (Virtualizer.options s)
                  | None =>
                      MeasurementOptions.paddingStart mo
                      + MeasurementOptions.scrollMargin mo
                  end
              ∧ VirtualItem.start x =
                  match aget cache (Z.of_nat j - 1) with
                  | Some previous =>
                      VirtualItem.end_ previous
                      + Options.gap (Virtualizer.options s)
                  | None =>
                      MeasurementOptions.paddingStart mo
                      + MeasurementOptions.scrollMargin mo
                  end).
  { intros j x Hkj Hx. pose proof (aget_Some_lt _ _ _ Hx) as Hj.
    destruct (Hcomputed j Hkj ltac:(lia)) as (x' & Hx' & Hm').
    rewrite (measureItem_frame mo s1 s2) in Hm' by done.
    pose proof (Hfix j x Hx) as Hm.
    exists x'. split; [done|].
    split; [by apply measureItem_item_ok in Hm' as [? _]|].
    split; [by apply measureItem_item_ok in Hm as [? _]|].
    split.
    - rewrite (measureItem_size _ _ _ _ _ Hm'), Hsizes1, Hopt1, Hkey.
      destruct (decide (j = k)) as [->|Hne].
      + by rewrite lookup_insert_eq.
      + rewrite lookup_insert_ne by (apply not_eq_sym, Hkeys, Hne).
        symmetry. apply (measureItem_size _ _ _ _ _ Hm).
    - split.
      + destruct (measureItem_single_lane mo s1 measurements j)
          as (y & Hy & Hstart); [by rewrite Hopt1|].
        rewrite Hm' in Hy. injection Hy as <-. by rewrite Hstart, Hopt1.
      + destruct (measureItem_single_lane mo s cache j)
          as (y & Hy & Hstart); [done|].
        rewrite Hm in Hy. by injection Hy as <-. }
  intros j. induction j as [|j IH]; intros x Hx.
  - destruct (decide (k = 0%nat)) as [->|Hk].
    + destruct (Hagain 0%nat x ltac:(lia) Hx)
        as (x' & Hx' & Hok' & Hok & Hsz & Hs' & Hs).
      exists x'. split; [done|]. split; [lia|]. split; [done|].
      rewrite !aget_neg in Hs', Hs by lia.
      rewrite Hitem in Hx. injection Hx as <-.
      unfold item_ok in *. rewrite decide_True in Hsz by done.
      rewrite decide_False by lia. rewrite decide_True by lia.
      subst delta. lia.
    + exists x. rewrite Hkept by lia. split; [done|]. split; [done|].
      rewrite !decide_False by lia. lia.
  - destruct (decide (S j < k)%nat) as [Hlt|Hge].
    { exists x. rewrite Hkept by lia. split; [done|]. split; [done|].
      rewrite !decide_False by lia. lia. }
    destruct (Hagain (S j) x ltac:(lia) Hx)
      as (x' & Hx' & Hok' & Hok & Hsz & Hs' & Hs).
    replace (Z.of_nat (S j) - 1) with (Z.of_nat j) in Hs', Hs by lia.
    pose proof (aget_Some_lt _ _ _ Hx) as Hj.
    destruct Hwf as (Hdense0 & _).
    destruct (Hdense0 j ltac:(fold cache; lia)) as [p Hp]. fold cache in Hp.
    destruct (IH p Hp) as (p' & Hp' & _ & _ & _ & Hpend).
    rewrite Hp' in Hs'. rewrite Hp in Hs.
    exists x'. split; [done|]. split; [lia|]. split; [done|].
    unfold item_ok in *.
    destruct (decide (S j = k)) as [Heq|Hne].
    + rewrite <- Heq in Hitem. rewrite Hitem in Hx. injection Hx as <-.
      rewrite decide_False in Hpend by lia.
      rewrite decide_False by lia. rewrite decide_True by lia.
      subst delta. lia.
    + rewrite decide_True in Hpend by lia.
      rewrite !decide_True by lia. lia.
Qed.

(** A resize moves what comes after. In a settled single-lane cache whose
    keys tell the items apart, resizing item [k] and measuring again leaves
    the items before [k] as they were, gives item [k] the new size at the
    same start, and moves every later item by the size delta without
    changing its size. *)
Theorem resizeItem_shifts_followers
    (mo : MeasurementOptions.t) (s : Virtualizer.t)
    (shouldAdjust : option (VirtualItem.t → Z → Virtualizer.t → bool))
    (k : nat) (size : Z) (item : VirtualItem.t) :
  MeasurementOptions.enabled mo = true →
  cache_wf s →
  settled mo s →
  Options.lanes (Virtualizer.options s) = 1 →
  Z.of_nat (length (Virtualizer.measurementsCache s))
  = MeasurementOptions.count mo →
  (∀ j : nat, j ≠ k →
     MeasurementOptions.getItemKey mo j ≠ MeasurementOptions.getItemKey mo k) →
  aget (Virtualizer.measurementsCache s) (Z.of_nat k) = Some item →
  size ≠ VirtualItem.size item →
  let delta := size - VirtualItem.size item in
  let s1 := fst (Virtualizer.resizeItem shouldAdjust (Z.of_nat k) size s) in
  ∃ measurements s2,
    Virtualizer.getMeasurements mo s1 = Ok (measurements, s2)
    ∧ ∀ (j : nat) x,
        aget (Virtualizer.measurementsCache s) (Z.of_nat j) = Some x →
        ∃ x',
          aget measurements (Z.of_nat j) = Some x'
          ∧ (j < k → x' = x)%nat
          ∧ VirtualItem.size x'
            = (if decide (j = k) then size else VirtualItem.size x)
          ∧ VirtualItem.start x'
            = VirtualItem.start x + (if decide (k < j)%nat then delta else 0)
          ∧ VirtualItem.end_ x'
            = VirtualItem.end_ x + (if decide (k ≤ j)%nat then delta else 0).
Proof. apply resize_shift. Qed.

Lemma measuredGapped_settled :
  settled (Sample.measurementOptions Sample.gapped) measuredGapped
  ∧ cache_wf measuredGapped.
Proof.
  unfold measuredGapped.
  destruct (Virtualizer.getMeasurements
              (Sample.measurementOptions Sample.gapped)
              (Sample.fresh Sample.gapped)) as [[measurements s']| |] eqn:Hget;
    [|by vm_compute in Hget..].
  eapply getMeasurements_settles; [reflexivity|apply cache_wf_fresh|reflexivity|].
  exact Hget.
Qed.

Lemma scrolledGapped_settled offset :
  settled (Sample.measurementOptions Sample.gapped) (scrolledGapped offset)
  ∧ cache_wf (scrolledGapped offset).
Proof.
  destruct measuredGapped_settled as [[Hp Hfix] Hwf].
  split; [split|]; [exact Hp| |exact Hwf].
  intros j item Hitem. unfold scrolledGapped in *. simpl in *.
  rewrite <- (Hfix j item Hitem). by apply measureItem_frame.
Qed.

Lemma defaultKeyExtractor_distinct (j k : nat) :
  j ≠ k → defaultKeyExtractor j ≠ defaultKeyExtractor k.
Proof. intros Hne [= Heq]. lia. Qed.

(** Five rows of 50px, 4px apart; row 1 grows to 80px. *)
Lemma resizeItem_shifts_followers_witness :
  let mo := Sample.measurementOptions Sample.gapped in
  let s := measuredGapped in
  let item := VirtualItem.mk (KNumber 1) 1 54 104 50 0 in
  (MeasurementOptions.enabled mo = true ∧ cache_wf s ∧ settled mo s
   ∧ Options.lanes (Virtualizer.options s) = 1
   ∧ Z.of_nat (length (Virtualizer.measurementsCache s))
     = MeasurementOptions.count mo
   ∧ aget (Virtualizer.measurementsCache s) (Z.of_nat 1) = Some item
   ∧ 80 ≠ VirtualItem.size item) ∧
  ∃ measurements s2,
    Virtualizer.getMeasurements mo
      (fst (Virtualizer.resizeItem None (Z.of_nat 1) 80 s))
    = Ok (measurements, s2)
    ∧ (λ x, (VirtualItem.start x, VirtualItem.end_ x)) <$> omap id measurements
      = [(0, 50); (54, 134); (138, 188); (192, 242); (246, 296)]
    ∧ ∀ (j : nat) x,
        aget (Virtualizer.measurementsCache s) (Z.of_nat j) = Some x →
        ∃ x',
          aget measurements (Z.of_nat j) = Some x'
          ∧ VirtualItem.start x'
            = VirtualItem.start x + (if decide (1 < j)%nat then 30 else 0).
Proof.
  intros mo s item.
  assert (Hen : MeasurementOptions.enabled mo = true) by reflexivity.
  destruct measuredGapped_settled as [Hsettled Hwf].
  assert (Hlanes : Options.lanes (Virtualizer.options s) = 1)
    by (vm_compute; reflexivity).
  assert (Hcount : Z.of_nat (length (Virtualizer.measurementsCache s))
                   = MeasurementOptions.count mo) by (vm_compute; reflexivity).
  assert (Hitem : aget (Virtualizer.measurementsCache s) (Z.of_nat 1)
                  = Some item) by (vm_compute; reflexivity).
  assert (Hsize : 80 ≠ VirtualItem.size item) by (simpl; lia).
  split; [done|].
  destruct (resizeItem_shifts_followers mo s None 1 80 item Hen Hwf Hsettled
              Hlanes Hcount
              (λ j Hj, defaultKeyExtractor_distinct j 1 Hj) Hitem Hsize)
    as (measurements & s2 & Hget & Hshift).
  exists measurements, s2. split; [exact Hget|]. split.
  - vm_compute in Hget. injection Hget as <- _. reflexivity.
  - intros j x Hx. destruct (Hshift j x Hx) as (x' & Hx' & _ & _ & Hstart & _).
    exists x'. split; [exact Hx'|exact Hstart].
Defined.

(** What the default policy sends out for an item before the offset. *)
Lemma resizeItem_default_request (index size : Z) (s : Virtualizer.t) item :
  aget (Virtualizer.measurementsCache s) index = Some item →
  size ≠ default (VirtualItem.size item)
            (Virtualizer.itemSizeCache s !! VirtualItem.key item) →
  VirtualItem.start item
  < fst (Virtualizer.getScrollOffset s) + Virtualizer.scrollAdjustments s →
  snd (Virtualizer.resizeItem None index size s)
  = [Virtualizer.ScrollToFn (fst (Virtualizer.getScrollOffset s))
       (Some (Virtualizer.scrollAdjustments s
              + (size - default (VirtualItem.size item)
                          (Virtualizer.itemSizeCache s
                             !! VirtualItem.key item)))) None;
     Virtualizer.OnChange false].
Proof.
  intros Hitem Hsize. unfold Virtualizer.resizeItem. rewrite Hitem.
  rewrite decide_True by lia.
  unfold Virtualizer.getScrollOffset.
  destruct (Options.enabled (Virtualizer.options s)) eqn:Hen; simpl;
    intros Hbefore; rewrite bool_decide_eq_true_2 by done; simpl;
    rewrite ?Hen; simpl; done.
Qed.

(** The viewport stays still. In a settled single-lane cache, an item that
    starts before the effective offset is resized under the default policy:
    the scroll request carries the adjustment grown by the size delta, and
    after measuring again every later item stands where it stood, counted
    from the position that request asks for ([offset + adjustments]). *)
Theorem resizeItem_keeps_viewport_still
    (mo : MeasurementOptions.t) (s : Virtualizer.t)
    (k : nat) (size : Z) (item : VirtualItem.t) :
  MeasurementOptions.enabled mo = true →
  cache_wf s →
  settled mo s →
  Options.lanes (Virtualizer.options s) = 1 →
  Z.of_nat (length (Virtualizer.measurementsCache s))
  = MeasurementOptions.count mo →
  (∀ j : nat, j ≠ k →
     MeasurementOptions.getItemKey mo j ≠ MeasurementOptions.getItemKey mo k) →
  aget (Virtualizer.measurementsCache s) (Z.of_nat k) = Some item →
  size ≠ VirtualItem.size item →
  let offset := fst (Virtualizer.getScrollOffset s) in
  let before := offset + Virtualizer.scrollAdjustments s in
  VirtualItem.start item < before →
  ∃ adjustments measurements s2,
    snd (Virtualizer.resizeItem None (Z.of_nat k) size s)
    = [Virtualizer.ScrollToFn offset (Some adjustments) None;
       Virtualizer.OnChange false]
    ∧ Virtualizer.getMeasurements mo
        (fst (Virtualizer.resizeItem None (Z.of_nat k) size s))
      = Ok (measurements, s2)
    ∧ ∀ (j : nat) x,
        (k < j)%nat →
        aget (Virtualizer.measurementsCache s) (Z.of_nat j) = Some x →
        ∃ x',
          aget measurements (Z.of_nat j) = Some x'
          ∧ VirtualItem.start x' - (offset + adjustments)
            = VirtualItem.start x - before.
Proof.
  intros Hen Hwf Hsettled Hlanes Hcount Hkeys Hitem Hsize offset before Hbefore.
  assert (Hcached : default (VirtualItem.size item)
                      (Virtualizer.itemSizeCache s !! VirtualItem.key item)
                    = VirtualItem.size item).
  { destruct Hsettled as [_ Hfix]. pose proof (Hfix k item Hitem) as Hm.
    destruct (measureItem_item_ok _ _ _ _ _ Hm) as (_ & _ & Hkey).
    rewrite Hkey, (measureItem_size _ _ _ _ _ Hm).
    by destruct (Virtualizer.itemSizeCache s
                   !! MeasurementOptions.getItemKey mo k). }
  destruct (resize_shift mo s None k size item Hen Hwf Hsettled Hlanes Hcount
              Hkeys Hitem Hsize) as (measurements & s2 & Hget & Hshift).
  exists (Virtualizer.scrollAdjustments s + (size - VirtualItem.size item)),
    measurements, s2.
  split; [|split; [exact Hget|]].
  - rewrite (resizeItem_default_request (Z.of_nat k) size s item Hitem);
      rewrite ?Hcached; done.
  - intros j x Hkj Hx.
    destruct (Hshift j x Hx) as (x' & Hx' & _ & _ & Hstart & _).
    exists x'. split; [done|].
    rewrite decide_True in Hstart by done. subst before. lia.
Qed.

(** Scrolled to 120, row 1 (54 to 104, out of sight) grows to 80px: the
    request asks for 120 with adjustments 30, and the later rows keep their
    distance to it. *)
Lemma resizeItem_keeps_viewport_still_witness :
  let mo := Sample.measurementOptions Sample.gapped in
  let s := scrolledGapped 120 in
  let item := VirtualItem.mk (KNumber 1) 1 54 104 50 0 in
  (MeasurementOptions.enabled mo = true ∧ cache_wf s ∧ settled mo s
   ∧ Options.lanes (Virtualizer.options s) = 1
   ∧ Z.of_nat (length (Virtualizer.measurementsCache s))
     = MeasurementOptions.count mo
   ∧ aget (Virtualizer.measurementsCache s) (Z.of_nat 1) = Some item
   ∧ 80 ≠ VirtualItem.size item
   ∧ VirtualItem.start item
     < fst (Virtualizer.getScrollOffset s) + Virtualizer.scrollAdjustments s) ∧
  ∃ adjustments measurements s2,
    snd (Virtualizer.resizeItem None (Z.of_nat 1) 80 s)
    = [Virtualizer.ScrollToFn 120 (Some adjustments) None;
       Virtualizer.OnChange false]
    ∧ adjustments = 30
    ∧ Virtualizer.getMeasurements mo
        (fst (Virtualizer.resizeItem None (Z.of_nat 1) 80 s))
      = Ok (measurements, s2)
    ∧ ∀ (j : nat) x,
        (1 < j)%nat →
        aget (Virtualizer.measurementsCache s) (Z.of_nat j) = Some x →
        ∃ x',
          aget measurements (Z.of_nat j) = Some x'
          ∧ VirtualItem.start x' - (120 + adjustments)
            = VirtualItem.start x - 120.
Proof.
  intros mo s item.
  assert (Hen : MeasurementOptions.enabled mo = true) by reflexivity.
  destruct (scrolledGapped_settled 120) as [Hsettled Hwf].
  assert (Hlanes : Options.lanes (Virtualizer.options s) = 1)
    by (vm_compute; reflexivity).
  assert (Hcount : Z.of_nat (length (Virtualizer.measurementsCache s))
                   = MeasurementOptions.count mo) by (vm_compute; reflexivity).
  assert (Hitem : aget (Virtualizer.measurementsCache s) (Z.of_nat 1)
                  = Some item) by (vm_compute; reflexivity).
  assert (Hsize : 80 ≠ VirtualItem.size item) by (simpl; lia).
  assert (Hbefore : VirtualItem.start item
                    < fst (Virtualizer.getScrollOffset s)
                      + Virtualizer.scrollAdjustments s)
    by (vm_compute; reflexivity).
  split; [done|].
  destruct (resizeItem_keeps_viewport_still mo s 1 80 item Hen Hwf Hsettled
              Hlanes Hcount
              (λ j Hj, defaultKeyExtractor_distinct j 1 Hj) Hitem Hsize Hbefore)
    as (adjustments & measurements & s2 & Hreq & Hget & Hstill).
  exists adjustments, measurements, s2.
  split; [exact Hreq|]. split; [|split; [exact Hget|exact Hstill]].
  vm_compute in Hreq. by injection Hreq as <-.
Defined.

(** Reporting a size twice: the second report finds the size in the size
    map and does nothing, whatever the policies and whatever the first
    report did. *)
Theorem resizeItem_twice
    (shouldAdjust shouldAdjust' : option (VirtualItem.t → Z → Virtualizer.t → bool))
    (index size : Z) (s : Virtualizer.t) :
  let s1 := fst (Virtualizer.resizeItem shouldAdjust index size s) in
  Virtualizer.resizeItem shouldAdjust' index size s1 = (s1, []).
Proof.
  intros s1.
  destruct (aget (Virtualizer.measurementsCache s) index) as [item|] eqn:Hitem.
  2: { assert (s1 = s) as ->
         by (subst s1; unfold Virtualizer.resizeItem; by rewrite Hitem).
       unfold Virtualizer.resizeItem. by rewrite Hitem. }
  destruct (decide (size = default (VirtualItem.size item)
                             (Virtualizer.itemSizeCache s
                                !! VirtualItem.key item))) as [Heq|Hne].
  - assert (s1 = s) as ->.
    { subst s1. unfold Virtualizer.resizeItem. rewrite Hitem.
      by rewrite decide_False by lia. }
    unfold Virtualizer.resizeItem. rewrite Hitem.
    by rewrite decide_False by lia.
  - destruct (resizeItem_resized shouldAdjust index size s item Hitem Hne)
      as (Hcache & _ & Hsizes & _).
    fold s1 in Hcache, Hsizes.
    unfold Virtualizer.resizeItem. rewrite Hcache, Hitem, Hsizes.
    rewrite lookup_insert_eq. simpl.
    by rewrite decide_False by lia.
Qed.

(** ** [measure] *)

(** [measure()] forgets the measured sizes: in the recomputation that
    follows, every item from the lowest dirty index on (every item, when
    nothing is dirty) has the size [estimateSize] gives for its index. *)
Theorem measure_then_getMeasurements
    (mo : MeasurementOptions.t) (s : Virtualizer.t) :
  MeasurementOptions.enabled mo = true →
  cache_wf s →
  length (Virtualizer.measurementsCache s) ≠ 0%nat
  ∨ Options.initialMeasurementsCache (Virtualizer.options s) = [] →
  ∃ measurements s2,
    Virtualizer.getMeasurements mo (fst (Virtualizer.measure s))
    = Ok (measurements, s2)
    ∧ ∀ (j : nat) item,
        (Virtualizer.minPending (Virtualizer.pendingMeasuredCacheIndexes s)
         ≤ j)%nat →
        aget measurements (Z.of_nat j) = Some item →
        VirtualItem.size item
        = Options.estimateSize (Virtualizer.options s) j.
Proof.
  intros Hen Hwf Hinitial.
  set (s1 := fst (Virtualizer.measure s)).
  assert (Hwf1 : cache_wf s1) by exact Hwf.
  destruct (getMeasurements_spec mo s1 Hen Hwf1)
    as (measurements & Hget & Hdense & Hlen & _ & Hcomputed).
  eexists _, _. split; [exact Hget|].
  intros j item Hj Hitem. pose proof (aget_Some_lt _ _ _ Hitem) as Hlt.
  change (Virtualizer.pendingMeasuredCacheIndexes s1)
    with (Virtualizer.pendingMeasuredCacheIndexes s) in *.
  destruct (Hcomputed j Hj ltac:(lia)) as (item' & Hitem' & Hm).
  rewrite Hitem in Hitem'. injection Hitem' as <-.
  rewrite (measureItem_size _ _ _ _ _ Hm). simpl.
  rewrite options_loadInitialMeasurements.
  destruct (itemSizeCache_loadInitialMeasurements s1 Hinitial)
    as [->|[-> _]]; simpl; by rewrite lookup_empty.
Qed.

(** Row 1 was measured at 80px; after [measure()] it is back at 50px. *)
Lemma measure_then_getMeasurements_witness :
  let mo := Sample.measurementOptions Sample.gapped in
  let s := fst (Virtualizer.resizeItem None 1 80 measuredGapped) in
  (MeasurementOptions.enabled mo = true ∧ cache_wf s
   ∧ length (Virtualizer.measurementsCache s) ≠ 0%nat) ∧
  ∃ measurements s2,
    Virtualizer.getMeasurements mo (fst (Virtualizer.measure s))
    = Ok (measurements, s2)
    ∧ ∀ (j : nat) item,
        (1 ≤ j)%nat →
        aget measurements (Z.of_nat j) = Some item →
        VirtualItem.size item = 50.
Proof.
  intros mo s.
  assert (Hen : MeasurementOptions.enabled mo = true) by reflexivity.
  assert (Hwf : cache_wf s)
    by (apply resizeItem_keeps_cache_wf, measuredGapped_settled).
  assert (Hfull : length (Virtualizer.measurementsCache s) ≠ 0%nat)
    by (vm_compute; lia).
  split; [done|].
  destruct (measure_then_getMeasurements mo s Hen Hwf (or_introl Hfull))
    as (measurements & s2 & Hget & Hsizes).
  exists measurements, s2. split; [exact Hget|].
  intros j item Hj Hitem. apply (Hsizes j item); [|exact Hitem].
  vm_compute. lia.
Defined.

(** ** The render window, whatever the range *)

(** The default extractor never leaves the collection: whatever range it
    is given, it yields indices between 0 and [count - 1] that lie within
    [overscan] of the range, in ascending order and none of them twice; with
    no item at all it yields nothing. *)
Theorem defaultRangeExtractor_inside (range : Range.t) :
  let indexes := defaultRangeExtractor range in
  (∀ x, x ∈ indexes →
     0 ≤ x ≤ Range.count range - 1
     ∧ Range.startIndex range - Range.overscan range ≤ x
     ∧ x ≤ Range.endIndex range + Range.overscan range)
  ∧ StronglySorted Z.lt indexes
  ∧ NoDup indexes
  ∧ (Range.count range ≤ 0 → indexes = []).
Proof.
  intros indexes. subst indexes. rewrite defaultRangeExtractor_seqZ.
  split; [|split; [apply seqZ_ascending|split; [apply NoDup_seqZ|]]].
  - intros x [k Hk]%list_elem_of_lookup. apply lookup_seqZ in Hk. lia.
  - intros Hcount. apply seqZ_nil. lia.
Qed.

(** The items handed to the renderer: for a range inside a sequence
    without holes, [getVirtualItems] over the default window returns the
    measurements from [max(startIndex - overscan, 0)] to
    [min(endIndex + overscan, count - 1)], each of them present, in order. *)
Theorem getVirtualItems_window
    (range : Range.t) (measurements : list (option VirtualItem.t)) :
  dense measurements →
  Z.of_nat (length measurements) = Range.count range →
  0 ≤ Range.startIndex range →
  Range.startIndex range ≤ Range.endIndex range →
  Range.endIndex range ≤ Range.count range - 1 →
  0 ≤ Range.overscan range →
  let first := Z.max (Range.startIndex range - Range.overscan range) 0 in
  let last := Z.min (Range.endIndex range + Range.overscan range)
                    (Range.count range - 1) in
  let items :=
    Methods.getVirtualItems (defaultRangeExtractor range) measurements in
  Z.of_nat (length items) = last - first + 1
  ∧ ∀ k : nat, Z.of_nat k ≤ last - first →
      ∃ item,
        items !! k = Some (Some item)
        ∧ aget measurements (first + Z.of_nat k) = Some item.
Proof.
  intros Hdense Hlen Hs Hse Hec Ho first last items.
  subst items. unfold Methods.getVirtualItems.
  rewrite defaultRangeExtractor_seqZ. fold first last.
  assert (Hfl : 0 ≤ first ∧ first ≤ last ∧ last ≤ Range.count range - 1)
    by (subst first last; lia).
  split; [rewrite length_fmap, length_seqZ; lia|].
  intros k Hk.
  destruct (dense_aget measurements (first + Z.of_nat k) Hdense) as [item Hitem];
    [lia|].
  exists item. split; [|done].
  rewrite list_lookup_fmap, lookup_seqZ_lt by lia. simpl. by rewrite Hitem.
Qed.

(** Twenty rows, the tight range [{1, 3}], an overscan of one: the rows 0
    to 4 are handed over. *)
Lemma getVirtualItems_window_witness :
  let range := Range.mk 1 3 1 20 in
  let measurements := Sample.rows 20 in
  (dense measurements
   ∧ Z.of_nat (length measurements) = Range.count range
   ∧ 0 ≤ Range.startIndex range
   ∧ Range.startIndex range ≤ Range.endIndex range
   ∧ Range.endIndex range ≤ Range.count range - 1
   ∧ 0 ≤ Range.overscan range) ∧
  Methods.getVirtualItems (defaultRangeExtractor range) measurements
  = [Some (Sample.row 0); Some (Sample.row 1); Some (Sample.row 2);
     Some (Sample.row 3); Some (Sample.row 4)]
  ∧ ∀ k : nat, Z.of_nat k ≤ 4 →
      ∃ item,
        Methods.getVirtualItems (defaultRangeExtractor range) measurements !! k
        = Some (Some item)
        ∧ aget measurements (0 + Z.of_nat k) = Some item.
Proof.
  intros range measurements.
  assert (Hd : dense measurements) by apply dense_fmap_Some.
  assert (Hlen : Z.of_nat (length measurements) = Range.count range)
    by reflexivity.
  assert (H0 : 0 ≤ Range.startIndex range) by (simpl; lia).
  assert (H1 : Range.startIndex range ≤ Range.endIndex range) by (simpl; lia).
  assert (H2 : Range.endIndex range ≤ Range.count range - 1) by (simpl; lia).
  assert (H3 : 0 ≤ Range.overscan range) by (simpl; lia).
  split; [done|]. split; [reflexivity|].
  exact (proj2 (getVirtualItems_window range measurements Hd Hlen H0 H1 H2 H3)).
Defined.

(** ** The item under an offset *)

Lemma findNearestBinarySearch_ext fuel : ∀ low high get1 get2 value,
  (∀ i, get1 i = get2 i) →
  findNearestBinarySearch fuel low high get1 value
  = findNearestBinarySearch fuel low high get2 value.
Proof.
  induction fuel as [|fuel IH]; intros low high get1 get2 value Hsame;
    cbn [findNearestBinarySearch]; [done|].
  destruct (decide (low ≤ high)); [|done].
  rewrite Hsame. destruct (get2 _) as [v| |]; simpl; [|done..].
  repeat case_decide; auto.
Qed.

(** [getVirtualItemForOffset] over starts in ascending order: it returns
    an item; unless that is the first item, it starts at or before the
    offset; and no later item starts before the offset. *)
Theorem getVirtualItemForOffset_under_offset
    (fuel : nat) (items : list VirtualItem.t) (offset : Z) :
  items ≠ [] →
  ascending (VirtualItem.start <$> items) →
  Z.of_nat (length items) < 2 ^ 31 →
  (length items ≤ fuel)%nat →
  ∃ (idx : nat) item,
    Methods.getVirtualItemForOffset fuel (Some <$> items) offset
    = Ok (inr (Some item))
    ∧ items !! idx = Some item
    ∧ (idx = 0%nat ∨ VirtualItem.start item ≤ offset)
    ∧ ∀ (j : nat) y,
        (idx < j)%nat → items !! j = Some y → offset ≤ VirtualItem.start y.
Proof.
  intros Hne Hasc Hlen Hfuel.
  set (starts := VirtualItem.start <$> items) in *.
  assert (Hlens : length starts = length items)
    by (subst starts; by rewrite length_fmap).
  assert (Hpos : (0 < length items)%nat) by (destruct items; simpl; [done|lia]).
  unfold Methods.getVirtualItemForOffset. rewrite length_fmap.
  rewrite decide_False by lia.
  rewrite (findNearestBinarySearch_ext _ _ _ _ (valueAt starts)).
  2: { intros i. unfold valueAt, aget, starts.
       destruct (decide (0 ≤ i)); [|done].
       rewrite !list_lookup_fmap.
       by destruct (items !! Z.to_nat i). }
  rewrite <- Hlens in *.
  destruct (findNearestBinarySearch_bounds fuel 0
              (Z.of_nat (length starts) - 1) (valueAt starts) offset)
    as (idx & Hidx & Hb); try lia.
  { intros i Hi.
    destruct (valueAt_lookup starts i ltac:(lia)) as (v & _ & Hv). eauto. }
  rewrite Hidx.
  destruct (lookup_lt_is_Some_2 items (Z.to_nat idx)) as [item Hitem]; [lia|].
  assert (Hstart : starts !! Z.to_nat idx = Some (VirtualItem.start item))
    by (subst starts; by rewrite list_lookup_fmap, Hitem).
  assert (Hlater : ∀ (j : nat) y, items !! j = Some y →
            starts !! j = Some (VirtualItem.start y))
    by (intros j y Hy; subst starts; by rewrite list_lookup_fmap, Hy).
  exists (Z.to_nat idx), item. split.
  { unfold aget. rewrite decide_True by lia.
    by rewrite list_lookup_fmap, Hitem. }
  split; [done|].
  assert (Hhigh : ∀ (j : nat) w, starts !! j = Some w →
            Z.of_nat (length starts) - 1 < Z.of_nat j → offset < w)
    by (intros j w Hj Hhigh; apply lookup_lt_Some in Hj; lia).
  destruct (findNearestBinarySearch_hit starts offset fuel 0
              (Z.of_nat (length starts) - 1) idx Hasc)
    as [[_ Hhit]|Hmiss]; try done; try lia.
  - rewrite Hstart in Hhit. injection Hhit as Hhit.
    split; [right; lia|].
    intros j y Hj Hy. rewrite <- Hhit.
    apply (Hasc (Z.to_nat idx) j); auto with lia.
  - destruct (findNearestBinarySearch_floor starts offset fuel 0
                (Z.of_nat (length starts) - 1) idx Hasc Hmiss)
      as [[-> Hall]|(_ & (v & Hv & Hle) & Hfloor)]; try done; try lia.
    + split; [by left|].
      intros j y _ Hy. specialize (Hall j _ (Hlater j y Hy)). lia.
    + rewrite Hstart in Hv. injection Hv as <-.
      split; [by right|].
      intros j y Hj Hy.
      destruct (Z_le_gt_dec offset (VirtualItem.start y)) as [|Hgt]; [done|].
      specialize (Hfloor j _ (Hlater j y Hy) ltac:(lia)). lia.
Qed.

Lemma ascending_rows n :
  ascending (VirtualItem.start <$> (Sample.row <$> seq 0 n)).
Proof.
  intros i j v w. rewrite !list_lookup_fmap.
  destruct (seq 0 n !! i) as [a|] eqn:Ha; simpl; [|done].
  destruct (seq 0 n !! j) as [b|] eqn:Hb; simpl; [|done].
  apply lookup_seq in Ha as [-> _]. apply lookup_seq in Hb as [-> _].
  intros [= <-] [= <-] Hij. simpl. lia.
Qed.

(** Twenty rows of 50px: offset 120 falls into row 2. *)
Lemma getVirtualItemForOffset_under_offset_witness :
  let items := Sample.row <$> seq 0 20 in
  (items ≠ [] ∧ ascending (VirtualItem.start <$> items)
   ∧ Z.of_nat (length items) < 2 ^ 31 ∧ (length items ≤ 20)%nat) ∧
  Methods.getVirtualItemForOffset 20 (Some <$> items) 120
  = Ok (inr (Some (Sample.row 2)))
  ∧ ∃ (idx : nat) item,
      Methods.getVirtualItemForOffset 20 (Some <$> items) 120
      = Ok (inr (Some item))
      ∧ items !! idx = Some item
      ∧ (idx = 0%nat ∨ VirtualItem.start item ≤ 120).
Proof.
  intros items.
  assert (Hne : items ≠ []) by done.
  assert (Hasc : ascending (VirtualItem.start <$> items))
    by apply ascending_rows.
  assert (Hlen : Z.of_nat (length items) < 2 ^ 31) by (simpl; lia).
  assert (Hfuel : (length items ≤ 20)%nat) by (simpl; lia).
  split; [done|]. split; [reflexivity|].
  destruct (getVirtualItemForOffset_under_offset 20 items 120
              Hne Hasc Hlen Hfuel) as (idx & item & Hget & Hitem & Hle & _).
  by exists idx, item.
Defined.

(** A hole in the sequence: the search reads it, and the method throws the
    error of [notUndefined]. *)
Example getVirtualItemForOffset_hole :
  Methods.getVirtualItemForOffset 3 [Some (Sample.row 0); None; Some (Sample.row 2)] 70
  = Ok (inl (Error "Unexpected undefined"))
  ∧ Methods.getVirtualItemForOffset 3 [] 70 = Ok (inr None).
Proof. split; reflexivity. Qed.

(** ** Scroll requests *)

(** [scrollToOffset] asks for a place the container can scroll to:
    whatever the target and the alignment, its one request is for an offset
    between 0 and [scrollSize - viewportSize] (0 if that is negative), and
    carries no adjustment. The offset may carry a half pixel, so the bounds
    are stated on its double. *)
Theorem scrollToOffset_request_in_range
    (toOffset : Z) (align : option ScrollAlignment)
    (behavior : option ScrollBehavior) (s : Virtualizer.t) :
  let viewportSize := fst (Virtualizer.getSize s) in
  let scrollSize :=
    match Virtualizer.scrollElement s with
    | Some element =>
        if Options.horizontal (Virtualizer.options s)
        then ScrollElement.scrollWidth element
        else ScrollElement.scrollHeight element
    | None => 0
    end in
  ∃ offset,
    snd (Virtualizer.scrollToOffset toOffset align behavior s)
    = snd (Virtualizer.cancelScrollToIndex s)
      ++ [Virtualizer.ScrollToFn offset None behavior]
    ∧ 0 ≤ twice offset ≤ 2 * Z.max 0 (scrollSize - viewportSize).
Proof.
  intros viewportSize scrollSize. subst viewportSize scrollSize.
  unfold Virtualizer.scrollToOffset, Virtualizer.cancelScrollToIndex,
    Virtualizer.getOffsetForAlignment, Virtualizer.getSize,
    Virtualizer.getScrollOffset.
  destruct (Virtualizer.scrollToIndexTimeoutId s) as [id|],
    (Virtualizer.targetWindow s),
    (Options.enabled (Virtualizer.options s)) eqn:Hen;
    run_getters Hen; eexists; (split; [reflexivity|]);
    unfold Math_max, Math_min, whole; simpl twice; lia.
Qed.

(** [getOffsetForIndex] settles the viewport size and the offset, and
    leaves the rest of the instance alone. *)
Lemma getOffsetForIndex_frame index align s :
  let s2 := snd (Virtualizer.getOffsetForIndex index align s) in
  Virtualizer.scrollToIndexTimeoutId s2 = Virtualizer.scrollToIndexTimeoutId s
  ∧ Virtualizer.targetWindow s2 = Virtualizer.targetWindow s
  ∧ Virtualizer.elementsCache s2 = Virtualizer.elementsCache s
  ∧ Virtualizer.options s2 = Virtualizer.options s
  ∧ Virtualizer.measurementsCache s2 = Virtualizer.measurementsCache s
  ∧ Virtualizer.scrollElement s2 = Virtualizer.scrollElement s.
Proof.
  unfold Virtualizer.getOffsetForIndex.
  destruct (aget _ _) as [item|]; [|done].
  unfold Virtualizer.getOffsetForAlignment, Virtualizer.getSize,
    Virtualizer.getScrollOffset.
  destruct (Options.enabled (Virtualizer.options s)) eqn:Hen;
    run_getters Hen; repeat case_decide; run_getters Hen; done.
Qed.

(** Every scroll call cancels the retry that is pending: with a window
    attached and a timer [old] armed, [scrollToOffset], [scrollBy] and
    [scrollToIndex] each clear [old] before anything else, and only
    [scrollToIndex] may leave a timer armed, the new one. *)
Theorem scroll_calls_cancel_retry
    (old id : nat) (target : Z) (align : option ScrollAlignment)
    (behavior : option ScrollBehavior) (s : Virtualizer.t) :
  Virtualizer.targetWindow s = true →
  Virtualizer.scrollToIndexTimeoutId s = Some old →
  (head (snd (Virtualizer.scrollToOffset target align behavior s))
   = Some (Virtualizer.ClearTimeout old)
   ∧ Virtualizer.scrollToIndexTimeoutId
       (fst (Virtualizer.scrollToOffset target align behavior s)) = None)
  ∧ (head (snd (Virtualizer.scrollBy target behavior s))
     = Some (Virtualizer.ClearTimeout old)
     ∧ Virtualizer.scrollToIndexTimeoutId
         (fst (Virtualizer.scrollBy target behavior s)) = None)
  ∧ (head (snd (Methods.scrollToIndex id target align behavior s))
     = Some (Methods.Do (Virtualizer.ClearTimeout old))
     ∧ (Virtualizer.scrollToIndexTimeoutId
          (fst (Methods.scrollToIndex id target align behavior s)) = None
        ∨ Virtualizer.scrollToIndexTimeoutId
            (fst (Methods.scrollToIndex id target align behavior s))
          = Some id)).
Proof.
  intros Hwindow Htimer.
  split; [|split].
  - unfold Virtualizer.scrollToOffset, Virtualizer.cancelScrollToIndex,
      Virtualizer.getOffsetForAlignment, Virtualizer.getSize,
      Virtualizer.getScrollOffset.
    rewrite Htimer, Hwindow.
    destruct (Options.enabled (Virtualizer.options s)) eqn:Hen;
      run_getters Hen; done.
  - unfold Virtualizer.scrollBy, Virtualizer.cancelScrollToIndex,
      Virtualizer.getScrollOffset.
    rewrite Htimer, Hwindow.
    destruct (Options.enabled (Virtualizer.options s)) eqn:Hen;
      run_getters Hen; done.
  - unfold Methods.scrollToIndex, Virtualizer.cancelScrollToIndex.
    rewrite Htimer, Hwindow.
    match goal with
    | |- context [Virtualizer.getOffsetForIndex ?i ?a ?s1] =>
        pose proof (getOffsetForIndex_frame i a s1) as (Hid & _);
        destruct (Virtualizer.getOffsetForIndex i a s1)
          as [[[offset a']|] s2]
    end; simpl in Hid.
    + destruct (negb _ && _ && _); simpl; auto.
    + simpl. auto.
Qed.

Lemma scroll_calls_cancel_retry_witness :
  let s := Virtualizer.set_scrollToIndexTimeoutId (Some 7%nat)
             (Sample.scrolled 200) in
  (Virtualizer.targetWindow s = true
   ∧ Virtualizer.scrollToIndexTimeoutId s = Some 7%nat) ∧
  snd (Virtualizer.scrollBy 100 None s)
  = [Virtualizer.ClearTimeout 7; Virtualizer.ScrollToFn 300 None None]
  ∧ head (snd (Methods.scrollToIndex 8 20 None None s))
    = Some (Methods.Do (Virtualizer.ClearTimeout 7)).
Proof.
  intros s.
  assert (Hwindow : Virtualizer.targetWindow s = true) by reflexivity.
  assert (Htimer : Virtualizer.scrollToIndexTimeoutId s = Some 7%nat)
    by reflexivity.
  split; [done|]. split; [reflexivity|].
  exact (proj1 (proj2 (proj2 (scroll_calls_cancel_retry 7 8 20 None None s
                                Hwindow Htimer)))).
Defined.

(** ** The retry of [scrollToIndex] *)

Ltac run_scroll :=
  cbv beta iota zeta delta
    [Virtualizer.getOffsetForIndex Virtualizer.getOffsetForAlignment
     Virtualizer.getSize Virtualizer.getScrollOffset
     Virtualizer.set_scrollOffset Virtualizer.set_scrollRect
     Virtualizer.set_scrollToIndexTimeoutId
     Virtualizer.options Virtualizer.scrollElement
     Virtualizer.targetWindow Virtualizer.scrollToIndexTimeoutId
     Virtualizer.measurementsCache Virtualizer.itemSizeCache
     Virtualizer.pendingMeasuredCacheIndexes Virtualizer.scrollRect
     Virtualizer.scrollOffset Virtualizer.scrollAdjustments
     Virtualizer.elementsCache Virtualizer.range
     Options.count Options.horizontal Options.scrollPaddingStart
     Options.scrollPaddingEnd Options.initialOffset Options.initialRect
     Options.enabled negb fst snd default from_option id].

(** Asking again where the first answer led: once the container is within
    a pixel of the offset [getOffsetForIndex] gave, the alignment it
    resolved gives that offset again. *)
Lemma getOffsetForIndex_again index align s offset align' timer current :
  Options.enabled (Virtualizer.options s) = true →
  fst (Virtualizer.getOffsetForIndex index align s) = Some (offset, align') →
  Z.abs (twice offset - 2 * current) < 2 →
  let s' :=
    Virtualizer.set_scrollOffset (Some current)
      (Virtualizer.set_scrollToIndexTimeoutId timer
         (snd (Virtualizer.getOffsetForIndex index align s))) in
  Virtualizer.getOffsetForIndex index align' s' = (Some (offset, align'), s')
  ∧ Virtualizer.getScrollOffset s' = (current, s').
Proof.
  destruct s as [o se tw tid mc isc p sr so sa ec r].
  destruct o as [count est over hor ps pe sps spe io gk ir sm gap imc lanes en].
  simpl. intros ->. run_scroll.
  destruct (aget mc (Z.max 0 (Z.min index (count - 1)))) as [item|] eqn:Hitem;
    [|done].
  destruct (decide (align = AlignAuto)) as [->|Hmanual].
  - destruct (decide (VirtualItem.end_ item >= _)) as [Hend|Hend];
      [|destruct (decide (VirtualItem.start item <= _)) as [Hstart|Hstart]];
      run_scroll; intros [= <- <-] Hnear.
    + run_scroll. rewrite Hitem. repeat case_decide; try done; lia.
    + run_scroll. rewrite Hitem. repeat case_decide; try done; lia.
    + unfold whole in Hnear. simpl in Hnear.
      assert (current = match so with Some x => x | None => io end) as ->
        by lia.
      run_scroll. rewrite Hitem. repeat case_decide; try done; lia.
  - run_scroll. rewrite (decide_False (P := align = AlignAuto)) by done.
    intros [= <- <-] _. run_scroll. rewrite Hitem.
    rewrite !(decide_False (P := align = AlignAuto)) by done.
    done.
Qed.

Lemma getOffsetForIndex_Some index align s item :
  aget (Virtualizer.measurementsCache s)
       (Z.max 0 (Z.min index (Options.count (Virtualizer.options s) - 1)))
  = Some item →
  ∃ offset align', fst (Virtualizer.getOffsetForIndex index align s)
                   = Some (offset, align').
Proof.
  intros Hitem. unfold Virtualizer.getOffsetForIndex. rewrite Hitem.
  unfold Virtualizer.getOffsetForAlignment, Virtualizer.getSize,
    Virtualizer.getScrollOffset.
  destruct (Options.enabled (Virtualizer.options s)) eqn:Hen;
    run_getters Hen; repeat case_decide; run_getters Hen; eauto.
Qed.

Lemma cancelScrollToIndex_frame s :
  let s1 := fst (Virtualizer.cancelScrollToIndex s) in
  Virtualizer.options s1 = Virtualizer.options s
  ∧ Virtualizer.elementsCache s1 = Virtualizer.elementsCache s
  ∧ Virtualizer.targetWindow s1 = Virtualizer.targetWindow s
  ∧ Virtualizer.measurementsCache s1 = Virtualizer.measurementsCache s
  ∧ (snd (Virtualizer.cancelScrollToIndex s) = []
     ∨ ∃ old, snd (Virtualizer.cancelScrollToIndex s)
              = [Virtualizer.ClearTimeout old]).
Proof.
  unfold Virtualizer.cancelScrollToIndex.
  destruct (Virtualizer.scrollToIndexTimeoutId s) as [old|];
    [destruct (Virtualizer.targetWindow s) eqn:Hw|]; simpl; eauto 10.
Qed.

(** The retry stops on arrival. When [scrollToIndex] has requested [offset]
    and armed a retry, and the retry fires with the element of the item
    mounted and the container at [offset] (or, the offset of the container
    being a whole number, less than a pixel away from a request that
    carries a half), the retry requests nothing, arms nothing and leaves no
    timer recorded. *)
Theorem scrollToIndexRetry_settles
    (id id' : nat) (index : Z) (initialAlign : option ScrollAlignment)
    (behavior : option ScrollBehavior) (s : Virtualizer.t)
    (before : list Methods.action) (offset : number) (idx current : Z)
    (align : ScrollAlignment) :
  Options.enabled (Virtualizer.options s) = true →
  snd (Methods.scrollToIndex id index initialAlign behavior s)
  = before ++ [Methods.Do (Virtualizer.ScrollToFn offset None behavior);
               Methods.SetTimeout id idx align behavior] →
  Options.getItemKey (Virtualizer.options s) (Z.to_nat idx)
  ∈ Virtualizer.elementsCache s →
  Z.abs (twice offset - 2 * current) < 2 →
  ∃ s',
    Methods.scrollToIndexRetry id' idx align behavior
      (Virtualizer.set_scrollOffset (Some current)
         (fst (Methods.scrollToIndex id index initialAlign behavior s)))
    = inr (s', [])
    ∧ Virtualizer.scrollToIndexTimeoutId s' = None.
Proof.
  intros Hen. unfold Methods.scrollToIndex.
  set (clamped := Z.max 0 (Z.min index
                             (Options.count (Virtualizer.options s) - 1))).
  destruct (cancelScrollToIndex_frame s) as (Hopt & Hels & _ & _ & Hcancelled).
  destruct (Virtualizer.cancelScrollToIndex s) as [sc cancelled].
  simpl in Hopt, Hels, Hcancelled.
  pose proof (getOffsetForIndex_frame clamped (default AlignAuto initialAlign) sc)
    as (_ & _ & Hels2 & Hopt2 & _).
  pose proof (getOffsetForIndex_again clamped (default AlignAuto initialAlign) sc)
    as Hagain.
  destruct (Virtualizer.getOffsetForIndex clamped
              (default AlignAuto initialAlign) sc) as [[[o a]|] s2].
  - simpl in Hels2, Hopt2.
    destruct (negb _ && _ && _); simpl.
    + rewrite fmap_app. simpl.
      rewrite (cons_middle _ before [_]), (app_assoc before).
      intros Hacts Hmounted Hnear.
      apply app_inj_tail in Hacts as [Hacts [= <- <-]].
      apply app_inj_tail in Hacts as [_ [= <-]].
      specialize (Hagain o a None current ltac:(congruence) eq_refl Hnear).
      simpl in Hagain. destruct Hagain as [Hsame Hread].
      unfold Methods.scrollToIndexRetry. simpl.
      rewrite Hopt2, Hels2, Hopt, Hels, bool_decide_eq_true_2 by done.
      assert (Hstate :
        Virtualizer.set_scrollToIndexTimeoutId None
          (Virtualizer.set_scrollOffset (Some current)
             (Virtualizer.set_scrollToIndexTimeoutId (Some id) s2))
        = Virtualizer.set_scrollOffset (Some current)
            (Virtualizer.set_scrollToIndexTimeoutId None s2)) by reflexivity.
      rewrite Hstate, Hsame, Hread.
      unfold approxEqual. rewrite bool_decide_eq_true_2 by done.
      eauto.
    + rewrite fmap_app. simpl.
      rewrite (cons_middle _ before [_]), (app_assoc before).
      intros Hacts. by apply app_inj_tail in Hacts as [_ [=]].
  - simpl. intros Hacts.
    destruct Hcancelled as [->|[old ->]]; simpl in Hacts;
      by destruct before as [|? [|? ?]].
Qed.

(** Row 20 asked for from offset 200: the request is 550, and a retry that
    finds the container at 550 ends the matter. *)
Lemma scrollToIndexRetry_settles_witness :
  let s := mountedRows 200 in
  (Options.enabled (Virtualizer.options s) = true
   ∧ snd (Methods.scrollToIndex 8 20 None None s)
     = [] ++ [Methods.Do (Virtualizer.ScrollToFn 550 None None);
              Methods.SetTimeout 8 20 AlignEnd None]
   ∧ Options.getItemKey (Virtualizer.options s) (Z.to_nat 20)
     ∈ Virtualizer.elementsCache s
   ∧ Z.abs (twice (whole 550) - 2 * 550) < 2) ∧
  ∃ s',
    Methods.scrollToIndexRetry 9 20 AlignEnd None
      (Virtualizer.set_scrollOffset (Some 550)
         (fst (Methods.scrollToIndex 8 20 None None s)))
    = inr (s', [])
    ∧ Virtualizer.scrollToIndexTimeoutId s' = None.
Proof.
  intros s.
  assert (Hen : Options.enabled (Virtualizer.options s) = true) by reflexivity.
  assert (Hacts : snd (Methods.scrollToIndex 8 20 None None s)
                  = [] ++ [Methods.Do (Virtualizer.ScrollToFn 550 None None);
                           Methods.SetTimeout 8 20 AlignEnd None])
    by (vm_compute; reflexivity).
  assert (Hmounted : Options.getItemKey (Virtualizer.options s) (Z.to_nat 20)
                     ∈ Virtualizer.elementsCache s)
    by (apply (bool_decide_unpack _); vm_compute; exact I).
  assert (Hnear : Z.abs (twice (whole 550) - 2 * 550) < 2)
    by (vm_compute; reflexivity).
  split; [done|].
  exact (scrollToIndexRetry_settles 8 9 20 None None s [] (whole 550) 20 550
           AlignEnd Hen Hacts Hmounted Hnear).
Defined.

(** The retry polls. As long as the element of the item is not mounted,
    with a window attached, elements under measurement and a behavior that
    is not smooth, a retry that fires requests a scroll again and arms the
    next retry for the same index; what it leaves behind lets the next
    retry do the same. *)
Theorem scrollToIndexRetry_polls
    (id : nat) (index : Z) (align : ScrollAlignment)
    (behavior : option ScrollBehavior) (s : Virtualizer.t)
    (item : VirtualItem.t) :
  Virtualizer.targetWindow s = true →
  Virtualizer.isDynamicMode s = true →
  behavior ≠ Some BehaviorSmooth →
  0 ≤ index < Options.count (Virtualizer.options s) →
  aget (Virtualizer.measurementsCache s) index = Some item →
  Options.getItemKey (Virtualizer.options s) (Z.to_nat index)
  ∉ Virtualizer.elementsCache s →
  ∃ offset align' s',
    Methods.scrollToIndexRetry id index align behavior s
    = inr (s', [Methods.Do (Virtualizer.ScrollToFn offset None behavior);
                Methods.SetTimeout id index align' behavior])
    ∧ Virtualizer.scrollToIndexTimeoutId s' = Some id
    ∧ Virtualizer.targetWindow s' = true
    ∧ Virtualizer.isDynamicMode s' = true
    ∧ Virtualizer.options s' = Virtualizer.options s
    ∧ Virtualizer.measurementsCache s' = Virtualizer.measurementsCache s
    ∧ Virtualizer.elementsCache s' = Virtualizer.elementsCache s.
Proof.
  intros Hwindow Hdynamic Hbehavior Hindex Hitem Hmissing.
  set (s0 := Virtualizer.set_scrollToIndexTimeoutId None s).
  assert (Hclamped : Z.max 0 (Z.min index
                               (Options.count (Virtualizer.options s0) - 1))
                     = index) by (simpl; lia).
  destruct (getOffsetForIndex_Some index align s0 item)
    as (offset & align' & Hsome); [by rewrite Hclamped|].
  pose proof (getOffsetForIndex_frame index align s0)
    as (_ & Hwindow2 & Hels2 & Hopt2 & Hcache2 & _).
  exists offset, align'.
  exists (Virtualizer.set_scrollToIndexTimeoutId (Some id)
            (snd (Virtualizer.getOffsetForIndex index align s0))).
  split.
  - unfold Methods.scrollToIndexRetry. cbv zeta. fold s0.
    rewrite bool_decide_eq_false_2 by done.
    unfold Methods.scrollToIndex. cbv zeta.
    assert (Hcancel : Virtualizer.cancelScrollToIndex s0 = (s0, [])) by done.
    rewrite Hcancel, Hclamped. simpl default.
    destruct (Virtualizer.getOffsetForIndex index align s0) as [r s2].
    simpl in Hsome, Hwindow2, Hels2. subst r.
    assert (Hdynamic2 : Virtualizer.isDynamicMode s2 = true).
    { unfold Virtualizer.isDynamicMode in *. by rewrite Hels2. }
    rewrite Hdynamic2, Hwindow2.
    rewrite bool_decide_eq_false_2 by done. simpl.
    by rewrite Hwindow.
  - simpl. rewrite Hwindow2, Hopt2, Hcache2, Hels2.
    unfold Virtualizer.isDynamicMode in *. simpl. by rewrite Hels2.
Qed.

(** Row 30 is not mounted: the retry for it asks again and arms timer 9. *)
Lemma scrollToIndexRetry_polls_witness :
  let s := mountedRows 200 in
  (Virtualizer.targetWindow s = true
   ∧ Virtualizer.isDynamicMode s = true
   ∧ None ≠ Some BehaviorSmooth
   ∧ 0 ≤ 30 < Options.count (Virtualizer.options s)
   ∧ aget (Virtualizer.measurementsCache s) 30 = Some (Sample.row 30)
   ∧ Options.getItemKey (Virtualizer.options s) (Z.to_nat 30)
     ∉ Virtualizer.elementsCache s) ∧
  ∃ offset align' s',
    Methods.scrollToIndexRetry 9 30 AlignEnd None s
    = inr (s', [Methods.Do (Virtualizer.ScrollToFn offset None None);
                Methods.SetTimeout 9 30 align' None])
    ∧ Virtualizer.scrollToIndexTimeoutId s' = Some 9%nat.
Proof.
  intros s.
  assert (Hwindow : Virtualizer.targetWindow s = true) by reflexivity.
  assert (Hdynamic : Virtualizer.isDynamicMode s = true)
    by (vm_compute; reflexivity).
  assert (Hbehavior : None ≠ Some BehaviorSmooth) by done.
  assert (Hindex : 0 ≤ 30 < Options.count (Virtualizer.options s))
    by (simpl; lia).
  assert (Hitem : aget (Virtualizer.measurementsCache s) 30
                  = Some (Sample.row 30)) by (vm_compute; reflexivity).
  assert (Hmissing : Options.getItemKey (Virtualizer.options s) (Z.to_nat 30)
                     ∉ Virtualizer.elementsCache s).
  { apply (bool_decide_unpack _). vm_compute. exact I. }
  split; [done|].
  destruct (scrollToIndexRetry_polls 9 30 AlignEnd None s (Sample.row 30)
              Hwindow Hdynamic Hbehavior Hindex Hitem Hmissing)
    as (offset & align' & s' & Hretry & Htimer & _).
  by exists offset, align', s'.
Defined.

(** ** The total size *)

Lemma lastEnds_eq fuel measurements endByLane endIndex :
  Methods.lastEnds fuel measurements endByLane endIndex
  = if bool_decide (endIndex >= 0)
       && existsb (λ val, bool_decide (val = None)) endByLane then
      item ← deref (aget measurements endIndex);
      let endByLane' :=
        match Methods.laneSlot endByLane (VirtualItem.lane item) with
        | Some None =>
            <[Z.to_nat (VirtualItem.lane item) := Some (VirtualItem.end_ item)]>
              endByLane
        | _ => endByLane
        end in
      match fuel with
      | O => OutOfFuel
      | S fuel' =>
          Methods.lastEnds fuel' measurements endByLane' (endIndex - 1)
      end
    else Ok endByLane.
Proof. by destruct fuel. Qed.

Lemma foldr_max_ge (e : Z) (es : list Z) x :
  x ∈ e :: es → x ≤ foldr Z.max e es.
Proof.
  induction es as [|y es IH]; simpl.
  - intros ->%list_elem_of_singleton. lia.
  - rewrite !elem_of_cons. intros [->|[->|Hin]].
    + assert (e ≤ foldr Z.max e es) by (apply IH; left). lia.
    + lia.
    + assert (x ≤ foldr Z.max e es) by (apply IH; by right). lia.
Qed.

Lemma foldr_max_elem (e : Z) (es : list Z) : foldr Z.max e es ∈ e :: es.
Proof.
  induction es as [|y es IH]; simpl; [left|].
  destruct (Z.max_spec y (foldr Z.max e es)) as [[_ ->]|[_ ->]].
  - apply elem_of_cons in IH as [->|Hin]; [left|]. by do 2 right.
  - right; left.
Qed.

(** The backward scan of [getTotalSize]: it ends, and what stands in a lane
    is the end of an item and bounds the ends of the lane; every lane that
    holds an item is filled. *)
Lemma lastEnds_spec measurements :
  dense measurements → lane_ordered measurements →
  ∀ fuel endByLane endIndex,
    endIndex < Z.of_nat (length measurements) →
    endIndex < Z.of_nat fuel →
    (∀ (l : nat) v, endByLane !! l = Some (Some v) →
       (∃ (j : nat) item, aget measurements (Z.of_nat j) = Some item
                          ∧ VirtualItem.end_ item = v)
       ∧ ∀ (j : nat) item, aget measurements (Z.of_nat j) = Some item →
           VirtualItem.lane item = Z.of_nat l → VirtualItem.end_ item ≤ v) →
    (∀ (l : nat), endByLane !! l = Some None →
       ∀ (j : nat) item, endIndex < Z.of_nat j →
         aget measurements (Z.of_nat j) = Some item →
         VirtualItem.lane item ≠ Z.of_nat l) →
    ∃ ends,
      Methods.lastEnds fuel measurements endByLane endIndex = Ok ends
      ∧ (∀ (l : nat) v, ends !! l = Some (Some v) →
           (∃ (j : nat) item, aget measurements (Z.of_nat j) = Some item
                              ∧ VirtualItem.end_ item = v)
           ∧ ∀ (j : nat) item, aget measurements (Z.of_nat j) = Some item →
               VirtualItem.lane item = Z.of_nat l → VirtualItem.end_ item ≤ v)
      ∧ (∀ (j : nat) item, aget measurements (Z.of_nat j) = Some item →
           0 ≤ VirtualItem.lane item < Z.of_nat (length endByLane) →
           ∃ v, ends !! Z.to_nat (VirtualItem.lane item) = Some (Some v)).
Proof.
  intros Hdense Hordered.
  induction fuel as [|fuel IH]; intros endByLane endIndex Hlen Hfuel Hset Hfree;
    rewrite lastEnds_eq.
  - rewrite bool_decide_eq_false_2 by lia. simpl.
    exists endByLane. split; [done|]. split; [done|].
    intros j item Hitem Hlane.
    destruct (lookup_lt_is_Some_2 endByLane (Z.to_nat (VirtualItem.lane item))
                ltac:(lia)) as [[v|] Hslot]; [by exists v|].
    exfalso. apply (Hfree _ Hslot j item); [lia|done|lia].
  - destruct (bool_decide (endIndex >= 0)
              && existsb (λ val, bool_decide (val = None)) endByLane) eqn:Hcond.
    + apply andb_true_iff in Hcond as [Hpos%bool_decide_eq_true _].
      destruct (dense_aget measurements endIndex Hdense ltac:(lia))
        as [item Hitem].
      rewrite Hitem. simpl.
      replace endIndex with (Z.of_nat (Z.to_nat endIndex)) in Hitem by lia.
      unfold Methods.laneSlot.
      destruct (decide (0 ≤ VirtualItem.lane item)) as [Hlane|Hlane];
        [destruct (endByLane !! Z.to_nat (VirtualItem.lane item))
           as [[v|]|] eqn:Hslot|].
      * (* the lane is filled already *)
        destruct (IH endByLane (endIndex - 1)) as (ends & Hrun & Hends & Hall);
          [lia|lia|done| |by exists ends].
        intros l Hl j item' Hj Hitem' Heq.
        destruct (decide (Z.of_nat j = endIndex)) as [Hje|Hje].
        -- replace j with (Z.to_nat endIndex) in Hitem' by lia.
           rewrite Hitem in Hitem'. injection Hitem' as <-.
           rewrite Heq, Nat2Z.id in Hslot. congruence.
        -- apply (Hfree l Hl j item'); [lia|done|done].
      * (* the lane is free: the item fills it *)
        destruct (IH (<[Z.to_nat (VirtualItem.lane item)
                        := Some (VirtualItem.end_ item)]> endByLane)
                    (endIndex - 1)) as (ends & Hrun & Hends & Hall);
          [lia|lia| | |].
        -- intros l v Hl.
           destruct (decide (l = Z.to_nat (VirtualItem.lane item))) as [->|Hne].
           ++ rewrite list_lookup_insert_eq in Hl
                by (by apply lookup_lt_is_Some_1; eauto).
              injection Hl as <-. split; [eauto|].
              intros j item' Hitem' Heq.
              destruct (decide (endIndex < Z.of_nat j)) as [Hafter|Hbefore].
              ** exfalso. apply (Hfree _ Hslot j item'); [done..|lia].
              ** apply (Hordered j (Z.to_nat endIndex) item' item);
                   [done|done|lia|lia].
           ++ rewrite list_lookup_insert_ne in Hl by done. by apply Hset.
        -- intros l Hl j item' Hj Hitem' Heq.
           destruct (decide (l = Z.to_nat (VirtualItem.lane item))) as [->|Hne].
           { rewrite list_lookup_insert_eq in Hl
               by (by apply lookup_lt_is_Some_1; eauto). done. }
           rewrite list_lookup_insert_ne in Hl by done.
           destruct (decide (Z.of_nat j = endIndex)) as [Hje|Hje].
           ++ replace j with (Z.to_nat endIndex) in Hitem' by lia.
              rewrite Hitem in Hitem'. injection Hitem' as <-. lia.
           ++ apply (Hfree l Hl j item'); [lia|done|done].
        -- exists ends. split; [done|]. split; [done|].
           intros j item' Hitem' Hrange. apply (Hall j item' Hitem').
           by rewrite length_insert.
      * (* the lane is no slot of the array *)
        destruct (IH endByLane (endIndex - 1)) as (ends & Hrun & Hends & Hall);
          [lia|lia|done| |by exists ends].
        intros l Hl j item' Hj Hitem' Heq.
        destruct (decide (Z.of_nat j = endIndex)) as [Hje|Hje].
        -- replace j with (Z.to_nat endIndex) in Hitem' by lia.
           rewrite Hitem in Hitem'. injection Hitem' as <-.
           rewrite Heq, Nat2Z.id in Hslot. congruence.
        -- apply (Hfree l Hl j item'); [lia|done|done].
      * (* a negative lane *)
        destruct (IH endByLane (endIndex - 1)) as (ends & Hrun & Hends & Hall);
          [lia|lia|done| |by exists ends].
        intros l Hl j item' Hj Hitem' Heq.
        destruct (decide (Z.of_nat j = endIndex)) as [Hje|Hje].
        -- replace j with (Z.to_nat endIndex) in Hitem' by lia.
           rewrite Hitem in Hitem'. injection Hitem' as <-. lia.
        -- apply (Hfree l Hl j item'); [lia|done|done].
    + exists endByLane. split; [done|]. split; [done|].
      intros j item Hitem Hlane.
      destruct (lookup_lt_is_Some_2 endByLane (Z.to_nat (VirtualItem.lane item))
                  ltac:(lia)) as [[v|] Hslot]; [by exists v|].
      exfalso. apply andb_false_iff in Hcond as [Hneg|Hfull].
      * apply bool_decide_eq_false in Hneg.
        apply (Hfree _ Hslot j item); [lia|done|lia].
      * assert (existsb (λ val : option Z, bool_decide (val = None)) endByLane
                = true); [|congruence].
        apply existsb_exists. exists None. split; [|done].
        apply list_elem_of_In. by eapply list_elem_of_lookup_2.
Qed.

(** The total size reaches every item. Over a sequence without holes whose
    items lie in the lanes of the options, ends rising along each lane, the
    total size is the furthest end of an item, less [scrollMargin], plus
    [paddingEnd], and 0 when that is negative; so no item ends beyond it. *)
Theorem getTotalSize_covers
    (fuel : nat) (measurements : list (option VirtualItem.t))
    (s : Virtualizer.t) :
  measurements ≠ [] →
  dense measurements →
  lane_ordered measurements →
  1 ≤ Options.lanes (Virtualizer.options s) < 2 ^ 32 →
  (∀ (j : nat) item, aget measurements (Z.of_nat j) = Some item →
     0 ≤ VirtualItem.lane item < Options.lanes (Virtualizer.options s)) →
  (length measurements ≤ fuel)%nat →
  ∃ total,
    Methods.getTotalSize fuel measurements s = Ok (inr total)
    ∧ (∀ (j : nat) item, aget measurements (Z.of_nat j) = Some item →
         VirtualItem.end_ item
         - Options.scrollMargin (Virtualizer.options s)
         + Options.paddingEnd (Virtualizer.options s) ≤ total)
    ∧ ∃ (j : nat) item,
        aget measurements (Z.of_nat j) = Some item
        ∧ total = Z.max (VirtualItem.end_ item
                         - Options.scrollMargin (Virtualizer.options s)
                         + Options.paddingEnd (Virtualizer.options s)) 0.
Proof.
  intros Hne Hdense Hordered Hlanes Hrange Hfuel.
  set (o := Virtualizer.options s) in *.
  assert (Hlen : (0 < length measurements)%nat)
    by (destruct measurements; [done|simpl; lia]).
  unfold Methods.getTotalSize. cbv zeta. fold o.
  rewrite decide_False by lia.
  destruct (decide (Options.lanes o = 1)) as [Hone|Hmany].
  - destruct (dense_aget measurements (Z.of_nat (length measurements) - 1)
                Hdense ltac:(lia)) as [final Hfinal].
    rewrite Hfinal. eexists. split; [reflexivity|].
    replace (Z.of_nat (length measurements) - 1)
      with (Z.of_nat (length measurements - 1)) in Hfinal by lia.
    split; [|by exists (length measurements - 1)%nat, final].
    intros j item Hitem.
    pose proof (aget_Some_lt _ _ _ Hitem) as Hj.
    pose proof (Hrange _ _ Hitem). pose proof (Hrange _ _ Hfinal).
    assert (VirtualItem.end_ item ≤ VirtualItem.end_ final); [|lia].
    apply (Hordered j (length measurements - 1)%nat); [done|done|lia|lia].
  - rewrite decide_True by lia.
    destruct (lastEnds_spec measurements Hdense Hordered fuel
                (replicate (Z.to_nat (Options.lanes o)) None)
                (Z.of_nat (length measurements) - 1))
      as (ends & Hrun & Hends & Hall); [lia|lia|..].
    { intros l v Hl. apply lookup_replicate in Hl as [[=] _]. }
    { intros l _ j item Hj Hitem.
      pose proof (aget_Some_lt _ _ _ Hitem). lia. }
    rewrite Hrun, bind_Ok. rewrite length_replicate, Z2Nat.id in Hall by lia.
    assert (Hin : ∀ (j : nat) item,
              aget measurements (Z.of_nat j) = Some item →
              ∃ v, v ∈ omap id ends ∧ VirtualItem.end_ item ≤ v).
    { intros j item Hitem.
      destruct (Hall j item Hitem (Hrange j item Hitem)) as [v Hv].
      exists v. split.
      - apply list_elem_of_omap. exists (Some v).
        split; [by eapply list_elem_of_lookup_2|done].
      - destruct (Hends _ _ Hv) as [_ Hbound].
        apply (Hbound j item Hitem).
        pose proof (Hrange j item Hitem). lia. }
    destruct (dense_aget measurements 0 Hdense ltac:(lia)) as [first Hfirst].
    destruct (Hin 0%nat first Hfirst) as (v0 & Hv0 & _).
    destruct (omap id ends) as [|e es] eqn:Hfilter;
      [by apply elem_of_nil in Hv0|].
    eexists. split; [reflexivity|]. split.
    + intros j item Hitem. destruct (Hin j item Hitem) as (v & Hv & Hle).
      pose proof (foldr_max_ge e es v Hv). lia.
    + pose proof (foldr_max_elem e es) as Hmax.
      rewrite <- Hfilter in Hmax.
      apply list_elem_of_omap in Hmax as (x & Hx & Hsome).
      simpl in Hsome. subst x.
      apply list_elem_of_lookup_1 in Hx as [l Hl].
      destruct (Hends _ _ Hl) as [(j & item & Hitem & Hend) _].
      exists j, item. split; [done|]. by rewrite Hend.
Qed.

Lemma measuredTwoLanes_eq :
  measuredTwoLanes
  = Some <$> [VirtualItem.mk (KNumber 0) 0 0 50 50 0;
              VirtualItem.mk (KNumber 1) 1 0 50 50 1;
              VirtualItem.mk (KNumber 2) 2 50 100 50 0;
              VirtualItem.mk (KNumber 3) 3 50 100 50 1].
Proof. vm_compute. reflexivity. Qed.

Lemma measuredTwoLanes_cases (P : nat → VirtualItem.t → Prop) :
  P 0%nat (VirtualItem.mk (KNumber 0) 0 0 50 50 0) →
  P 1%nat (VirtualItem.mk (KNumber 1) 1 0 50 50 1) →
  P 2%nat (VirtualItem.mk (KNumber 2) 2 50 100 50 0) →
  P 3%nat (VirtualItem.mk (KNumber 3) 3 50 100 50 1) →
  ∀ (j : nat) item,
    aget measuredTwoLanes (Z.of_nat j) = Some item → P j item.
Proof.
  intros H0 H1 H2 H3 j item. rewrite measuredTwoLanes_eq, aget_nat.
  destruct j as [|[|[|[|j]]]]; simpl; intros [= <-]; done.
Qed.

(** Scenario B measured: two lanes of two rows each reach 100px. *)
Lemma getTotalSize_covers_witness :
  let s := Sample.fresh Sample.twoLanes in
  (measuredTwoLanes ≠ []
   ∧ dense measuredTwoLanes
   ∧ lane_ordered measuredTwoLanes
   ∧ 1 ≤ Options.lanes (Virtualizer.options s) < 2 ^ 32
   ∧ (∀ (j : nat) item, aget measuredTwoLanes (Z.of_nat j) = Some item →
        0 ≤ VirtualItem.lane item < Options.lanes (Virtualizer.options s))
   ∧ (length measuredTwoLanes ≤ 4)%nat) ∧
  ∃ total,
    Methods.getTotalSize 4 measuredTwoLanes s = Ok (inr total)
    ∧ ∀ (j : nat) item, aget measuredTwoLanes (Z.of_nat j) = Some item →
        VirtualItem.end_ item ≤ total.
Proof.
  intros s.
  assert (Hne : measuredTwoLanes ≠ []) by (by rewrite measuredTwoLanes_eq).
  assert (Hdense : dense measuredTwoLanes).
  { rewrite measuredTwoLanes_eq. apply dense_fmap_Some. }
  assert (Hordered : lane_ordered measuredTwoLanes).
  { intros i j x y Hx Hy Hij. revert j y Hy Hij. revert i x Hx.
    apply (measuredTwoLanes_cases
             (λ i x, ∀ (j : nat) y,
                aget measuredTwoLanes (Z.of_nat j) = Some y → (i ≤ j)%nat →
                VirtualItem.lane x = VirtualItem.lane y →
                VirtualItem.end_ x ≤ VirtualItem.end_ y));
      apply (measuredTwoLanes_cases
               (λ j y, (_ ≤ j)%nat →
                  VirtualItem.lane _ = VirtualItem.lane y →
                  VirtualItem.end_ _ ≤ VirtualItem.end_ y));
      simpl; intros; lia. }
  assert (Hlanes : 1 ≤ Options.lanes (Virtualizer.options s) < 2 ^ 32)
    by (simpl; lia).
  assert (Hrange : ∀ (j : nat) item,
            aget measuredTwoLanes (Z.of_nat j) = Some item →
            0 ≤ VirtualItem.lane item < Options.lanes (Virtualizer.options s)).
  { apply (measuredTwoLanes_cases (λ _ item, 0 ≤ VirtualItem.lane item < 2));
      simpl; lia. }
  assert (Hfuel : (length measuredTwoLanes ≤ 4)%nat)
    by (rewrite measuredTwoLanes_eq; simpl; lia).
  split; [done|].
  destruct (getTotalSize_covers 4 measuredTwoLanes s Hne Hdense Hordered
              Hlanes Hrange Hfuel) as (total & Htotal & Hcovers & _).
  exists total. split; [done|].
  intros j item Hitem. specialize (Hcovers j item Hitem). simpl in Hcovers.
  lia.
Defined.

(** ** Lanes as stacks *)

Lemma mapGet_Some_elem {K A : Type} `{EqDecision K} (m : list (K * A)) k v :
  mapGet m k = Some v → (k, v) ∈ m.
Proof.
  induction m as [|[k' v'] m IH]; simpl; [done|].
  destruct (decide (k' = k)) as [->|Hne].
  - intros [= ->]. left.
  - intros Hget. right. by apply IH.
Qed.

Lemma mapGet_None_elem {K A : Type} `{EqDecision K} (m : list (K * A)) k v :
  mapGet m k = None → (k, v) ∉ m.
Proof.
  induction m as [|[k' v'] m IH]; simpl; [intros _; apply not_elem_of_nil|].
  destruct (decide (k' = k)) as [->|Hne]; [done|].
  intros Hget [[=]|Hin]%elem_of_cons; [done|]. by apply IH.
Qed.

Lemma mapGet_unique {K A : Type} `{EqDecision K} (m : list (K * A)) k v p :
  NoDup (fst <$> m) → (k, v) ∈ m → mapGet m k = Some p → v = p.
Proof.
  induction m as [|[k' v'] m IH]; simpl;
    [intros _ Hin; by apply elem_of_nil in Hin|].
  intros [Hfresh Hnodup]%NoDup_cons.
  destruct (decide (k' = k)) as [->|Hne].
  - intros [[= ->]|Hin]%elem_of_cons [= <-]; [done|].
    exfalso. apply Hfresh. apply list_elem_of_fmap. by exists (k, v).
  - intros [[=]|Hin]%elem_of_cons; [done|]. by apply IH.
Qed.

Lemma mapSet_here {K A : Type} `{EqDecision K} (m : list (K * A)) k v :
  (k, v) ∈ mapSet m k v.
Proof.
  induction m as [|[k' v'] m IH]; simpl; [left|].
  destruct (decide (k' = k)); [left|by right].
Qed.

Lemma mapSet_other {K A : Type} `{EqDecision K} (m : list (K * A)) k v k' x :
  k' ≠ k → (k', x) ∈ m → (k', x) ∈ mapSet m k v.
Proof.
  intros Hne. induction m as [|[k1 v1] m IH]; simpl;
    [by intros ?%elem_of_nil|].
  intros [[= <- <-]|Hin]%elem_of_cons.
  - rewrite decide_False by done. left.
  - destruct (decide (k1 = k)); right; [done|by apply IH].
Qed.

Lemma mapSet_keys {K A : Type} `{EqDecision K} (m : list (K * A)) k v k' :
  k' ∈ fst <$> mapSet m k v → k' = k ∨ k' ∈ fst <$> m.
Proof.
  induction m as [|[k1 v1] m IH]; simpl.
  - intros ->%list_elem_of_singleton. by left.
  - destruct (decide (k1 = k)) as [->|Hne]; simpl; rewrite !elem_of_cons;
      intros [->|Hin]; auto.
    destruct (IH Hin); auto.
Qed.

Lemma NoDup_mapSet {K A : Type} `{EqDecision K} (m : list (K * A)) k v :
  NoDup (fst <$> m) → NoDup (fst <$> mapSet m k v).
Proof.
  induction m as [|[k1 v1] m IH]; simpl.
  - intros _. apply NoDup_singleton.
  - intros [Hfresh Hnodup]%NoDup_cons.
    destruct (decide (k1 = k)) as [->|Hne]; simpl; apply NoDup_cons.
    + done.
    + split; [|by apply IH].
      intros [->|Hin]%mapSet_keys; done.
Qed.

Lemma mapSet_elem {K A : Type} `{EqDecision K} (m : list (K * A)) k v k' x :
  NoDup (fst <$> m) → (k', x) ∈ mapSet m k v →
  (k' = k ∧ x = v) ∨ (k' ≠ k ∧ (k', x) ∈ m).
Proof.
  induction m as [|[k1 v1] m IH]; simpl.
  - intros _ [= -> ->]%list_elem_of_singleton. by left.
  - intros [Hfresh Hnodup]%NoDup_cons.
    destruct (decide (k1 = k)) as [->|Hne].
    + intros [[= -> ->]|Hin]%elem_of_cons; [by left|].
      right. split; [|by right].
      intros ->. apply Hfresh. apply list_elem_of_fmap. by exists (k, x).
    + intros [[= -> ->]|Hin]%elem_of_cons; [right; split; [done|left]|].
      destruct (IH Hnodup Hin) as [?|[? ?]]; [by left|].
      right. split; [done|by right].
Qed.

Lemma length_insertBy {A : Type} (cmp : A → A → Z) x l :
  length (insertBy cmp x l) = S (length l).
Proof.
  induction l as [|y l IH]; simpl; [done|].
  destruct (decide (cmp x y ≤ 0)); simpl; lia.
Qed.

Lemma length_sortBy {A : Type} (cmp : A → A → Z) l :
  length (sortBy cmp l) = length l.
Proof.
  unfold sortBy. induction l as [|x l IH]; simpl; [done|].
  by rewrite length_insertBy, IH.
Qed.

Section scan.
Variable measurements : list (option VirtualItem.t).
Variable index : nat.
Hypothesis ordered_below :
  ∀ (m m' : nat) x y, (m ≤ m' < index)%nat →
    aget measurements (Z.of_nat m) = Some x →
    aget measurements (Z.of_nat m') = Some y →
    VirtualItem.lane x = VirtualItem.lane y →
    VirtualItem.end_ x ≤ VirtualItem.end_ y.

(** A round that keeps the candidates. *)
Lemma scanned_keep n found found' furthest measurement :
  (n < index)%nat →
  scanned measurements index (S n) found furthest →
  aget measurements (Z.of_nat n) = Some measurement →
  (∃ x, (VirtualItem.lane measurement, x) ∈ furthest) →
  (∀ lane, lane ∈ found' → ∃ x, (lane, x) ∈ furthest) →
  scanned measurements index n found' furthest.
Proof.
  intros Hn (Hnodup & Hcand & Hread & _) Hm Hkey Hfound'.
  split; [done|]. split; [|split; [|done]].
  - intros lane x Hx. destruct (Hcand lane x Hx) as (Hlane & (m & Hmx & Hx') & Hends).
    split; [done|]. split; [exists m; split; [lia|done]|].
    intros m' y Hm' Hy Hylane.
    destruct (decide (m' = n)) as [->|Hne].
    + apply (ordered_below n m y x); [lia|done|done|congruence].
    + apply (Hends m' y); [lia|done|done].
  - intros m y Hmy Hy. destruct (decide (m = n)) as [->|Hne].
    + rewrite Hm in Hy. by injection Hy as <-.
    + apply (Hread m y); [lia|done].
Qed.

(** A round that sets the candidate of its lane. *)
Lemma scanned_set n found furthest measurement :
  (n < index)%nat →
  scanned measurements index (S n) found furthest →
  aget measurements (Z.of_nat n) = Some measurement →
  (∀ p, (VirtualItem.lane measurement, p) ∈ furthest →
     VirtualItem.end_ p ≤ VirtualItem.end_ measurement) →
  scanned measurements index n found
    (mapSet furthest (VirtualItem.lane measurement) measurement).
Proof.
  intros Hn (Hnodup & Hcand & Hread & Hfound) Hm Hprevious.
  assert (Hkeep : ∀ lane x, (lane, x) ∈ furthest →
            ∃ x', (lane, x')
                  ∈ mapSet furthest (VirtualItem.lane measurement) measurement).
  { intros lane x Hx.
    destruct (decide (lane = VirtualItem.lane measurement)) as [->|Hne].
    - eexists. apply mapSet_here.
    - exists x. by apply mapSet_other. }
  split; [by apply NoDup_mapSet|]. split; [|split].
  - intros lane x Hx.
    apply mapSet_elem in Hx as [[-> ->]|[Hne Hx]]; [| |done].
    + split; [done|]. split; [exists n; split; [lia|done]|].
      intros m y Hmy Hy Hylane.
      destruct (decide (m = n)) as [->|Hmn].
      * rewrite Hm in Hy. injection Hy as <-. lia.
      * destruct (Hread m y ltac:(lia) Hy) as [x Hx]. rewrite Hylane in Hx.
        destruct (Hcand _ x Hx) as (_ & _ & Hends).
        pose proof (Hends m y ltac:(lia) Hy Hylane).
        pose proof (Hprevious x Hx). lia.
    + destruct (Hcand lane x Hx) as (Hlane & (m & Hmx & Hx') & Hends).
      split; [done|]. split; [exists m; split; [lia|done]|].
      intros m' y Hm' Hy Hylane.
      destruct (decide (m' = n)) as [->|Hmn].
      * rewrite Hm in Hy. injection Hy as <-. done.
      * apply (Hends m' y); [lia|done|done].
  - intros m y Hmy Hy. destruct (decide (m = n)) as [->|Hmn].
    + rewrite Hm in Hy. injection Hy as <-. eexists. apply mapSet_here.
    + destruct (Hread m y ltac:(lia) Hy) as [x Hx]. by eapply Hkeep.
  - intros lane Hlane. destruct (Hfound lane Hlane) as [x Hx]. by eapply Hkeep.
Qed.

(** The scan ends on the last slot or on [lanes] closed lanes. *)
Lemma furthestLoop_scanned lanes n : ∀ found furthest r,
  (n ≤ index)%nat →
  scanned measurements index n found furthest →
  Virtualizer.furthestLoop lanes measurements n found furthest = Ok r →
  ∃ (n' : nat) found',
    scanned measurements index n' found' r
    ∧ (n' = 0%nat ∨ Z.of_nat (size found') = lanes).
Proof.
  induction n as [|n IH]; intros found furthest r Hn Hscanned;
    cbn [Virtualizer.furthestLoop].
  - intros [= <-]. exists 0%nat, found. auto.
  - destruct (aget measurements (Z.of_nat n)) as [measurement|] eqn:Hm;
      simpl; [|done].
    pose proof Hscanned as (Hnodup & Hcand & Hread & Hfound).
    assert (Hnext : ∀ found' furthest',
      scanned measurements index n found' furthest' →
      (if decide (Z.of_nat (size found') = lanes) then Ok furthest'
       else Virtualizer.furthestLoop lanes measurements n found' furthest')
      = Ok r →
      ∃ (n' : nat) found'',
        scanned measurements index n' found'' r
        ∧ (n' = 0%nat ∨ Z.of_nat (size found'') = lanes)).
    { intros found' furthest' Hs.
      destruct (decide (Z.of_nat (size found') = lanes)).
      - intros [= <-]. exists n, found'. auto.
      - apply IH; [lia|done]. }
    destruct (decide (VirtualItem.lane measurement ∈ found)) as [Hclosed|Hopen].
    { apply IH; [lia|].
      apply (scanned_keep n found found furthest measurement); auto with lia. }
    destruct (mapGet furthest (VirtualItem.lane measurement))
      as [previous|] eqn:Hprevious.
    + pose proof (mapGet_Some_elem _ _ _ Hprevious) as Hin.
      destruct (decide (VirtualItem.end_ measurement
                        > VirtualItem.end_ previous)).
      * apply Hnext. apply scanned_set; [lia|done|done|].
        intros p Hp.
        rewrite (mapGet_unique _ _ _ _ Hnodup Hp Hprevious). lia.
      * destruct (decide (VirtualItem.end_ measurement
                          < VirtualItem.end_ previous)).
        -- apply Hnext.
           apply (scanned_keep n found _ furthest measurement);
             [lia|done|done|eauto|].
           intros lane [->%elem_of_singleton|Hlane]%elem_of_union; eauto.
        -- apply Hnext.
           apply (scanned_keep n found _ furthest measurement);
             [lia|done|done|eauto|done].
    + apply Hnext. apply scanned_set; [lia|done|done|].
      intros p Hp. by apply mapGet_None_elem with (v := p) in Hprevious.
Qed.

(** The item [getFurthestMeasurement] returns ends no earlier than any
    item of its lane below [index]; and it returns an item once every lane
    holds one. *)
Lemma getFurthestMeasurement_furthest lanes r :
  Virtualizer.getFurthestMeasurement lanes measurements index = Ok r →
  (∀ f, r = Some f →
     ∀ (m : nat) y, (m < index)%nat →
       aget measurements (Z.of_nat m) = Some y →
       VirtualItem.lane y = VirtualItem.lane f →
       VirtualItem.end_ y ≤ VirtualItem.end_ f)
  ∧ (1 ≤ lanes →
     (∀ (m : nat) y, (m < index)%nat →
        aget measurements (Z.of_nat m) = Some y →
        0 ≤ VirtualItem.lane y < lanes) →
     (∀ lane, 0 ≤ lane < lanes →
        ∃ (m : nat) y, (m < index)%nat
                       ∧ aget measurements (Z.of_nat m) = Some y
                       ∧ VirtualItem.lane y = lane) →
     is_Some r).
Proof.
  unfold Virtualizer.getFurthestMeasurement.
  destruct (Virtualizer.furthestLoop lanes measurements index ∅ [])
    as [furthest| |] eqn:Hloop; simpl; [|done..].
  destruct (furthestLoop_scanned lanes index ∅ [] furthest)
    as (n' & found' & (Hnodup & Hcand & Hread & Hfound) & Hstop);
    [lia| |done|].
  { split; [apply NoDup_nil_2|]. split; [by intros ? ? ?%elem_of_nil|].
    split; [intros; lia|]. by intros ? ?%elem_of_empty. }
  intros Hr. split.
  - intros f ->. destruct (decide (Z.of_nat (length furthest) = lanes));
      [|done].
    injection Hr as Hhead.
    apply head_Some_elem_of, elem_of_sortBy, list_elem_of_fmap in Hhead
      as ([lane x] & -> & Hx). simpl.
    destruct (Hcand lane x Hx) as (Hlane & (mx & Hmx & Hx') & Hends).
    intros m y Hm Hy Hylane.
    destruct (decide (n' ≤ m)%nat).
    + apply (Hends m y); [lia|done|congruence].
    + apply (ordered_below m mx y x); [lia|done|done|done].
  - intros Hlanes Hrange Hpresent.
    assert (Hlen : Z.of_nat (length furthest) = lanes).
    { rewrite <- (length_fmap fst furthest).
      assert (Hkeys : ∀ lane, lane ∈ fst <$> furthest → 0 ≤ lane < lanes).
      { intros lane ([lane' x] & -> & Hx)%list_elem_of_fmap. simpl.
        destruct (Hcand _ x Hx) as (<- & (mx & Hmx & Hx') & _).
        apply (Hrange mx x); [lia|done]. }
      assert (Hupper : (length (fst <$> furthest) ≤ Z.to_nat lanes)%nat).
      { rewrite <- (length_seqZ 0 lanes). apply submseteq_length.
        apply NoDup_submseteq; [done|].
        intros lane Hlane%Hkeys. apply elem_of_seqZ. lia. }
      assert (Hlower : (Z.to_nat lanes ≤ length (fst <$> furthest))%nat);
        [|lia].
      destruct Hstop as [->|Hsize].
      - rewrite <- (length_seqZ 0 lanes). apply submseteq_length.
        apply NoDup_submseteq; [apply NoDup_seqZ|].
        intros lane Hlane%elem_of_seqZ.
        destruct (Hpresent lane ltac:(lia)) as (m & y & Hm & Hy & <-).
        destruct (Hread m y ltac:(lia) Hy) as [x Hx].
        apply list_elem_of_fmap. by exists (VirtualItem.lane y, x).
      - assert (Hsub : found' ⊆ list_to_set (C := gset Z) (fst <$> furthest)).
        { intros lane Hlane. destruct (Hfound lane Hlane) as [x Hx].
          apply elem_of_list_to_set, list_elem_of_fmap. by exists (lane, x). }
        apply subseteq_size in Hsub.
        rewrite size_list_to_set in Hsub by done. lia. }
    rewrite decide_True in Hr by done. injection Hr as <-.
    pose proof (length_sortBy Virtualizer.compareFurthest (snd <$> furthest))
      as Hsorted.
    rewrite length_fmap in Hsorted.
    destruct (sortBy Virtualizer.compareFurthest (snd <$> furthest));
      [simpl in Hsorted; lia|by eexists].
Qed.

End scan.

(** What [measureItem] takes from the item before: the start and the lane. *)
Lemma measureItem_furthest mo s measurements i item :
  Virtualizer.measureItem mo s measurements i = Ok item →
  ∃ r,
    (if decide (Options.lanes (Virtualizer.options s) = 1)
     then Ok (aget measurements (Z.of_nat i - 1))
     else Virtualizer.getFurthestMeasurement
            (Options.lanes (Virtualizer.options s)) measurements i) = Ok r
    ∧ VirtualItem.start item
      = match r with
        | Some f => VirtualItem.end_ f + Options.gap (Virtualizer.options s)
        | None => MeasurementOptions.paddingStart mo
                  + MeasurementOptions.scrollMargin mo
        end
    ∧ VirtualItem.lane item
      = match r with
        | Some f => VirtualItem.lane f
        | None => rem (Z.of_nat i) (Options.lanes (Virtualizer.options s))
        end.
Proof.
  unfold Virtualizer.measureItem.
  destruct (if decide (Options.lanes (Virtualizer.options s) = 1)
            then Ok (aget measurements (Z.of_nat i - 1))
            else Virtualizer.getFurthestMeasurement
                   (Options.lanes (Virtualizer.options s)) measurements i)
    as [r| |]; simpl; [|done..].
  intros [= <-]. by exists r.
Qed.

Lemma stacked_nil lanes gap : stacked lanes gap [].
Proof. split; intros; by rewrite aget_nat, lookup_nil in *. Qed.

(** Ends rise along a lane of stacks. *)
Lemma stacked_lane_ordered lanes gap a :
  0 ≤ gap → stacked lanes gap a → lane_ordered a.
Proof.
  intros Hgap [Hitems Hstack] i j x y Hx Hy Hij Hlane.
  destruct (decide (i = j)) as [->|Hne].
  - rewrite Hx in Hy. injection Hy as <-. lia.
  - pose proof (Hstack i j x y Hx Hy ltac:(lia) Hlane).
    destruct (Hitems j y Hy) as (_ & ? & _). lia.
Qed.

(** A recomputation keeps the lanes stacked. With at least one lane, a gap
    and sizes that are not negative, a recomputation over a cache whose
    lanes are stacks gives a sequence whose lanes are stacks: no two items
    of a lane overlap. *)
Theorem getMeasurements_stacked
    (mo : MeasurementOptions.t) (s : Virtualizer.t) :
  MeasurementOptions.enabled mo = true →
  cache_wf s →
  1 ≤ Options.lanes (Virtualizer.options s) →
  0 ≤ Options.gap (Virtualizer.options s) →
  sizes_nonneg (Virtualizer.loadInitialMeasurements s) →
  stacked (Options.lanes (Virtualizer.options s))
          (Options.gap (Virtualizer.options s))
          (Virtualizer.measurementsCache s) →
  ∃ measurements s',
    Virtualizer.getMeasurements mo s = Ok (measurements, s')
    ∧ stacked (Options.lanes (Virtualizer.options s))
              (Options.gap (Virtualizer.options s)) measurements.
Proof.
  intros Hen Hwf Hlanes Hgap [Hest Hmeasured] [Hitems Hstack].
  destruct (getMeasurements_spec mo s Hen Hwf)
    as (measurements & Hget & Hdense & Hlen & Hkept & Hcomputed).
  eexists _, _. split; [exact Hget|].
  set (min := Virtualizer.minPending
                (Virtualizer.pendingMeasuredCacheIndexes s)) in *.
  set (s2 := Virtualizer.set_pendingMeasuredCacheIndexes []
               (Virtualizer.loadInitialMeasurements s)) in *.
  set (lanes := Options.lanes (Virtualizer.options s)) in *.
  set (gap := Options.gap (Virtualizer.options s)) in *.
  assert (Hopt : Virtualizer.options s2 = Virtualizer.options s)
    by apply options_loadInitialMeasurements.
  assert (Hnew : ∀ (j : nat) x,
            (min ≤ j)%nat → aget measurements (Z.of_nat j) = Some x →
            Virtualizer.measureItem mo s2 measurements j = Ok x).
  { intros j x Hj Hx. pose proof (aget_Some_lt _ _ _ Hx).
    destruct (Hcomputed j Hj ltac:(lia)) as (x' & Hx' & Hm).
    rewrite Hx in Hx'. by injection Hx' as <-. }
  assert (Hbelow : ∀ n : nat,
    (∀ (j : nat) x, (j < n)%nat → aget measurements (Z.of_nat j) = Some x →
       0 ≤ VirtualItem.lane x < lanes
       ∧ VirtualItem.start x ≤ VirtualItem.end_ x
       ∧ (Z.of_nat j < lanes → VirtualItem.lane x = Z.of_nat j))
    ∧ (∀ (i j : nat) x y, (j < n)%nat →
         aget measurements (Z.of_nat i) = Some x →
         aget measurements (Z.of_nat j) = Some y →
         (i < j)%nat → VirtualItem.lane x = VirtualItem.lane y →
         VirtualItem.end_ x + gap ≤ VirtualItem.start y)).
  { induction n as [|n [IHitems IHstack]]; [split; intros; lia|].
    assert (Hordered : ∀ (m m' : nat) x y, (m ≤ m' < n)%nat →
              aget measurements (Z.of_nat m) = Some x →
              aget measurements (Z.of_nat m') = Some y →
              VirtualItem.lane x = VirtualItem.lane y →
              VirtualItem.end_ x ≤ VirtualItem.end_ y).
    { intros m m' x y Hm Hx Hy Hlane.
      destruct (decide (m = m')) as [->|Hne].
      - rewrite Hx in Hy. injection Hy as <-. lia.
      - pose proof (IHstack m m' x y ltac:(lia) Hx Hy ltac:(lia) Hlane).
        destruct (IHitems m' y ltac:(lia) Hy) as (_ & ? & _). lia. }
    assert (Hstep : ∀ y, aget measurements (Z.of_nat n) = Some y →
      (0 ≤ VirtualItem.lane y < lanes
       ∧ VirtualItem.start y ≤ VirtualItem.end_ y
       ∧ (Z.of_nat n < lanes → VirtualItem.lane y = Z.of_nat n))
      ∧ ∀ (i : nat) x, (i < n)%nat →
          aget measurements (Z.of_nat i) = Some x →
          VirtualItem.lane x = VirtualItem.lane y →
          VirtualItem.end_ x + gap ≤ VirtualItem.start y).
    { intros y Hy.
      destruct (decide (n < min)%nat) as [Hold|Hfresh].
      { split.
        - apply (Hitems n). by rewrite <- Hkept.
        - intros i x Hi Hx Hlane.
          apply (Hstack i n x y); [|by rewrite <- Hkept|lia|done].
          rewrite <- Hkept by lia. done. }
      pose proof (Hnew n y ltac:(lia) Hy) as Hm.
      assert (Hspan : VirtualItem.start y ≤ VirtualItem.end_ y).
      { pose proof (measureItem_size _ _ _ _ _ Hm) as Hsize.
        pose proof (measureItem_item_ok _ _ _ _ _ Hm) as (Hok & _).
        unfold item_ok in Hok.
        assert (0 ≤ VirtualItem.size y); [|lia].
        rewrite Hsize.
        destruct (Virtualizer.itemSizeCache s2
                    !! MeasurementOptions.getItemKey mo n) as [v|] eqn:Hv;
          simpl.
        - by eapply Hmeasured.
        - apply Hest. }
      destruct (measureItem_furthest _ _ _ _ _ Hm) as (r & Hr & Hstart & Hlane).
      rewrite Hopt in Hr, Hstart, Hlane. fold lanes in Hr, Hlane.
      fold gap in Hstart.
      assert (Hrem : Z.of_nat n < lanes → rem (Z.of_nat n) lanes = Z.of_nat n).
      { intros Hn. unfold rem. apply Z.rem_small. lia. }
      destruct (decide (lanes = 1)) as [Hone|Hmany].
      - (* one lane: the item before *)
        injection Hr as <-.
        destruct (aget measurements (Z.of_nat n - 1)) as [f|] eqn:Hf.
        + assert (0 ≤ Z.of_nat n - 1).
          { destruct (decide (0 ≤ Z.of_nat n - 1)); [done|].
            by rewrite aget_neg in Hf by lia. }
          replace (Z.of_nat n - 1) with (Z.of_nat (n - 1)) in Hf by lia.
          destruct (IHitems (n - 1)%nat f ltac:(lia) Hf) as (Hflane & Hfspan & _).
          split; [split; [lia|split; [done|lia]]|].
          intros i x Hi Hx Hxlane.
          assert (VirtualItem.end_ x ≤ VirtualItem.end_ f); [|lia].
          apply (Hordered i (n - 1)%nat x f); [lia|done|done|congruence].
        + assert (n = 0%nat) as ->.
          { destruct n as [|n]; [done|].
            destruct (Hdense n) as [z Hz].
            { apply aget_Some_lt in Hy. lia. }
            replace (Z.of_nat (S n) - 1) with (Z.of_nat n) in Hf by lia.
            congruence. }
          split; [|intros; lia].
          rewrite Hlane, Hrem by lia. split; [lia|]. split; [done|done].
      - (* several lanes: the furthest item of the shortest lane *)
        destruct (getFurthestMeasurement_furthest measurements n Hordered
                    lanes r Hr) as [Hfurthest Hfull].
        destruct (getFurthestMeasurement_cases _ _ _ _ Hr) as [Hfew Hsome].
        destruct r as [f|].
        + destruct (Hsome f eq_refl) as (m & Hmn & Hf).
          destruct (IHitems m f Hmn Hf) as (Hflane & _ & _).
          split.
          * split; [lia|]. split; [done|].
            intros Hn. by specialize (Hfew Hn).
          * intros i x Hi Hx Hxlane.
            pose proof (Hfurthest f eq_refl i x Hi Hx ltac:(congruence)). lia.
        + assert (Hn : Z.of_nat n < lanes).
          { destruct (decide (Z.of_nat n < lanes)) as [|Hge]; [done|].
            destruct Hfull as [f [=]]; [lia| |].
            - intros m y' Hmn Hy'. by apply (IHitems m y' Hmn Hy').
            - intros lane Hlane'.
              destruct (Hdense (Z.to_nat lane)) as [z Hz].
              { apply aget_Some_lt in Hy. lia. }
              exists (Z.to_nat lane), z. split; [lia|]. split; [done|].
              destruct (IHitems (Z.to_nat lane) z ltac:(lia) Hz)
                as (_ & _ & Hrow).
              rewrite Hrow by lia. lia. }
          rewrite Hrem in Hlane by done.
          split; [split; [lia|split; [done|done]]|].
          intros i x Hi Hx Hxlane.
          destruct (IHitems i x Hi Hx) as (_ & _ & Hrow).
          rewrite Hrow in Hxlane by lia. lia. }
    split.
    - intros j x Hj Hx. destruct (decide (j = n)) as [->|Hne].
      + by apply Hstep.
      + apply IHitems; [lia|done].
    - intros i j x y Hj Hx Hy Hij Hlane.
      destruct (decide (j = n)) as [->|Hne].
      + destruct (Hstep y Hy) as [_ Hprev]. by apply (Hprev i x).
      + apply (IHstack i j x y); [lia|done..]. }
  destruct (Hbelow (length measurements)) as [Hall Hallstack].
  split.
  - intros j x Hx. apply (Hall j x); [|done]. by eapply aget_Some_lt.
  - intros i j x y Hx Hy. apply (Hallstack i j x y); [|done..].
    by eapply aget_Some_lt.
Qed.

Lemma getMeasurements_stacked_witness :
  let mo := Sample.measurementOptions Sample.twoLanes in
  let s := Sample.fresh Sample.twoLanes in
  (MeasurementOptions.enabled mo = true ∧ cache_wf s
   ∧ 1 ≤ Options.lanes (Virtualizer.options s)
   ∧ 0 ≤ Options.gap (Virtualizer.options s)
   ∧ sizes_nonneg (Virtualizer.loadInitialMeasurements s)
   ∧ stacked (Options.lanes (Virtualizer.options s))
             (Options.gap (Virtualizer.options s))
             (Virtualizer.measurementsCache s)) ∧
  ∃ measurements s',
    Virtualizer.getMeasurements mo s = Ok (measurements, s')
    ∧ stacked 2 0 measurements.
Proof.
  intros mo s.
  assert (Hen : MeasurementOptions.enabled mo = true) by reflexivity.
  assert (Hwf : cache_wf s) by apply cache_wf_fresh.
  assert (Hlanes : 1 ≤ Options.lanes (Virtualizer.options s)) by (simpl; lia).
  assert (Hgap : 0 ≤ Options.gap (Virtualizer.options s)) by (simpl; lia).
  assert (Hsizes : sizes_nonneg (Virtualizer.loadInitialMeasurements s)).
  { split; [intros i; simpl; lia|]. intros k v Hk. simpl in Hk.
    by rewrite lookup_empty in Hk. }
  assert (Hstacked : stacked (Options.lanes (Virtualizer.options s))
                             (Options.gap (Virtualizer.options s))
                             (Virtualizer.measurementsCache s))
    by apply stacked_nil.
  split; [done|].
  exact (getMeasurements_stacked mo s Hen Hwf Hlanes Hgap Hsizes Hstacked).
Defined.

(** ** From the viewport to the renderer *)

(** What is in sight is rendered. With one lane, a viewport that has a size
    and an overscan that is not negative, the range is computed and stored,
    and every item that reaches into the viewport is among the items that
    [getVirtualItems] hands out for the indexes [getVirtualIndexes] derives
    from that range with the default extractor. *)
Theorem visible_items_are_rendered
    (fuel : nat) (measurements : list (option VirtualItem.t))
    (outerSize scrollOffset overscan count : Z) (s : Virtualizer.t) :
  dense measurements →
  laid_out measurements →
  (0 < length measurements)%nat →
  Z.of_nat (length measurements) < 2 ^ 31 →
  (length measurements ≤ fuel)%nat →
  Z.of_nat (length measurements) ≤ count →
  0 < outerSize →
  0 ≤ overscan →
  ∃ r s',
    Virtualizer.calculateRange fuel measurements outerSize scrollOffset 1 s
    = Ok (Some r, s')
    ∧ Virtualizer.range s' = Some r
    ∧ ∀ (i : nat) x,
        aget measurements (Z.of_nat i) = Some x →
        scrollOffset < VirtualItem.end_ x →
        VirtualItem.start x < scrollOffset + outerSize →
        Some x
        ∈ Methods.getVirtualItems
            (Virtualizer.getVirtualIndexes defaultRangeExtractor overscan count
               (Some (Visible.startIndex r)) (Some (Visible.endIndex r)))
            measurements.
Proof.
  intros Hdense Hlaid Hpos Hlen Hfuel Hcount Houter Hoverscan.
  destruct (calculateRange_single_lane_covers fuel measurements outerSize
              scrollOffset Hdense Hlaid Hpos Hlen Hfuel) as (r & Hr & Hcovers).
  unfold Virtualizer.calculateRange.
  rewrite !bool_decide_eq_true_2 by lia. simpl. rewrite Hr, bind_Ok.
  eexists _, _. split; [reflexivity|]. split; [done|].
  intros i x Hx Hafter Hbefore.
  pose proof (Hcovers i x Hx Hafter Hbefore) as Hi.
  pose proof (aget_Some_lt _ _ _ Hx) as Hbound.
  unfold Virtualizer.getVirtualIndexes, Methods.getVirtualItems.
  rewrite defaultRangeExtractor_seqZ. simpl.
  apply list_elem_of_fmap. exists (Z.of_nat i). split; [done|].
  apply elem_of_seqZ. lia.
Qed.

(** Twenty rows of 50px, a viewport of 120px at offset 60, one row of
    overscan: rows 1 to 3 are in sight, and are handed out. *)
Lemma visible_items_are_rendered_witness :
  let measurements := Sample.rows 20 in
  let s := Sample.fresh Sample.options in
  (dense measurements ∧ laid_out measurements
   ∧ (0 < length measurements)%nat
   ∧ Z.of_nat (length measurements) < 2 ^ 31
   ∧ (length measurements ≤ 20)%nat
   ∧ Z.of_nat (length measurements) ≤ 20
   ∧ 0 < 120 ∧ 0 ≤ 1) ∧
  ∃ r s',
    Virtualizer.calculateRange 20 measurements 120 60 1 s = Ok (Some r, s')
    ∧ ∀ (i : nat) x,
        aget measurements (Z.of_nat i) = Some x →
        60 < VirtualItem.end_ x →
        VirtualItem.start x < 60 + 120 →
        Some x
        ∈ Methods.getVirtualItems
            (Virtualizer.getVirtualIndexes defaultRangeExtractor 1 20
               (Some (Visible.startIndex r)) (Some (Visible.endIndex r)))
            measurements.
Proof.
  intros measurements s.
  assert (Hdense : dense measurements) by apply dense_fmap_Some.
  assert (Hlaid : laid_out measurements) by apply laid_out_rows.
  assert (Hpos : (0 < length measurements)%nat) by (vm_compute; lia).
  assert (Hlen : Z.of_nat (length measurements) < 2 ^ 31)
    by (vm_compute; reflexivity).
  assert (Hfuel : (length measurements ≤ 20)%nat) by (vm_compute; lia).
  assert (Hcount : Z.of_nat (length measurements) ≤ 20)
    by (vm_compute; discriminate).
  assert (Houter : 0 < 120) by lia.
  assert (Hoverscan : 0 ≤ 1) by lia.
  split; [done|].
  destruct (visible_items_are_rendered 20 measurements 120 60 1 20 s
              Hdense Hlaid Hpos Hlen Hfuel Hcount Houter Hoverscan)
    as (r & s' & Hr & _ & Hrendered).
  by exists r, s'.
Defined.

(** ** Where [scrollToIndex] aims *)

(** The aim brings the item into view. In an instance that is enabled, for
    an item that fits into the viewport beside the two scroll paddings,
    neither of them negative (beside twice the paddings for [center]), the
    offset [getOffsetForIndex] gives, unless it is cut at an edge of the
    container, shows the whole item between the paddings. The offset of
    [center] may carry a half pixel, so the inequalities are stated on
    doubles. *)
Theorem getOffsetForIndex_brings_into_view
    (index : Z) (align : ScrollAlignment) (s : Virtualizer.t)
    (item : VirtualItem.t) (offset : number) (align' : ScrollAlignment)
    (viewport scrollSize : Z) :
  Options.enabled (Virtualizer.options s) = true →
  aget (Virtualizer.measurementsCache s)
       (Z.max 0 (Z.min index (Options.count (Virtualizer.options s) - 1)))
  = Some item →
  item_ok item →
  fst (Virtualizer.getSize s) = viewport →
  match Virtualizer.scrollElement s with
  | Some element =>
      if Options.horizontal (Virtualizer.options s)
      then ScrollElement.scrollWidth element
      else ScrollElement.scrollHeight element
  | None => 0
  end = scrollSize →
  0 ≤ Options.scrollPaddingStart (Virtualizer.options s) →
  0 ≤ Options.scrollPaddingEnd (Virtualizer.options s) →
  VirtualItem.size item
  + Options.scrollPaddingStart (Virtualizer.options s)
  + Options.scrollPaddingEnd (Virtualizer.options s) ≤ viewport →
  (align = AlignCenter →
   VirtualItem.size item
   + 2 * (Options.scrollPaddingStart (Virtualizer.options s)
          + Options.scrollPaddingEnd (Virtualizer.options s)) ≤ viewport) →
  fst (Virtualizer.getOffsetForIndex index align s) = Some (offset, align') →
  0 < twice offset < 2 * (scrollSize - viewport) →
  twice offset + 2 * Options.scrollPaddingStart (Virtualizer.options s)
  ≤ 2 * VirtualItem.start item
  ∧ 2 * VirtualItem.end_ item
    ≤ twice offset
      + 2 * (viewport - Options.scrollPaddingEnd (Virtualizer.options s)).
Proof.
  destruct s as [o se tw tid mc isc p sr so sa ec r].
  destruct o as [count est over hor ps pe sps spe io gk ir sm gap imc lanes en].
  unfold item_ok. simpl. intros -> Hitem Hok.
  run_scroll. rewrite Hitem. intros <- <- Hstart Hend Hfits Hcenter.
  destruct align; repeat case_decide; try done; run_scroll;
    intros [= <- <-]; try specialize (Hcenter eq_refl);
    unfold Math_max, Math_min, whole; simpl twice; lia.
Qed.

(** Row 20 of the thousand, centred in a viewport of 501px: the aim is
    774.5, and the row lies between 774.5 and 1275.5. *)
Lemma getOffsetForIndex_brings_into_view_witness :
  let s := oddViewport 200 in
  (Options.enabled (Virtualizer.options s) = true
   ∧ aget (Virtualizer.measurementsCache s)
          (Z.max 0 (Z.min 20 (Options.count (Virtualizer.options s) - 1)))
     = Some (Sample.row 20)
   ∧ item_ok (Sample.row 20)
   ∧ fst (Virtualizer.getSize s) = 501
   ∧ fst (Virtualizer.getOffsetForIndex 20 AlignCenter s)
     = Some (Halves 1549, AlignCenter)
   ∧ 0 < twice (Halves 1549) < 2 * (50000 - 501)) ∧
  1549 ≤ 2 * VirtualItem.start (Sample.row 20)
  ∧ 2 * VirtualItem.end_ (Sample.row 20) ≤ 1549 + 2 * 501.
Proof.
  intros s.
  assert (Hen : Options.enabled (Virtualizer.options s) = true) by reflexivity.
  assert (Hitem : aget (Virtualizer.measurementsCache s)
                    (Z.max 0 (Z.min 20 (Options.count (Virtualizer.options s)
                                        - 1)))
                  = Some (Sample.row 20)) by (vm_compute; reflexivity).
  assert (Hok : item_ok (Sample.row 20)) by reflexivity.
  assert (Hsize : fst (Virtualizer.getSize s) = 501) by reflexivity.
  assert (Haim : fst (Virtualizer.getOffsetForIndex 20 AlignCenter s)
                 = Some (Halves 1549, AlignCenter)) by (vm_compute; reflexivity).
  assert (Hcut : 0 < twice (Halves 1549) < 2 * (50000 - 501))
    by (simpl; lia).
  split; [done|].
  pose proof (getOffsetForIndex_brings_into_view 20 AlignCenter s
                (Sample.row 20) (Halves 1549) AlignCenter 501 50000 Hen Hitem
                Hok Hsize eq_refl ltac:(simpl; lia) ltac:(simpl; lia)
                ltac:(simpl; lia) ltac:(intros _; simpl; lia) Haim Hcut)
    as Hview.
  change (1549 + 2 * 0 ≤ 2 * 1000 ∧ 2 * 1050 ≤ 1549 + 2 * (501 - 0)) in Hview.
  change (1549 ≤ 2 * 1000 ∧ 2 * 1050 ≤ 1549 + 2 * 501). lia.
Defined.

(** ** A change of the measurement options *)

(** New measurement options lay everything out again. When
    [getMeasurementOptions] has run in an enabled instance, the
    recomputation keeps nothing of the cache: it returns exactly [count]
    items (none for a negative [count]), each with the index of its slot,
    the key [getItemKey] gives for that index now, and
    [end = start + size]. *)
Theorem getMeasurementOptions_restarts (s : Virtualizer.t) :
  cache_wf s →
  Options.enabled (Virtualizer.options s) = true →
  ∃ measurements s',
    Virtualizer.getMeasurements (fst (getMeasurementOptions s))
      (snd (getMeasurementOptions s))
    = Ok (measurements, s')
    ∧ dense measurements
    ∧ Z.of_nat (length measurements)
      = Z.max (Options.count (Virtualizer.options s)) 0
    ∧ ∀ (j : nat) item,
        aget measurements (Z.of_nat j) = Some item →
        VirtualItem.index item = j
        ∧ VirtualItem.key item
          = Options.getItemKey (Virtualizer.options s) j
        ∧ item_ok item.
Proof.
  intros (Hdense & Hindex & _) Hen.
  set (mo := fst (getMeasurementOptions s)).
  set (s1 := snd (getMeasurementOptions s)).
  assert (Hwf1 : cache_wf s1).
  { split; [done|]. split; [done|]. by intros p ?%elem_of_nil. }
  destruct (getMeasurements_spec mo s1 Hen Hwf1)
    as (measurements & Hget & Hdense' & Hlen & _ & Hcomputed).
  simpl in Hlen, Hcomputed.
  eexists _, _. split; [exact Hget|]. split; [done|]. split; [done|].
  intros j item Hitem.
  pose proof (aget_Some_lt _ _ _ Hitem) as Hj.
  destruct (Hcomputed j ltac:(lia) ltac:(lia)) as (item' & Hitem' & Hm).
  rewrite Hitem in Hitem'. injection Hitem' as <-.
  apply measureItem_item_ok in Hm as (Hok & Hidx & Hkey). done.
Qed.

(** Five rows whose cache is empty: the options give five items. *)
Lemma getMeasurementOptions_restarts_witness :
  let s := Sample.fresh Sample.gapped in
  (cache_wf s ∧ Options.enabled (Virtualizer.options s) = true) ∧
  ∃ measurements s',
    Virtualizer.getMeasurements (fst (getMeasurementOptions s))
      (snd (getMeasurementOptions s))
    = Ok (measurements, s')
    ∧ Z.of_nat (length measurements) = 5.
Proof.
  intros s.
  assert (Hwf : cache_wf s) by apply cache_wf_fresh.
  assert (Hen : Options.enabled (Virtualizer.options s) = true) by reflexivity.
  split; [done|].
  destruct (getMeasurementOptions_restarts s Hwf Hen)
    as (measurements & s' & Hget & _ & Hlen & _).
  by exists measurements, s'.
Defined.

(** A disabled instance shows nothing. With [enabled] off, the
    recomputation empties the measurement cache and the size map and
    returns no item; the viewport getters give 0 and forget the rectangle
    and the offset; no range is computed, and no index and no item is
    handed out. *)
Theorem disabled_instance_is_empty
    (s : Virtualizer.t) (fuel : nat) (rangeExtractor : Range.t → list Z) :
  Options.enabled (Virtualizer.options s) = false →
  ∃ s1 s2 s3 s4,
    Virtualizer.getMeasurements (fst (getMeasurementOptions s))
      (snd (getMeasurementOptions s)) = Ok ([], s1)
    ∧ Virtualizer.measurementsCache s1 = []
    ∧ Virtualizer.itemSizeCache s1 = ∅
    ∧ Virtualizer.getSize s1 = (0, s2)
    ∧ Virtualizer.getScrollOffset s2 = (0, s3)
    ∧ Virtualizer.scrollRect s3 = None
    ∧ Virtualizer.scrollOffset s3 = None
    ∧ Virtualizer.calculateRange fuel [] 0 0
        (Options.lanes (Virtualizer.options s)) s3 = Ok (None, s4)
    ∧ Virtualizer.range s4 = None
    ∧ Methods.getVirtualItems
        (Virtualizer.getVirtualIndexes rangeExtractor
           (Options.overscan (Virtualizer.options s))
           (Options.count (Virtualizer.options s)) None None) []
      = [].
Proof.
  intros Hen.
  set (s1 := Virtualizer.set_itemSizeCache ∅
               (Virtualizer.set_measurementsCache []
                  (Virtualizer.set_pendingMeasuredCacheIndexes [] s))).
  set (s2 := Virtualizer.set_scrollRect None s1).
  set (s3 := Virtualizer.set_scrollOffset None s2).
  exists s1, s2, s3, (Virtualizer.set_range None s3).
  assert (Hen1 : Options.enabled (Virtualizer.options s1) = false) by done.
  assert (Hen2 : Options.enabled (Virtualizer.options s2) = false) by done.
  split.
  { unfold Virtualizer.getMeasurements, getMeasurementOptions. simpl.
    by rewrite Hen. }
  split; [done|]. split; [done|].
  split; [unfold Virtualizer.getSize; by rewrite Hen1|].
  split; [unfold Virtualizer.getScrollOffset; by rewrite Hen2|].
  done.
Qed.

Lemma disabled_instance_is_empty_witness :
  let s := Sample.fresh (Options.mk 1000 (λ _, 50) 1 false 0 0 0 0 0
                           defaultKeyExtractor (Rect.mk 0 500) 0 0 [] 1 false) in
  Options.enabled (Virtualizer.options s) = false ∧
  ∃ s1,
    Virtualizer.getMeasurements (fst (getMeasurementOptions s))
      (snd (getMeasurementOptions s)) = Ok ([], s1)
    ∧ fst (Virtualizer.getSize s1) = 0.
Proof.
  intros s.
  assert (Hen : Options.enabled (Virtualizer.options s) = false) by reflexivity.
  split; [done|].
  destruct (disabled_instance_is_empty s 0 defaultRangeExtractor Hen)
    as (s1 & s2 & s3 & s4 & Hget & _ & _ & Hsize & _).
  exists s1. split; [done|]. by rewrite Hsize.
Defined.
